(** * Implicit time columns: a shallow embedding of the catalog, the
      compatibility guard and the scan hook of the PostgreSQL fork.

    Sources embedded here:
    - [src/backend/catalog/pg_implicit_columns.c]
    - [src/backend/catalog/pg_implicit_compat.c]
    - [src/backend/executor/execScan.c]
    - [src/include/catalog/pg_implicit_columns.h]
    - [src/backend/utils/error/implicit_time_error.c]

    Backend code is effectful: it reads and writes the catalog relation
    [pg_implicit_columns], writes to the server log through [elog], sends
    relcache invalidations, and leaves a function abruptly when
    [elog(ERROR, ...)] is reached, or when the process dies on an invalid
    memory access.  All of this is rendered by a small state-and-abort
    monad [Exec] over the record [Backend]. *)

From Stdlib Require Import ZArith List String Ascii Bool Lia Sorted Permutation.
From stdpp Require Import base option gmap strings.
Import ListNotations.

Local Open Scope string_scope.
Local Open Scope list_scope.
Local Open Scope Z_scope.

(** ** Scalar types of the backend *)

(** The scalar types, constants and macros below come from headers of the
    server that are not among the sources (postgres_ext.h, c.h,
    access/attnum.h, datatype/timestamp.h, the generated pg_type_d.h);
    they are given the meaning the server gives them. *)

(** [Oid] is an unsigned 32-bit integer; [InvalidOid] is 0. *)
Definition Oid := Z.
Definition InvalidOid : Oid := 0.
Definition OidIsValid (objectId : Oid) : bool := negb (objectId =? InvalidOid).

(** [AttrNumber] is [int16]; [InvalidAttrNumber] is 0. *)
Definition AttrNumber := Z.
Definition InvalidAttrNumber : AttrNumber := 0.
Definition AttributeNumberIsValid (attributeNumber : AttrNumber) : bool :=
  negb (attributeNumber =? InvalidAttrNumber).

(** Two's-complement narrowing of a mathematical integer to [w] bits. *)
Definition wrap (w : Z) (x : Z) : Z := (x + 2 ^ (w - 1)) mod 2 ^ w - 2 ^ (w - 1).
Definition int16 (x : Z) : Z := wrap 16 x.
Definition int32 (x : Z) : Z := wrap 32 x.
Definition int64 (x : Z) : Z := wrap 64 x.

Definition INT16_MAX : Z := 32767.
Definition INT32_MAX : Z := 2147483647.
Definition INT64_MIN : Z := - 9223372036854775808.
Definition INT64_MAX : Z := 9223372036854775807.

(** [Timestamp] and [TimestampTz] are [int64] microsecond counts since
    2000-01-01; [USECS_PER_SEC] is the microseconds-per-second constant. *)
Definition Timestamp := Z.
Definition TimestampTz := Z.
Definition USECS_PER_SEC : Z := 1000000.

(** Modelled from the spec: the generated header pg_type_d.h is missing.
    The type allow-list names two types, time without and with zone;
    PostgreSQL numbers them 1114 ([timestamp], [TIMESTAMPOID]) and 1184
    ([timestamptz], [TIMESTAMPTZOID]). *)
Definition TIMESTAMPOID : Oid := 1114.
Definition TIMESTAMPTZOID : Oid := 1184.

(** pg_implicit_columns.c, line 55. *)
Definition IMPLICIT_TIME_COLUMN_NAME : string := "time".

(** ** The catalog relation [pg_implicit_columns] *)

(** One heap tuple of the catalog, as declared by the [CATALOG] block of
    pg_implicit_columns.h. *)
Record FormData_pg_implicit_columns := mkImplicitForm {
  ic_relid : Oid;
  ic_attname : string;
  ic_attnum : AttrNumber;
  ic_atttypid : Oid;
  ic_visible : bool
}.

(** ** Backend state and the [Exec] monad *)

Inductive elevel := DEBUG2 | DEBUG1 | NOTICE | WARNING | ERROR.

Definition elevel_eqb (a b : elevel) : bool :=
  match a, b with
  | DEBUG2, DEBUG2 | DEBUG1, DEBUG1 | NOTICE, NOTICE
  | WARNING, WARNING | ERROR, ERROR => true
  | _, _ => false
  end.

(** A log line is its level and a tag naming the call site (the format
    strings of the source are kept out of the model). *)
Definition LogLine : Type := elevel * string.

Record Backend := mkBackend {
  implicit_rel : list FormData_pg_implicit_columns;  (* heap of pg_implicit_columns *)
  server_log : list LogLine;                          (* oldest first *)
  relcache_inval : list Oid                           (* invalidations sent, oldest first *)
}.

(** A call returns ([Done]), is left through [elog(ERROR)] ([Aborted]),
    or ends with the death of the backend process on an invalid memory
    access ([Crashed]); the state carried is the one reached by then. *)
Inductive Outcome (A : Type) :=
| Done (a : A) (s : Backend)
| Aborted (s : Backend)
| Crashed (s : Backend).
Arguments Done {A} a s.
Arguments Aborted {A} s.
Arguments Crashed {A} s.

Definition Exec (A : Type) : Type := Backend -> Outcome A.

Definition ret {A} (a : A) : Exec A := fun s => Done a s.

Definition bind {A B} (m : Exec A) (k : A -> Exec B) : Exec B :=
  fun s => match m s with
           | Done a s' => k a s'
           | Aborted s' => Aborted s'
           | Crashed s' => Crashed s'
           end.

Notation "'do' x <- m ; k" := (bind m (fun x => k))
  (at level 10, x name, m at level 100, k at level 200,
   format "'[v' 'do'  x  <-  m ; '/' k ']'").

Definition write_log (l : LogLine) (s : Backend) : Backend :=
  mkBackend (implicit_rel s) (server_log s ++ [l]) (relcache_inval s).

(** Modelled from the spec: [elog] of utils/elog.h is missing; by the
    propagation policy a hard error aborts the current statement, while
    a warning (or anything below it) is logged and the operation goes on.
    At [ERROR] the line is logged and control leaves the function. *)
Definition elog (lev : elevel) (tag : string) : Exec unit :=
  fun s => if elevel_eqb lev ERROR
           then Aborted (write_log (lev, tag) s)
           else Done tt (write_log (lev, tag) s).

(** [PG_TRY(); body PG_CATCH(); handler PG_END_TRY();] of utils/elog.h:
    the handler runs when the body is left through an error; it does not
    run when the process dies. *)
Definition PG_TRY {A} (body : Exec A) (handler : Exec A) : Exec A :=
  fun s => match body s with
           | Done a s' => Done a s'
           | Aborted s' => handler s'
           | Crashed s' => Crashed s'
           end.

(** A read through the NULL pointer: the process receives SIGSEGV. *)
Definition null_dereference {A} : Exec A := fun s => Crashed s.

(** ** Access to the catalog heap *)

(** Scan keys of [systable_beginscan]. *)
Definition key_relid (table_oid : Oid) (form : FormData_pg_implicit_columns) : bool :=
  ic_relid form =? table_oid.

Definition key_relid_attname (table_oid : Oid) (name : string)
    (form : FormData_pg_implicit_columns) : bool :=
  (ic_relid form =? table_oid) && String.eqb (ic_attname form) name.

(** The order of the btree [pg_implicit_columns_relid_attname_index], on
    (ic_relid oid_ops, ic_attname name_ops): identities as unsigned
    integers, then names byte by byte, as [strncmp] compares them. *)
Definition index_le (a b : FormData_pg_implicit_columns) : bool :=
  (ic_relid a <? ic_relid b)
  || ((ic_relid a =? ic_relid b) && String.leb (ic_attname a) (ic_attname b)).

(** Tuples in index order; tuples of equal key stay in heap order. *)
Fixpoint index_insert (tuple : FormData_pg_implicit_columns)
    (sorted : list FormData_pg_implicit_columns) : list FormData_pg_implicit_columns :=
  match sorted with
  | [] => [tuple]
  | other :: rest =>
      if index_le tuple other then tuple :: sorted
      else other :: index_insert tuple rest
  end.

Fixpoint index_order (tuples : list FormData_pg_implicit_columns)
    : list FormData_pg_implicit_columns :=
  match tuples with
  | [] => []
  | tuple :: rest => index_insert tuple (index_order rest)
  end.

(** The tuples a scan with the given keys returns through successive
    [systable_getnext] calls (access/genam.c, not among the sources):
    every scan of this code is opened on
    [ImplicitColumnsRelidAttnameIndexId] with [indexOK] set, so the tuples
    of the heap that satisfy the keys come in index order. *)
Definition systable_scan (keys : FormData_pg_implicit_columns -> bool) : Exec (list FormData_pg_implicit_columns) :=
  fun s => Done (index_order (List.filter keys (implicit_rel s))) s.

(** Modelled from the spec: [CatalogTupleInsert] of catalog/indexing.c is
    missing.  The name of a descriptor is "unique within table_id
    (enforced by a unique index over (table_id, name))", the index that
    pg_implicit_columns.h declares: a tuple whose key is already present
    is refused with an error, any other tuple is appended to the heap. *)
Definition CatalogTupleInsert (form : FormData_pg_implicit_columns) : Exec unit :=
  fun s =>
    if existsb (key_relid_attname (ic_relid form) (ic_attname form)) (implicit_rel s)
    then elog ERROR "CatalogTupleInsert: duplicate key in pg_implicit_columns_relid_attname_index" s
    else Done tt (mkBackend (implicit_rel s ++ [form]) (server_log s) (relcache_inval s)).

(** The loop [while (tuple = systable_getnext(scan)) { CatalogTupleDelete;
    found = true; }] of [remove_implicit_time_column]: one pass over the
    heap that drops every tuple the scan visits ([CatalogTupleDelete]
    removes the tuple at the scan's position) and reports whether it
    visited one. *)
Fixpoint delete_scanned (keys : FormData_pg_implicit_columns -> bool)
    (heap : list FormData_pg_implicit_columns)
    : list FormData_pg_implicit_columns * bool :=
  match heap with
  | [] => ([], false)
  | tuple :: rest =>
      let (rest', found) := delete_scanned keys rest in
      if keys tuple then (rest', true) else (tuple :: rest', found)
  end.

Definition CatalogTupleDelete_loop (keys : FormData_pg_implicit_columns -> bool) : Exec bool :=
  fun s =>
    let (heap', found) := delete_scanned keys (implicit_rel s) in
    Done found (mkBackend heap' (server_log s) (relcache_inval s)).

(** ** Relations *)

(** The fields of a [pg_class] tuple that this code reads. *)
Record FormData_pg_class := mkClassForm {
  relname : string;
  relkind : ascii;
  relpersistence : ascii;
  relnatts : Z                      (* int16 *)
}.

Definition RELKIND_RELATION : ascii := "r"%char.
Definition RELKIND_INDEX : ascii := "i"%char.
Definition RELKIND_PARTITIONED_INDEX : ascii := "I"%char.
Definition RELKIND_COMPOSITE_TYPE : ascii := "c"%char.
Definition RELPERSISTENCE_TEMP : ascii := "t"%char.

Record RelationData := mkRelation {
  rd_id : Oid;
  rd_rel : FormData_pg_class
}.

(** A [Relation] is a pointer to [RelationData]; [None] is the null pointer. *)
Definition Relation := option RelationData.

Definition RelationIsValid (rel : Relation) : bool :=
  match rel with Some _ => true | None => false end.
Definition RelationGetRelid (rd : RelationData) : Oid := rd_id rd.
Definition RelationGetRelationName (rd : RelationData) : string := relname (rd_rel rd).
Definition RelationGetNumberOfAttributes (rd : RelationData) : Z := relnatts (rd_rel rd).

(** Modelled from the spec: [CacheInvalidateRelcache] of utils/inval.c is
    missing; it "signals cache invalidation to the storage engine" for the
    relation, which is recorded in the queue of the backend. *)
Definition CacheInvalidateRelcache (rd : RelationData) : Exec unit :=
  fun s => Done tt (mkBackend (implicit_rel s) (server_log s)
                              (relcache_inval s ++ [RelationGetRelid rd])).

(** ** pg_implicit_columns.c *)

Definition is_time_form (form : FormData_pg_implicit_columns) : bool :=
  String.eqb (ic_attname form) IMPLICIT_TIME_COLUMN_NAME.

(** Lines 62-112. *)
Definition table_has_implicit_time (table_oid : Oid) : Exec bool :=
  if negb (OidIsValid table_oid) then
    do _ <- elog DEBUG1 "table_has_implicit_time: invalid table_oid" ;
    ret false
  else
    do tuples <- systable_scan (key_relid table_oid) ;
    let found := existsb is_time_form tuples in
    do _ <- elog DEBUG1
              (if found then "table_has_implicit_time: has implicit time column"
               else "table_has_implicit_time: has no implicit time column") ;
    ret found.

(** Lines 120-169. *)
Definition get_implicit_time_attnum (table_oid : Oid) : Exec AttrNumber :=
  if negb (OidIsValid table_oid) then
    do _ <- elog DEBUG1 "get_implicit_time_attnum: invalid table_oid" ;
    ret InvalidAttrNumber
  else
    do tuples <- systable_scan
                   (key_relid_attname table_oid IMPLICIT_TIME_COLUMN_NAME) ;
    let attnum := match tuples with
                  | form :: _ => ic_attnum form
                  | [] => InvalidAttrNumber
                  end in
    do _ <- elog DEBUG1 "get_implicit_time_attnum: attribute number" ;
    ret attnum.

(** Lines 178-197.  [GetCurrentTimestamp] is the server clock and
    [timestamptz_timestamp] the built-in conversion to the session time
    zone; both are inputs here.  C's [/] on [int64] truncates toward zero
    ([Z.quot]); each arithmetic result is narrowed to 64 bits. *)
Definition get_current_timestamp (GetCurrentTimestamp : TimestampTz)
    (timestamptz_timestamp : TimestampTz -> Timestamp) : Timestamp :=
  let now_tz := GetCurrentTimestamp in
  let now := timestamptz_timestamp now_tz in
  int64 (int64 (Z.quot now USECS_PER_SEC) * USECS_PER_SEC).

(** Lines 204-259. *)
Definition add_implicit_time_column (rel : Relation) : Exec unit :=
  match rel with
  | None => elog ERROR "add_implicit_time_column: invalid relation descriptor"
  | Some rd =>
      let table_oid := RelationGetRelid rd in
      do has <- table_has_implicit_time table_oid ;
      if has then
        elog DEBUG1 "add_implicit_time_column: table already has implicit time column"
      else
        let next_attnum := int16 (RelationGetNumberOfAttributes rd + 1) in
        do _ <- CatalogTupleInsert
                  (mkImplicitForm table_oid IMPLICIT_TIME_COLUMN_NAME next_attnum
                                  TIMESTAMPOID false) ;
        do _ <- CacheInvalidateRelcache rd ;
        elog DEBUG1 "add_implicit_time_column: added implicit time column"
  end.

(** Lines 266-330. *)
Definition remove_implicit_time_column (rel : Relation) : Exec unit :=
  match rel with
  | None => elog ERROR "remove_implicit_time_column: invalid relation descriptor"
  | Some rd =>
      let table_oid := RelationGetRelid rd in
      do has <- table_has_implicit_time table_oid ;
      if negb has then
        elog WARNING "remove_implicit_time_column: table has no implicit time column"
      else
        do found <- CatalogTupleDelete_loop
                      (key_relid_attname table_oid IMPLICIT_TIME_COLUMN_NAME) ;
        if found then
          do _ <- CacheInvalidateRelcache rd ;
          elog DEBUG1 "remove_implicit_time_column: removed implicit time column"
        else
          elog WARNING "remove_implicit_time_column: no implicit time column record found"
  end.

(** Lines 337-348.  [column_name] is a [const char *]; [None] is NULL. *)
Definition is_implicit_column (table_oid : Oid) (column_name : option string) : Exec bool :=
  match column_name with
  | None => ret false
  | Some name =>
      if String.eqb name IMPLICIT_TIME_COLUMN_NAME
      then table_has_implicit_time table_oid
      else ret false
  end.

(** Lines 355-360. *)
Definition validate_implicit_column_type (type_oid : Oid) : bool :=
  (type_oid =? TIMESTAMPOID) || (type_oid =? TIMESTAMPTZOID).

(** The two structs of pg_implicit_columns.h. *)
Record ImplicitColumn := mkImplicitColumn {
  column_name : string;
  column_type : Oid;
  attnum : AttrNumber;
  is_active : bool;
  created_time : Timestamp
}.

(** [implicit_columns] is a [List *] of [ImplicitColumn *]: a cell holds
    [None] when the pointer is NULL. *)
Record TableImplicitInfo := mkTableImplicitInfo {
  table_oid : Oid;
  has_implicit_time : bool;
  time_attnum : AttrNumber;
  implicit_columns : list (option ImplicitColumn);
  num_implicit_cols : Z             (* int *)
}.

(** Lines 459-475.  [now] is the value [GetCurrentTimestamp()] returns at
    this call. *)
Definition create_implicit_column (now : TimestampTz) (name : option string)
    (type_oid : Oid) (attnum : AttrNumber) : option ImplicitColumn :=
  match name with
  | None => None
  | Some n => Some (mkImplicitColumn n type_oid attnum true now)
  end.

(** [NameStr] yields the address of the name buffer, never NULL. *)
Definition NameStr (name : string) : option string := Some name.

(** Lines 400-421: the body of the collecting loop for one tuple. *)
Definition collect_implicit_column (now : TimestampTz)
    (info : TableImplicitInfo) (form : FormData_pg_implicit_columns) : TableImplicitInfo :=
  let col := create_implicit_column now (NameStr (ic_attname form))
                                    (ic_atttypid form) (ic_attnum form) in
  let columns := implicit_columns info ++ [col] in
  let num := int32 (num_implicit_cols info + 1) in
  if is_time_form form
  then mkTableImplicitInfo (table_oid info) true (ic_attnum form) columns num
  else mkTableImplicitInfo (table_oid info) (has_implicit_time info)
                           (time_attnum info) columns num.

(** The loop itself; [GetCurrentTimestamp k] is the clock reading at the
    [k]-th call made by the loop. *)
Fixpoint collect_loop (GetCurrentTimestamp : nat -> TimestampTz) (k : nat)
    (tuples : list FormData_pg_implicit_columns) (info : TableImplicitInfo)
    : TableImplicitInfo :=
  match tuples with
  | [] => info
  | form :: rest =>
      collect_loop GetCurrentTimestamp (S k) rest
                   (collect_implicit_column (GetCurrentTimestamp k) info form)
  end.

(** Lines 366-428.  The result is a pointer: [None] is NULL. *)
Definition get_table_implicit_info (GetCurrentTimestamp : nat -> TimestampTz)
    (table_oid : Oid) : Exec (option TableImplicitInfo) :=
  if negb (OidIsValid table_oid) then ret None
  else
    let info := mkTableImplicitInfo table_oid false InvalidAttrNumber [] 0 in
    do tuples <- systable_scan (key_relid table_oid) ;
    ret (Some (collect_loop GetCurrentTimestamp 0 tuples info)).

(** ** pg_implicit_compat.c *)

(** The fields of a [pg_attribute] tuple that this code reads. *)
Record FormData_pg_attribute := mkAttributeForm {
  attname : string;
  atttypid : Oid;
  attisdropped : bool
}.

(** The system caches consulted by the compatibility guard ([RELOID]
    keyed by relation identity, [ATTNAME] by relation identity and column
    name), and whether the namespace of a relation is a TOAST namespace
    ([relnamespace] is not among the fields of [FormData_pg_class] kept
    here).  All three are inputs. *)
Record SysCache := mkSysCache {
  RELOID : gmap Z FormData_pg_class;
  ATTNAME : gmap (Z * string) FormData_pg_attribute;
  in_toast_namespace : FormData_pg_class -> bool
}.

(** [IsSystemClass] and its two callees, after catalog/catalog.c of
    PostgreSQL 15, which is not among the sources: a relation is a system class when its identity is
    below [FirstUnpinnedObjectId] or when its [pg_class] tuple names a
    TOAST namespace.  [reltuple] is a pointer ([None] is NULL) and
    [IsToastClass] reads [reltuple->relnamespace] without testing it;
    C's [||] does not evaluate [IsToastClass] when the identity test
    succeeds. *)
Definition FirstUnpinnedObjectId : Oid := 12000.

Definition IsCatalogRelationOid (relid : Oid) : bool := relid <? FirstUnpinnedObjectId.

Definition IsToastClass (sys : SysCache) (reltuple : option FormData_pg_class) : Exec bool :=
  match reltuple with
  | None => null_dereference
  | Some classForm => ret (in_toast_namespace sys classForm)
  end.

Definition IsSystemClass (sys : SysCache) (relid : Oid)
    (reltuple : option FormData_pg_class) : Exec bool :=
  if IsCatalogRelationOid relid then ret true else IsToastClass sys reltuple.

Definition SearchSysCache1_RELOID (sys : SysCache) (table_oid : Oid)
    : option FormData_pg_class :=
  RELOID sys !! table_oid.

Definition SearchSysCache2_ATTNAME (sys : SysCache) (table_oid : Oid) (name : string)
    : option FormData_pg_attribute :=
  ATTNAME sys !! (table_oid, name).

(** Lines 394-398: [return IsSystemClass(table_oid, NULL);]. *)
Definition is_system_table (sys : SysCache) (table_oid : Oid) : Exec bool :=
  IsSystemClass sys table_oid None.

(** Lines 405-421. *)
Definition is_temporary_table (sys : SysCache) (table_oid : Oid) : bool :=
  match SearchSysCache1_RELOID sys table_oid with
  | Some classForm => Ascii.eqb (relpersistence classForm) RELPERSISTENCE_TEMP
  | None => false
  end.

(** Lines 133-157. *)
Definition check_column_name_conflicts (sys : SysCache) (table_oid : Oid) : Exec unit :=
  match SearchSysCache2_ATTNAME sys table_oid "time" with
  | Some attrForm =>
      if negb (attisdropped attrForm) && negb (atttypid attrForm =? TIMESTAMPOID)
      then elog WARNING "check_column_name_conflicts: user column named time exists"
      else ret tt
  | None => ret tt
  end.

(** Lines 52-105.  Both [goto cleanup] exits leave [is_compatible] at [true]. *)
Definition check_backward_compatibility (sys : SysCache) (table_oid : Oid) : Exec bool :=
  let is_compatible := true in
  if negb (OidIsValid table_oid) then
    do _ <- elog WARNING "check_backward_compatibility: invalid table_oid" ;
    ret false
  else
    match SearchSysCache1_RELOID sys table_oid with
    | None =>
        do _ <- elog WARNING "check_backward_compatibility: table does not exist" ;
        ret false
    | Some classForm =>
        if negb (Ascii.eqb (relkind classForm) RELKIND_RELATION) then
          do _ <- elog DEBUG1 "check_backward_compatibility: not an ordinary table" ;
          ret true
        else
          do system <- is_system_table sys table_oid ;
          if system then
            do _ <- elog DEBUG1 "check_backward_compatibility: system table" ;
            ret true
          else
            do _ <- (if is_temporary_table sys table_oid
                     then elog DEBUG1 "check_backward_compatibility: temporary table"
                     else ret tt) ;
            do _ <- check_column_name_conflicts sys table_oid ;
            ret is_compatible
    end.

(** [table_close] releases the lock and the reference; the backend state
    modelled here has neither. *)
Definition table_close (rel : Relation) : Exec unit := ret tt.

Section MigrateExistingTable.

(** [table_open] of access/table.c, which is not among the sources. *)
Variable table_open : Oid -> Exec Relation.

(** Lines 165-229. *)
Definition migrate_existing_table (sys : SysCache) (table_oid : Oid)
    (add_implicit_time : bool) : Exec bool :=
  do compatible <- check_backward_compatibility sys table_oid ;
  if negb compatible then
    do _ <- elog ERROR "migrate_existing_table: table is incompatible" ;
    ret false
  else
    do rel <- table_open table_oid ;
    do success <-
      PG_TRY
        (if add_implicit_time then
           do has <- table_has_implicit_time table_oid ;
           if negb has then
             do _ <- add_implicit_time_column rel ;
             do _ <- elog NOTICE "migrate_existing_table: added implicit time column" ;
             ret true
           else
             do _ <- elog WARNING "migrate_existing_table: already has implicit time column" ;
             ret true
         else
           do has <- table_has_implicit_time table_oid ;
           if has then
             do _ <- remove_implicit_time_column rel ;
             do _ <- elog NOTICE "migrate_existing_table: removed implicit time column" ;
             ret true
           else
             do _ <- elog WARNING "migrate_existing_table: has no implicit time column" ;
             ret true)
        (do _ <- elog ERROR "migrate_existing_table: error while migrating" ;
         ret false) ;
    do _ <- table_close rel ;
    ret success.

End MigrateExistingTable.

(** A [table_open] for concrete runs: the relation must be registered in
    the relation cache and be neither an index nor a composite type, as
    the server requires. *)
Definition table_open_syscache (sys : SysCache) (relationId : Oid) : Exec Relation :=
  match SearchSysCache1_RELOID sys relationId with
  | None =>
      do _ <- elog ERROR "table_open: could not open relation" ;
      ret None
  | Some classForm =>
      if Ascii.eqb (relkind classForm) RELKIND_INDEX
         || Ascii.eqb (relkind classForm) RELKIND_PARTITIONED_INDEX
         || Ascii.eqb (relkind classForm) RELKIND_COMPOSITE_TYPE
      then
        do _ <- elog ERROR "table_open: wrong object type" ;
        ret None
      else ret (Some (mkRelation relationId classForm))
  end.

(** ** execScan.c *)

Definition Datum := Z.

(** A tuple table slot holding a tuple: one cell per attribute of the
    slot's tuple descriptor, [None] for an SQL null.  A slot pointer for
    which [TupIsNull] holds is [None : option TupleTableSlot]. *)
Record TupleTableSlot := mkSlot {
  tts_values : list (option Datum)
}.

(** The scan node.  [am_tuples] is what the access method will return on
    its next calls, after which it returns NULL; the qualification and the
    projection are the compiled expressions of the plan node. *)
Record ScanState := mkScanState {
  ps_qual : option (TupleTableSlot -> bool);
  ps_ProjInfo : option (TupleTableSlot -> TupleTableSlot);
  ss_currentRelation : Relation;
  am_tuples : list TupleTableSlot
}.

Definition set_am_tuples (node : ScanState) (tuples : list TupleTableSlot) : ScanState :=
  mkScanState (ps_qual node) (ps_ProjInfo node) (ss_currentRelation node) tuples.

(** Lines 36-143, outside an EvalPlanQual recheck ([es_epq_active] is
    NULL): the next tuple of the access method. *)
Definition ExecScanFetch (node : ScanState) : option TupleTableSlot * ScanState :=
  match am_tuples node with
  | [] => (None, node)
  | slot :: rest => (Some slot, set_am_tuples node rest)
  end.

(** Lines 204-264: the [for (;;)] loop, by recursion on the tuples the
    access method still has to return. *)
Fixpoint ExecScan_loop (qual : option (TupleTableSlot -> bool))
    (projInfo : option (TupleTableSlot -> TupleTableSlot))
    (tuples : list TupleTableSlot) : option TupleTableSlot * list TupleTableSlot :=
  match tuples with
  | [] => (None, [])
  | slot :: rest =>
      if match qual with None => true | Some ExecQual => ExecQual slot end
      then (Some (match projInfo with
                  | Some ExecProject => ExecProject slot
                  | None => slot
                  end), rest)
      else ExecScan_loop qual projInfo rest
  end.

(** Lines 166-265. *)
Definition ExecScan (node : ScanState) : option TupleTableSlot * ScanState :=
  match ps_qual node, ps_ProjInfo node with
  | None, None => ExecScanFetch node
  | qual, projInfo =>
      let (slot, rest) := ExecScan_loop qual projInfo (am_tuples node) in
      (slot, set_am_tuples node rest)
  end.

Section ScanWithImplicitColumns.

(** [slot_getattr] of executor/tuptable.h, which is not among the sources. *)
Variable slot_getattr : TupleTableSlot -> AttrNumber -> Exec (Datum * bool).

(** Lines 365-421. *)
Definition ExecScanWithImplicitColumns (node : ScanState)
    : Exec (option TupleTableSlot * ScanState) :=
  let (slot, node') := ExecScan node in
  match slot with
  | None => ret (slot, node')
  | Some tuple =>
      match ss_currentRelation node with
      | None => ret (slot, node')
      | Some relation =>
          let table_oid := RelationGetRelid relation in
          do has <- table_has_implicit_time table_oid ;
          if has then
            do time_attnum <- get_implicit_time_attnum table_oid ;
            if AttributeNumberIsValid time_attnum then
              do time_datum <- slot_getattr tuple time_attnum ;
              ret (slot, node')
            else ret (slot, node')
          else ret (slot, node')
      end
  end.

End ScanWithImplicitColumns.

(** Lines 431-445. *)
Definition ExecSupportsImplicitColumns (node : ScanState) : Exec bool :=
  match ss_currentRelation node with
  | None => ret false
  | Some relation => table_has_implicit_time (RelationGetRelid relation)
  end.

(** ** The visibility filter *)

(** Modelled from the spec: the visibility filter is not among the
    sources; the hook of execScan.c hands the scanned row on as it is and
    never reads [ic_visible], and the expansion of [*] belongs to the
    parser.  "A known implicit attribute number with [visible = false]
    for that table" is the attribute number of one of the table's
    descriptors whose visible flag is off. *)
Definition hidden_attnums (heap : list FormData_pg_implicit_columns) (table_oid : Oid)
    : list AttrNumber :=
  map ic_attnum
    (List.filter (fun form => key_relid table_oid form && negb (ic_visible form)) heap).

(** Modelled from the spec: the attributes of a row with "the positional
    slot the value occupies in the physical tuple", counted from
    [first]. *)
Fixpoint numbered (first : AttrNumber) (cells : list (option Datum))
    : list (AttrNumber * option Datum) :=
  match cells with
  | [] => []
  | cell :: rest => (first, cell) :: numbered (first + 1) rest
  end.

(** Modelled from the spec: "given a row about to be returned to a
    wildcard-projection caller, suppress any attribute whose number
    equals a known implicit attribute number with [visible = false] for
    that table".  The result shape is the list of the attributes left,
    each with its number. *)
Definition wildcard_projection (heap : list FormData_pg_implicit_columns)
    (table_oid : Oid) (row : TupleTableSlot) : list (AttrNumber * option Datum) :=
  List.filter
    (fun attribute => negb (existsb (Z.eqb (fst attribute)) (hidden_attnums heap table_oid)))
    (numbered 1 (tts_values row)).

(** Modelled from the spec: an "explicit, non-wildcard reference"
    addresses an attribute of the row by its number; the filter "never
    affects what is physically stored", so the reference reads the row as
    it was before the filter. *)
Definition explicit_reference (row : TupleTableSlot) (attnum : AttrNumber)
    : option (option Datum) :=
  if attnum <=? 0 then None
  else nth_error (tts_values row) (Z.to_nat (attnum - 1)).

(** ** pg_implicit_compat.c: the per-operation checks *)

(** Lines 113-126. *)
Definition ensure_legacy_behavior (sys : SysCache) (table_oid : Oid) : Exec unit :=
  do has <- table_has_implicit_time table_oid ;
  if negb has then
    do _ <- elog DEBUG2 "ensure_legacy_behavior: table has no implicit column" ;
    check_column_name_conflicts sys table_oid
  else ret tt.

(** Lines 278-288. *)
Definition validate_insert_compatibility (table_oid : Oid) : Exec bool :=
  do has <- table_has_implicit_time table_oid ;
  if negb has then ret true
  else
    do _ <- elog DEBUG2 "validate_insert_compatibility: INSERT handles the implicit time column" ;
    ret true.

(** Lines 295-305. *)
Definition validate_update_compatibility (table_oid : Oid) : Exec bool :=
  do has <- table_has_implicit_time table_oid ;
  if negb has then ret true
  else
    do _ <- elog DEBUG2 "validate_update_compatibility: UPDATE refreshes the implicit time column" ;
    ret true.

(** Lines 312-318. *)
Definition validate_delete_compatibility (table_oid : Oid) : Exec bool :=
  do _ <- elog DEBUG2 "validate_delete_compatibility: DELETE is compatible" ;
  ret true.

(** Lines 325-335. *)
Definition validate_select_compatibility (table_oid : Oid) : Exec bool :=
  do has <- table_has_implicit_time table_oid ;
  if negb has then ret true
  else
    do _ <- elog DEBUG2 "validate_select_compatibility: SELECT handles implicit column visibility" ;
    ret true.

(** Lines 237-271.  [operation] is a [const char *]; [None] is NULL. *)
Definition validate_operation_compatibility (sys : SysCache) (table_oid : Oid)
    (operation : option string) : Exec bool :=
  let is_compatible := true in
  match operation with
  | None => ret false
  | Some op =>
      do _ <- ensure_legacy_behavior sys table_oid ;
      if String.eqb op "INSERT" then validate_insert_compatibility table_oid
      else if String.eqb op "UPDATE" then validate_update_compatibility table_oid
      else if String.eqb op "DELETE" then validate_delete_compatibility table_oid
      else if String.eqb op "SELECT" then validate_select_compatibility table_oid
      else ret is_compatible
  end.

(** ** implicit_time_error.c: the stack of error contexts *)

Definition MAX_ERROR_CONTEXT_DEPTH : Z := 10.

(** The file-level variable [implicit_error_context_stack]: an array of
    [MAX_ERROR_CONTEXT_DEPTH] string pointers ([None] is NULL) and the
    [int] number of cells in use. *)
Record ErrorContextStack := mkErrorContextStack {
  contexts : list (option string);
  depth : Z
}.

(** Its initializer [{ {NULL}, 0 }]. *)
Definition implicit_error_context_stack : ErrorContextStack :=
  mkErrorContextStack (replicate (Z.to_nat MAX_ERROR_CONTEXT_DEPTH) None) 0.

(** [implicit_time_error_context_push].  [context] is a [const char *];
    the cell written is [contexts[depth]]. *)
Definition implicit_time_error_context_push (context : option string)
    (stack : ErrorContextStack) : Exec ErrorContextStack :=
  if MAX_ERROR_CONTEXT_DEPTH <=? depth stack then
    do _ <- elog WARNING "implicit_time_error_context_push: context stack overflow" ;
    ret stack
  else
    match context with
    | Some c =>
        ret (mkErrorContextStack
               (<[Z.to_nat (depth stack) := Some c]> (contexts stack))
               (int32 (depth stack + 1)))
    | None => ret stack
    end.

(** [implicit_time_error_context_pop].  The cell read and cleared is
    [contexts[depth]] after the decrement. *)
Definition implicit_time_error_context_pop (stack : ErrorContextStack) : ErrorContextStack :=
  if 0 <? depth stack then
    let depth' := int32 (depth stack - 1) in
    match contexts stack !! Z.to_nat depth' with
    | Some (Some _) =>
        mkErrorContextStack (<[Z.to_nat depth' := None]> (contexts stack)) depth'
    | _ => mkErrorContextStack (contexts stack) depth'
    end
  else stack.

(** ** Vocabulary of the statements *)

(** The implicit-time descriptors recorded for a table. *)
Definition time_descriptors (table_oid : Oid)
    (heap : list FormData_pg_implicit_columns) : list FormData_pg_implicit_columns :=
  List.filter (key_relid_attname table_oid IMPLICIT_TIME_COLUMN_NAME) heap.

(** The descriptors of every other (table, name) pair. *)
Definition other_descriptors (table_oid : Oid)
    (heap : list FormData_pg_implicit_columns) : list FormData_pg_implicit_columns :=
  List.filter (fun form => negb (key_relid_attname table_oid IMPLICIT_TIME_COLUMN_NAME form)) heap.

(** The unique index on (ic_relid, ic_attname), read on the time column
    of one table. *)
Definition unique_time_descriptor (table_oid : Oid)
    (heap : list FormData_pg_implicit_columns) : Prop :=
  (length (time_descriptors table_oid heap) <= 1)%nat.

(** The key of the unique index [pg_implicit_columns_relid_attname_index],
    and what the index guarantees of the heap: no two tuples share a key. *)
Definition index_key (form : FormData_pg_implicit_columns) : Oid * string :=
  (ic_relid form, ic_attname form).

Definition unique_index (heap : list FormData_pg_implicit_columns) : Prop :=
  List.NoDup (map index_key heap).

(** The backend a run ends in, normally or not. *)
Definition final_backend {A} (o : Outcome A) : Backend :=
  match o with Done _ s => s | Aborted s => s | Crashed s => s end.

(** The log lines at one level. *)
Definition lines_at (lev : elevel) (log : list LogLine) : list LogLine :=
  List.filter (fun l => elevel_eqb (fst l) lev) log.

(** An empty backend, for concrete runs. *)
Definition fresh_backend : Backend := mkBackend [] [] [].

(** The snapshot of a table for which the scan returns nothing. *)
Definition empty_info (table_oid : Oid) : TableImplicitInfo :=
  mkTableImplicitInfo table_oid false InvalidAttrNumber [] 0.

(** What the collecting loop maintains, [done] being the tuples it has
    consumed so far. *)
Definition collected (done : list FormData_pg_implicit_columns)
    (info : TableImplicitInfo) : Prop :=
  num_implicit_cols info = Z.of_nat (length (implicit_columns info))
  /\ length (implicit_columns info) = length done
  /\ (forall col, In (Some col) (implicit_columns info) ->
        exists form, In form done
                     /\ column_name col = ic_attname form
                     /\ attnum col = ic_attnum form)
  /\ (forall form, In form done ->
        exists col, In (Some col) (implicit_columns info)
                    /\ column_name col = ic_attname form
                    /\ attnum col = ic_attnum form)
  /\ has_implicit_time info = existsb is_time_form done
  /\ (has_implicit_time info = true ->
        exists form, In form done /\ is_time_form form = true
                     /\ time_attnum info = ic_attnum form)
  /\ (has_implicit_time info = false -> time_attnum info = InvalidAttrNumber).

(** The backend after the two catalog lookups of the hook. *)
Definition after_lookups (s : Backend) : Backend :=
  write_log (DEBUG1, "get_implicit_time_attnum: attribute number")
    (write_log (DEBUG1, "table_has_implicit_time: has implicit time column") s).

(** A run that, at most, wrote log lines: catalog and invalidation queue
    are what they were. *)
Definition only_logged (s s' : Backend) : Prop :=
  implicit_rel s' = implicit_rel s
  /\ relcache_inval s' = relcache_inval s
  /\ exists lines, server_log s' = server_log s ++ lines.

(** The backend after some lines were written to the log and nothing
    else was done. *)
Definition logged (lines : list LogLine) (s : Backend) : Backend :=
  mkBackend (implicit_rel s) (server_log s ++ lines) (relcache_inval s).

(** The line [check_column_name_conflicts] writes. *)
Definition name_conflict_warning : LogLine :=
  (WARNING, "check_column_name_conflicts: user column named time exists").

(** A table has a live column named [time] whose type is not
    [TIMESTAMPOID]. *)
Definition has_name_conflict (sys : SysCache) (table_oid : Oid) : bool :=
  match SearchSysCache2_ATTNAME sys table_oid IMPLICIT_TIME_COLUMN_NAME with
  | Some attrForm => negb (attisdropped attrForm) && negb (atttypid attrForm =? TIMESTAMPOID)
  | None => false
  end.

(** A table identity is registered in the relation cache. *)
Definition relation_exists (sys : SysCache) (table_oid : Oid) : bool :=
  match SearchSysCache1_RELOID sys table_oid with Some _ => true | None => false end.

(** The tables for which line 85 of pg_implicit_compat.c gets as far as
    [IsToastClass], with the NULL it was given: the ordinary relations
    registered under a valid identity that is not below
    [FirstUnpinnedObjectId], that is, the ordinary tables of users. *)
Definition reaches_IsToastClass (sys : SysCache) (table_oid : Oid) : bool :=
  OidIsValid table_oid
  && match SearchSysCache1_RELOID sys table_oid with
     | Some classForm =>
         Ascii.eqb (relkind classForm) RELKIND_RELATION
         && negb (IsCatalogRelationOid table_oid)
     | None => false
     end.

(** A descriptor as the routines of this file write them: of a type the
    allow-list accepts, and hidden from wildcard projection. *)
Definition allowed_and_hidden (form : FormData_pg_implicit_columns) : bool :=
  validate_implicit_column_type (ic_atttypid form) && negb (ic_visible form).

(** The descriptor [add_implicit_time_column] writes for a relation. *)
Definition time_descriptor_of (rd : RelationData) : FormData_pg_implicit_columns :=
  mkImplicitForm (RelationGetRelid rd) IMPLICIT_TIME_COLUMN_NAME
    (int16 (RelationGetNumberOfAttributes rd + 1)) TIMESTAMPOID false.

(** The snapshot entry made of one catalog tuple at clock reading [now]. *)
Definition column_of (now : TimestampTz) (form : FormData_pg_implicit_columns)
    : option ImplicitColumn :=
  Some (mkImplicitColumn (ic_attname form) (ic_atttypid form) (ic_attnum form) true now).

(** The snapshot entries made of the tuples of a scan, the clock being
    read once per tuple, from its [k]-th reading on. *)
Fixpoint columns_of (GetCurrentTimestamp : nat -> TimestampTz) (k : nat)
    (tuples : list FormData_pg_implicit_columns) : list (option ImplicitColumn) :=
  match tuples with
  | [] => []
  | form :: rest =>
      column_of (GetCurrentTimestamp k) form :: columns_of GetCurrentTimestamp (S k) rest
  end.

(** The rows successive calls of [ExecScan] on a node return, until a
    call returns no tuple or [calls] calls have been made. *)
Fixpoint scan_rows (calls : nat) (node : ScanState) : list TupleTableSlot :=
  match calls with
  | O => []
  | S calls' =>
      match ExecScan node with
      | (Some tuple, node') => tuple :: scan_rows calls' node'
      | (None, _) => []
      end
  end.

(** The qualification and the projection of a node, as total functions. *)
Definition passes_qual (node : ScanState) (tuple : TupleTableSlot) : bool :=
  match ps_qual node with None => true | Some ExecQual => ExecQual tuple end.

Definition projected (node : ScanState) (tuple : TupleTableSlot) : TupleTableSlot :=
  match ps_ProjInfo node with Some ExecProject => ExecProject tuple | None => tuple end.

(** What the error-context stack satisfies between calls: the array has
    its declared size, the depth is within it, and every cell at or above
    the depth is NULL. *)
Definition stack_ok (stack : ErrorContextStack) : Prop :=
  length (contexts stack) = Z.to_nat MAX_ERROR_CONTEXT_DEPTH
  /\ 0 <= depth stack <= MAX_ERROR_CONTEXT_DEPTH
  /\ forall i, (Z.to_nat (depth stack) <= i)%nat ->
                (i < Z.to_nat MAX_ERROR_CONTEXT_DEPTH)%nat ->
                contexts stack !! i = Some None.

(** ** Concrete tables and backends used in the examples *)

(** The table [orders(id, amount)] of the specification's scenario. *)
Definition orders : RelationData :=
  mkRelation 16384 (mkClassForm "orders" RELKIND_RELATION "p"%char 2).

(** A backend whose catalog records the implicit time column of [orders]
    and one descriptor of another table. *)
Definition backend_with_orders : Backend :=
  mkBackend
    [mkImplicitForm 16384 "time" 3 TIMESTAMPOID false;
     mkImplicitForm 16390 "time" 5 TIMESTAMPOID false]
    [] [].

(** A backend whose catalog holds two descriptors of [orders], the one
    named [time] inserted before the one named [created]. *)
Definition backend_time_then_created : Backend :=
  mkBackend
    [mkImplicitForm 16384 "time" 3 TIMESTAMPOID false;
     mkImplicitForm 16384 "created" 4 TIMESTAMPOID false]
    [] [].

(** A sequential scan over [orders] whose tuples carry the implicit time
    value in a third cell, with neither qualification nor projection. *)
Definition orders_row : TupleTableSlot :=
  mkSlot [Some 1; Some 250; Some 846929856000000].

Definition orders_scan : ScanState :=
  mkScanState None None (Some orders) [orders_row].

(** A system-cache snapshot in which no relation is registered. *)
Definition empty_syscache : SysCache := mkSysCache ∅ ∅ (fun _ => false).

(** The system caches when [orders(id, amount)] is the only user table. *)
Definition syscache_orders : SysCache :=
  mkSysCache
    {[ 16384 := mkClassForm "orders" RELKIND_RELATION "p"%char 2 ]}
    ∅
    (fun _ => false).


(** The system caches with the catalog [pg_class] itself, whose identity
    is below [FirstUnpinnedObjectId]. *)
Definition syscache_pg_class : SysCache :=
  mkSysCache
    {[ 1259 := mkClassForm "pg_class" RELKIND_RELATION "p"%char 33 ]}
    ∅
    (fun _ => false).

(** The system caches when the only relation is a view of one column. *)
Definition recent_orders : FormData_pg_class :=
  mkClassForm "recent_orders" "v"%char "p"%char 1.

Definition syscache_view : SysCache :=
  mkSysCache {[ 16400 := recent_orders ]} ∅ (fun _ => false).

(** 2026-11-02 10:17:36.123456 UTC, in microseconds since 2000-01-01. *)
Definition clock_reading : TimestampTz := 846929856123456.

(** * Properties *)

(** ** Integer narrowing *)

Lemma int16_small (x : Z) : -32768 <= x <= 32767 -> int16 x = x.
Proof.
  intros Hx. unfold int16, wrap.
  change (2 ^ (16 - 1)) with 32768. change (2 ^ 16) with 65536.
  rewrite Z.mod_small; lia.
Qed.

Lemma int32_small (x : Z) : -2147483648 <= x <= 2147483647 -> int32 x = x.
Proof.
  intros Hx. unfold int32, wrap.
  change (2 ^ (32 - 1)) with 2147483648. change (2 ^ 32) with 4294967296.
  rewrite Z.mod_small; lia.
Qed.

Lemma int64_small (x : Z) : INT64_MIN <= x <= INT64_MAX -> int64 x = x.
Proof.
  unfold INT64_MIN, INT64_MAX. intros Hx. unfold int64, wrap.
  change (2 ^ (64 - 1)) with 9223372036854775808.
  change (2 ^ 64) with 18446744073709551616.
  rewrite Z.mod_small; lia.
Qed.

(** ** Scans of the catalog heap *)

(** The index returns the tuples that satisfy the keys, each once. *)
Lemma index_insert_Permutation (tuple : FormData_pg_implicit_columns)
    (sorted : list FormData_pg_implicit_columns) :
  Permutation (tuple :: sorted) (index_insert tuple sorted).
Proof.
  induction sorted as [|other rest IH]; simpl; [reflexivity|].
  destruct (index_le tuple other); [reflexivity|].
  rewrite perm_swap. apply perm_skip, IH.
Qed.

Lemma index_order_Permutation (tuples : list FormData_pg_implicit_columns) :
  Permutation tuples (index_order tuples).
Proof.
  induction tuples as [|tuple rest IH]; simpl; [reflexivity|].
  rewrite <- index_insert_Permutation. apply perm_skip, IH.
Qed.

Lemma index_order_In (form : FormData_pg_implicit_columns)
    (tuples : list FormData_pg_implicit_columns) :
  In form (index_order tuples) <-> In form tuples.
Proof.
  split; apply Permutation_in;
    [symmetry|]; apply index_order_Permutation.
Qed.

Lemma index_order_length (tuples : list FormData_pg_implicit_columns) :
  length (index_order tuples) = length tuples.
Proof. symmetry. apply Permutation_length, index_order_Permutation. Qed.

Lemma existsb_index_order (test : FormData_pg_implicit_columns -> bool)
    (tuples : list FormData_pg_implicit_columns) :
  existsb test (index_order tuples) = existsb test tuples.
Proof.
  apply eq_true_iff_eq. rewrite !existsb_exists.
  split; intros (form & Hin & Htest); exists form; split; try exact Htest;
    apply index_order_In; exact Hin.
Qed.

(** The index puts them in its order. *)
Lemma index_le_total (a b : FormData_pg_implicit_columns) :
  index_le a b = false -> index_le b a = true.
Proof.
  unfold index_le. intros H. apply orb_false_elim in H. destruct H as [Hlt Heq].
  apply Z.ltb_ge in Hlt.
  destruct (Z.eq_dec (ic_relid a) (ic_relid b)) as [Hsame|Hdiff].
  - rewrite Hsame, Z.eqb_refl in *. simpl in Heq.
    destruct (String.leb_total (ic_attname a) (ic_attname b)) as [H|H];
      [congruence|rewrite H; apply orb_true_r].
  - apply orb_true_iff. left. apply Z.ltb_lt. lia.
Qed.

Lemma index_insert_Sorted (tuple : FormData_pg_implicit_columns)
    (sorted : list FormData_pg_implicit_columns) :
  Sorted (fun a b => index_le a b = true) sorted ->
  Sorted (fun a b => index_le a b = true) (index_insert tuple sorted).
Proof.
  induction sorted as [|other rest IH]; intros Hs; simpl.
  - repeat constructor.
  - destruct (index_le tuple other) eqn:Hle.
    + constructor; [exact Hs|]. constructor. exact Hle.
    + inversion Hs as [|? ? Hrest Hhd]; subst.
      constructor; [apply IH, Hrest|].
      destruct rest as [|next rest']; simpl.
      * constructor. apply index_le_total, Hle.
      * destruct (index_le tuple next); constructor.
        -- apply index_le_total, Hle.
        -- inversion Hhd; assumption.
Qed.

Lemma index_order_Sorted (tuples : list FormData_pg_implicit_columns) :
  Sorted (fun a b => index_le a b = true) (index_order tuples).
Proof.
  induction tuples as [|tuple rest IH]; simpl; [constructor|].
  apply index_insert_Sorted, IH.
Qed.

Lemma filter_Permutation {A} (test : A -> bool) (l l' : list A) :
  Permutation l l' -> Permutation (List.filter test l) (List.filter test l').
Proof.
  induction 1 as [|x l l' _ IH|x y l|l l' l'' _ IH1 _ IH2]; simpl.
  - constructor.
  - destruct (test x); [apply perm_skip|]; exact IH.
  - destruct (test x), (test y); try reflexivity. apply perm_swap.
  - etransitivity; eassumption.
Qed.

Lemma String_leb_refl (name : string) : String.leb name name = true.
Proof.
  unfold String.leb.
  assert (H : String.compare name name = Eq); [|rewrite H; reflexivity].
  pose proof (String.compare_antisym name name) as Hanti.
  destruct (String.compare name name); [reflexivity|discriminate|discriminate].
Qed.

(** Tuples of one key are left in heap order. *)
Lemma index_order_same_key (table_oid : Oid) (name : string)
    (tuples : list FormData_pg_implicit_columns) :
  forallb (key_relid_attname table_oid name) tuples = true ->
  index_order tuples = tuples.
Proof.
  induction tuples as [|tuple rest IH]; simpl; [reflexivity|].
  intros Hall. apply andb_true_iff in Hall. destruct Hall as [Htuple Hrest].
  rewrite (IH Hrest). destruct rest as [|other rest']; [reflexivity|].
  simpl in Hrest. apply andb_true_iff in Hrest. destruct Hrest as [Hother _].
  unfold key_relid_attname in Htuple, Hother.
  apply andb_true_iff in Htuple. apply andb_true_iff in Hother.
  destruct Htuple as [Hr1 Hn1], Hother as [Hr2 Hn2].
  apply Z.eqb_eq in Hr1. apply Z.eqb_eq in Hr2.
  apply String.eqb_eq in Hn1. apply String.eqb_eq in Hn2.
  simpl. unfold index_le. rewrite Hr1, Hr2, Hn1, Hn2.
  rewrite Z.eqb_refl, String_leb_refl, orb_true_r. reflexivity.
Qed.

Lemma forallb_filter_same (keys : FormData_pg_implicit_columns -> bool)
    (heap : list FormData_pg_implicit_columns) :
  forallb keys (List.filter keys heap) = true.
Proof.
  induction heap as [|form heap IH]; simpl; [reflexivity|].
  destruct (keys form) eqn:E; simpl; [rewrite E|]; exact IH.
Qed.

Lemma index_order_time_descriptors (table_oid : Oid)
    (heap : list FormData_pg_implicit_columns) :
  index_order (List.filter (key_relid_attname table_oid IMPLICIT_TIME_COLUMN_NAME) heap)
  = List.filter (key_relid_attname table_oid IMPLICIT_TIME_COLUMN_NAME) heap.
Proof. apply (index_order_same_key table_oid IMPLICIT_TIME_COLUMN_NAME), forallb_filter_same. Qed.

Lemma scan_relid_then_name (table_oid : Oid) (heap : list FormData_pg_implicit_columns) :
  existsb is_time_form (List.filter (key_relid table_oid) heap)
  = existsb (key_relid_attname table_oid IMPLICIT_TIME_COLUMN_NAME) heap.
Proof.
  induction heap as [|form heap IH]; simpl; [reflexivity|].
  unfold key_relid at 1, key_relid_attname at 1.
  destruct (ic_relid form =? table_oid); simpl; rewrite IH; reflexivity.
Qed.

Lemma existsb_time_descriptors (table_oid : Oid) (heap : list FormData_pg_implicit_columns) :
  existsb (key_relid_attname table_oid IMPLICIT_TIME_COLUMN_NAME) heap = false
  <-> time_descriptors table_oid heap = [].
Proof.
  unfold time_descriptors.
  induction heap as [|form heap IH]; simpl; [tauto|].
  destruct (key_relid_attname table_oid IMPLICIT_TIME_COLUMN_NAME form); simpl.
  - split; discriminate.
  - exact IH.
Qed.

Lemma existsb_time_descriptors_true (table_oid : Oid) (heap : list FormData_pg_implicit_columns) :
  existsb (key_relid_attname table_oid IMPLICIT_TIME_COLUMN_NAME) heap = true
  <-> time_descriptors table_oid heap <> [].
Proof.
  rewrite <- existsb_time_descriptors.
  destruct (existsb _ heap); split; congruence.
Qed.

Lemma delete_scanned_spec (keys : FormData_pg_implicit_columns -> bool)
    (heap : list FormData_pg_implicit_columns) :
  delete_scanned keys heap
  = (List.filter (fun form => negb (keys form)) heap, existsb keys heap).
Proof.
  induction heap as [|form heap IH]; simpl; [reflexivity|].
  rewrite IH. destruct (keys form); reflexivity.
Qed.

Lemma time_descriptors_app (table_oid : Oid) (h1 h2 : list FormData_pg_implicit_columns) :
  time_descriptors table_oid (h1 ++ h2)
  = time_descriptors table_oid h1 ++ time_descriptors table_oid h2.
Proof. unfold time_descriptors. apply List.filter_app. Qed.

Lemma time_descriptors_other (table_oid : Oid) (heap : list FormData_pg_implicit_columns) :
  time_descriptors table_oid (other_descriptors table_oid heap) = [].
Proof.
  unfold time_descriptors, other_descriptors.
  induction heap as [|form heap IH]; simpl; [reflexivity|].
  destruct (key_relid_attname table_oid IMPLICIT_TIME_COLUMN_NAME form) eqn:E; simpl.
  - exact IH.
  - rewrite E. exact IH.
Qed.

Lemma other_descriptors_id (table_oid : Oid) (heap : list FormData_pg_implicit_columns) :
  time_descriptors table_oid heap = [] -> other_descriptors table_oid heap = heap.
Proof.
  unfold time_descriptors, other_descriptors.
  induction heap as [|form heap IH]; simpl; [reflexivity|].
  destruct (key_relid_attname table_oid IMPLICIT_TIME_COLUMN_NAME form); simpl.
  - discriminate.
  - intros H. rewrite (IH H). reflexivity.
Qed.

(** ** What each catalog routine does to the backend *)

Lemma table_has_implicit_time_valid (table_oid : Oid) (s : Backend) :
  OidIsValid table_oid = true ->
  let found := existsb (key_relid_attname table_oid IMPLICIT_TIME_COLUMN_NAME)
                       (implicit_rel s) in
  table_has_implicit_time table_oid s
  = Done found
      (write_log (DEBUG1,
                  if found then "table_has_implicit_time: has implicit time column"
                  else "table_has_implicit_time: has no implicit time column") s).
Proof.
  intros Hv. unfold table_has_implicit_time. rewrite Hv. simpl.
  unfold bind, systable_scan. rewrite existsb_index_order, scan_relid_then_name.
  reflexivity.
Qed.

Lemma table_has_implicit_time_invalid (table_oid : Oid) (s : Backend) :
  OidIsValid table_oid = false ->
  table_has_implicit_time table_oid s
  = Done false (write_log (DEBUG1, "table_has_implicit_time: invalid table_oid") s).
Proof.
  intros Hv. unfold table_has_implicit_time. rewrite Hv. reflexivity.
Qed.

(** In either case the routine only writes one [DEBUG1] line. *)
Lemma table_has_implicit_time_absent (table_oid : Oid) (s : Backend) :
  time_descriptors table_oid (implicit_rel s) = [] ->
  exists tag, table_has_implicit_time table_oid s = Done false (write_log (DEBUG1, tag) s).
Proof.
  intros Hnone. apply existsb_time_descriptors in Hnone.
  destruct (OidIsValid table_oid) eqn:Hv.
  - eexists. rewrite (table_has_implicit_time_valid _ _ Hv). simpl.
    rewrite Hnone. reflexivity.
  - eexists. apply table_has_implicit_time_invalid, Hv.
Qed.

Lemma add_implicit_time_column_inserts (rd : RelationData) (s : Backend) :
  time_descriptors (RelationGetRelid rd) (implicit_rel s) = [] ->
  exists tag,
    add_implicit_time_column (Some rd) s
    = Done tt
        (mkBackend
           (implicit_rel s
            ++ [mkImplicitForm (RelationGetRelid rd) IMPLICIT_TIME_COLUMN_NAME
                  (int16 (RelationGetNumberOfAttributes rd + 1)) TIMESTAMPOID false])
           (server_log s
            ++ [(DEBUG1, tag);
                (DEBUG1, "add_implicit_time_column: added implicit time column")])
           (relcache_inval s ++ [RelationGetRelid rd])).
Proof.
  intros Hnone.
  destruct (table_has_implicit_time_absent _ _ Hnone) as [tag Hhas].
  exists tag. unfold add_implicit_time_column, bind. rewrite Hhas.
  unfold CatalogTupleInsert. cbn [implicit_rel write_log ic_relid ic_attname].
  apply existsb_time_descriptors in Hnone. rewrite Hnone.
  unfold CacheInvalidateRelcache, elog, write_log. simpl.
  rewrite <- app_assoc. reflexivity.
Qed.

Lemma add_implicit_time_column_present (rd : RelationData) (s : Backend) :
  OidIsValid (RelationGetRelid rd) = true ->
  time_descriptors (RelationGetRelid rd) (implicit_rel s) <> [] ->
  add_implicit_time_column (Some rd) s
  = Done tt
      (mkBackend (implicit_rel s)
         (server_log s
          ++ [(DEBUG1, "table_has_implicit_time: has implicit time column");
              (DEBUG1, "add_implicit_time_column: table already has implicit time column")])
         (relcache_inval s)).
Proof.
  intros Hv Hsome. apply existsb_time_descriptors_true in Hsome.
  unfold add_implicit_time_column, bind.
  rewrite (table_has_implicit_time_valid _ _ Hv). simpl. rewrite Hsome.
  unfold elog, write_log. simpl. rewrite <- app_assoc. reflexivity.
Qed.

Lemma remove_implicit_time_column_present (rd : RelationData) (s : Backend) :
  OidIsValid (RelationGetRelid rd) = true ->
  time_descriptors (RelationGetRelid rd) (implicit_rel s) <> [] ->
  remove_implicit_time_column (Some rd) s
  = Done tt
      (mkBackend (other_descriptors (RelationGetRelid rd) (implicit_rel s))
         (server_log s
          ++ [(DEBUG1, "table_has_implicit_time: has implicit time column");
              (DEBUG1, "remove_implicit_time_column: removed implicit time column")])
         (relcache_inval s ++ [RelationGetRelid rd])).
Proof.
  intros Hv Hsome. apply existsb_time_descriptors_true in Hsome.
  unfold remove_implicit_time_column, bind.
  rewrite (table_has_implicit_time_valid _ _ Hv). simpl. rewrite Hsome. simpl.
  unfold CatalogTupleDelete_loop. cbn [implicit_rel write_log].
  rewrite delete_scanned_spec, Hsome.
  unfold CacheInvalidateRelcache, elog, write_log. simpl.
  rewrite <- app_assoc. reflexivity.
Qed.

Lemma remove_implicit_time_column_absent (rd : RelationData) (s : Backend) :
  time_descriptors (RelationGetRelid rd) (implicit_rel s) = [] ->
  exists tag,
    remove_implicit_time_column (Some rd) s
    = Done tt
        (mkBackend (implicit_rel s)
           (server_log s
            ++ [(DEBUG1, tag);
                (WARNING, "remove_implicit_time_column: table has no implicit time column")])
           (relcache_inval s)).
Proof.
  intros Hnone.
  destruct (table_has_implicit_time_absent _ _ Hnone) as [tag Hhas].
  exists tag. unfold remove_implicit_time_column, bind. rewrite Hhas. simpl.
  unfold elog, write_log. simpl. rewrite <- app_assoc. reflexivity.
Qed.

(** The descriptor [add_implicit_time_column] writes is one the scan keys
    of its own existence check select. *)
Lemma time_descriptors_snoc_time (table_oid : Oid) (a : AttrNumber) (t : Oid) (v : bool)
    (heap : list FormData_pg_implicit_columns) :
  time_descriptors table_oid
    (heap ++ [mkImplicitForm table_oid IMPLICIT_TIME_COLUMN_NAME a t v])
  = time_descriptors table_oid heap
    ++ [mkImplicitForm table_oid IMPLICIT_TIME_COLUMN_NAME a t v].
Proof.
  rewrite time_descriptors_app. f_equal.
  unfold time_descriptors, key_relid_attname. simpl. rewrite Z.eqb_refl. reflexivity.
Qed.

(** The unique index is preserved by [add_implicit_time_column]. *)
Lemma add_implicit_time_column_keeps_unique (rd : RelationData) (s s' : Backend) :
  OidIsValid (RelationGetRelid rd) = true ->
  unique_time_descriptor (RelationGetRelid rd) (implicit_rel s) ->
  add_implicit_time_column (Some rd) s = Done tt s' ->
  unique_time_descriptor (RelationGetRelid rd) (implicit_rel s').
Proof.
  intros Hv Huniq Hrun. unfold unique_time_descriptor in *.
  destruct (time_descriptors (RelationGetRelid rd) (implicit_rel s)) eqn:Hd.
  - destruct (add_implicit_time_column_inserts rd s Hd) as [tag Hins].
    rewrite Hins in Hrun. injection Hrun as <-. cbn [implicit_rel].
    rewrite time_descriptors_snoc_time, Hd. simpl. lia.
  - rewrite add_implicit_time_column_present in Hrun; [|exact Hv|congruence].
    injection Hrun as <-. cbn [implicit_rel]. rewrite Hd. exact Huniq.
Qed.

(** ** The unique index is an invariant of the catalog *)

Lemma key_relid_attname_index_key (form other : FormData_pg_implicit_columns) :
  key_relid_attname (ic_relid form) (ic_attname form) other = true
  <-> index_key other = index_key form.
Proof.
  unfold key_relid_attname, index_key. rewrite andb_true_iff, Z.eqb_eq, String.eqb_eq.
  split; [intros [-> ->]; reflexivity|intros [= -> ->]; split; reflexivity].
Qed.

Lemma existsb_key_false_fresh (form : FormData_pg_implicit_columns)
    (heap : list FormData_pg_implicit_columns) :
  existsb (key_relid_attname (ic_relid form) (ic_attname form)) heap = false ->
  ~ In (index_key form) (map index_key heap).
Proof.
  intros Hnone Hin. apply in_map_iff in Hin. destruct Hin as (other & Hkey & Hin).
  apply key_relid_attname_index_key in Hkey.
  assert (Hex : existsb (key_relid_attname (ic_relid form) (ic_attname form)) heap = true)
    by (apply existsb_exists; exists other; split; assumption).
  congruence.
Qed.

Lemma unique_index_filter (keep : FormData_pg_implicit_columns -> bool)
    (heap : list FormData_pg_implicit_columns) :
  unique_index heap -> unique_index (List.filter keep heap).
Proof.
  unfold unique_index. induction heap as [|form heap IH]; simpl; intros Hnd; [exact Hnd|].
  inversion Hnd as [|k ks Hfresh Hrest]; subst.
  destruct (keep form); simpl; [|exact (IH Hrest)].
  constructor; [|exact (IH Hrest)].
  intros Hin. apply Hfresh. apply in_map_iff in Hin.
  destruct Hin as (other & Hkey & Hin). apply filter_In in Hin.
  apply in_map_iff. exists other. split; [exact Hkey|apply Hin].
Qed.

Lemma CatalogTupleInsert_keeps_unique_index (form : FormData_pg_implicit_columns)
    (s : Backend) :
  unique_index (implicit_rel s) ->
  unique_index (implicit_rel (final_backend (CatalogTupleInsert form s))).
Proof.
  intros Hnd. unfold CatalogTupleInsert.
  destruct (existsb _ (implicit_rel s)) eqn:Hex; [exact Hnd|].
  cbn [final_backend implicit_rel]. unfold unique_index. rewrite map_app. simpl.
  apply (Permutation_NoDup (Permutation_cons_append _ _)).
  constructor; [apply existsb_key_false_fresh, Hex|exact Hnd].
Qed.

(** Whatever way [add_implicit_time_column] ends, the heap still
    satisfies the unique index. *)
Lemma add_implicit_time_column_keeps_unique_index (rel : Relation) (s : Backend) :
  unique_index (implicit_rel s) ->
  unique_index (implicit_rel (final_backend (add_implicit_time_column rel s))).
Proof.
  intros Hnd. destruct rel as [rd|]; [|exact Hnd].
  unfold add_implicit_time_column, bind.
  destruct (OidIsValid (RelationGetRelid rd)) eqn:Hv.
  - rewrite (table_has_implicit_time_valid _ _ Hv). simpl.
    destruct (existsb _ (implicit_rel s)) eqn:Hex; [exact Hnd|].
    set (form := mkImplicitForm _ _ _ _ _).
    set (s0 := write_log _ s).
    pose proof (CatalogTupleInsert_keeps_unique_index form s0 Hnd) as Hins.
    destruct (CatalogTupleInsert form s0) as [[] s1|s1|s1]; exact Hins.
  - rewrite (table_has_implicit_time_invalid _ _ Hv).
    set (form := mkImplicitForm _ _ _ _ _).
    set (s0 := write_log _ s).
    pose proof (CatalogTupleInsert_keeps_unique_index form s0 Hnd) as Hins.
    destruct (CatalogTupleInsert form s0) as [[] s1|s1|s1]; exact Hins.
Qed.

(** The same for [remove_implicit_time_column]. *)
Lemma remove_implicit_time_column_keeps_unique_index (rel : Relation) (s : Backend) :
  unique_index (implicit_rel s) ->
  unique_index (implicit_rel (final_backend (remove_implicit_time_column rel s))).
Proof.
  intros Hnd. destruct rel as [rd|]; [|exact Hnd].
  unfold remove_implicit_time_column, bind.
  assert (Hhas : exists b tag,
            table_has_implicit_time (RelationGetRelid rd) s
            = Done b (write_log (DEBUG1, tag) s)).
  { destruct (OidIsValid (RelationGetRelid rd)) eqn:Hv.
    - eexists. eexists. apply (table_has_implicit_time_valid _ _ Hv).
    - eexists. eexists. apply (table_has_implicit_time_invalid _ _ Hv). }
  destruct Hhas as (b & tag & ->). destruct b; simpl; [|exact Hnd].
  unfold CatalogTupleDelete_loop. cbn [implicit_rel write_log].
  rewrite delete_scanned_spec.
  destruct (existsb _ (implicit_rel s)); simpl; apply unique_index_filter, Hnd.
Qed.

(** The index allows a table at most one implicit-time descriptor. *)
Lemma unique_index_time_descriptor (table_oid : Oid)
    (heap : list FormData_pg_implicit_columns) :
  unique_index heap -> unique_time_descriptor table_oid heap.
Proof.
  unfold unique_index, unique_time_descriptor, time_descriptors.
  induction heap as [|form heap IH]; simpl; intros Hnd; [lia|].
  inversion Hnd as [|k ks Hfresh Hrest]; subst.
  destruct (key_relid_attname table_oid IMPLICIT_TIME_COLUMN_NAME form) eqn:Hkey;
    [|exact (IH Hrest)].
  simpl.
  destruct (List.filter (key_relid_attname table_oid IMPLICIT_TIME_COLUMN_NAME) heap)
    as [|other others] eqn:Hf; [simpl; lia|].
  exfalso. apply Hfresh.
  assert (Hin : In other (List.filter (key_relid_attname table_oid IMPLICIT_TIME_COLUMN_NAME) heap))
    by (rewrite Hf; left; reflexivity).
  apply filter_In in Hin. destruct Hin as [Hin Hother].
  apply in_map_iff. exists other. split; [|exact Hin].
  unfold key_relid_attname in Hkey, Hother.
  apply andb_true_iff in Hkey. apply andb_true_iff in Hother.
  destruct Hkey as [Hr1 Hn1], Hother as [Hr2 Hn2].
  apply Z.eqb_eq in Hr1. apply Z.eqb_eq in Hr2.
  apply String.eqb_eq in Hn1. apply String.eqb_eq in Hn2.
  unfold index_key. congruence.
Qed.

(** ** Claims about [add_implicit_time_column] *)

(** C1.  Adding the implicit time column to a table that does not have it
    yet succeeds and appends one descriptor whose attribute number is the
    table's declared attribute count plus 1; for a table with no declared
    column the attribute number is 1.  The declared count is an [int16]
    below its maximum, as every count a heap table can have is. *)
Theorem C1_add_assigns_declared_count_plus_one (rd : RelationData) (s : Backend) :
  time_descriptors (RelationGetRelid rd) (implicit_rel s) = [] ->
  0 <= RelationGetNumberOfAttributes rd < INT16_MAX ->
  exists s' form,
    add_implicit_time_column (Some rd) s = Done tt s'
    /\ implicit_rel s' = implicit_rel s ++ [form]
    /\ ic_relid form = RelationGetRelid rd
    /\ ic_attname form = IMPLICIT_TIME_COLUMN_NAME
    /\ ic_attnum form = RelationGetNumberOfAttributes rd + 1
    /\ (RelationGetNumberOfAttributes rd = 0 -> ic_attnum form = 1).
Proof.
  intros Hnone Hrange. unfold INT16_MAX in Hrange.
  destruct (add_implicit_time_column_inserts rd s Hnone) as [tag Hins].
  eexists. eexists. split; [exact Hins|]. cbn [implicit_rel ic_relid ic_attname ic_attnum].
  rewrite int16_small by lia.
  repeat split. intros H0. rewrite H0. reflexivity.
Qed.

Lemma C1_witness :
  time_descriptors (RelationGetRelid orders) (implicit_rel fresh_backend) = []
  /\ 0 <= RelationGetNumberOfAttributes orders < INT16_MAX
  /\ exists s' form,
       add_implicit_time_column (Some orders) fresh_backend = Done tt s'
       /\ implicit_rel s' = implicit_rel fresh_backend ++ [form]
       /\ ic_relid form = RelationGetRelid orders
       /\ ic_attname form = IMPLICIT_TIME_COLUMN_NAME
       /\ ic_attnum form = RelationGetNumberOfAttributes orders + 1
       /\ (RelationGetNumberOfAttributes orders = 0 -> ic_attnum form = 1).
Proof.
  split; [reflexivity|]. split; [vm_compute; split; [discriminate|reflexivity]|].
  apply (C1_add_assigns_declared_count_plus_one orders fresh_backend).
  - reflexivity.
  - vm_compute. split; [discriminate|reflexivity].
Defined.

(** C2.  On a table that already has its descriptor the call changes
    neither the catalog nor the invalidation queue, writes two [DEBUG1]
    lines and returns normally.  Hence two calls in a row both return
    normally, the second one is such a no-op, and the table is left with
    exactly one descriptor. *)
Theorem C2_add_is_idempotent (rd : RelationData) (s : Backend) :
  OidIsValid (RelationGetRelid rd) = true ->
  unique_time_descriptor (RelationGetRelid rd) (implicit_rel s) ->
  exists s1 s2,
    add_implicit_time_column (Some rd) s = Done tt s1
    /\ add_implicit_time_column (Some rd) s1 = Done tt s2
    /\ implicit_rel s2 = implicit_rel s1
    /\ relcache_inval s2 = relcache_inval s1
    /\ server_log s2
       = server_log s1
         ++ [(DEBUG1, "table_has_implicit_time: has implicit time column");
             (DEBUG1, "add_implicit_time_column: table already has implicit time column")]
    /\ length (time_descriptors (RelationGetRelid rd) (implicit_rel s2)) = 1%nat
    /\ (time_descriptors (RelationGetRelid rd) (implicit_rel s) <> [] ->
        implicit_rel s1 = implicit_rel s /\ relcache_inval s1 = relcache_inval s).
Proof.
  intros Hv Huniq.
  destruct (time_descriptors (RelationGetRelid rd) (implicit_rel s)) as [|d ds] eqn:Hd.
  - destruct (add_implicit_time_column_inserts rd s Hd) as [tag Hins].
    eexists. eexists. split; [exact Hins|].
    split.
    { apply add_implicit_time_column_present; [exact Hv|].
      cbn [implicit_rel]. rewrite time_descriptors_snoc_time, Hd. discriminate. }
    cbn [implicit_rel server_log relcache_inval].
    rewrite time_descriptors_snoc_time, Hd.
    repeat split; try reflexivity; congruence.
  - assert (Hne : time_descriptors (RelationGetRelid rd) (implicit_rel s) <> [])
      by (rewrite Hd; discriminate).
    eexists. eexists.
    split; [apply (add_implicit_time_column_present rd s Hv Hne)|].
    split.
    { apply add_implicit_time_column_present; [exact Hv|exact Hne]. }
    cbn [implicit_rel server_log relcache_inval].
    unfold unique_time_descriptor in Huniq. rewrite Hd in *. simpl in Huniq.
    repeat split; try reflexivity.
    destruct ds; simpl in *; [reflexivity|lia].
Qed.

Lemma C2_witness :
  OidIsValid (RelationGetRelid orders) = true
  /\ unique_time_descriptor (RelationGetRelid orders) (implicit_rel fresh_backend)
  /\ exists s1 s2,
       add_implicit_time_column (Some orders) fresh_backend = Done tt s1
       /\ add_implicit_time_column (Some orders) s1 = Done tt s2
       /\ implicit_rel s2 = implicit_rel s1
       /\ relcache_inval s2 = relcache_inval s1
       /\ server_log s2
          = server_log s1
            ++ [(DEBUG1, "table_has_implicit_time: has implicit time column");
                (DEBUG1, "add_implicit_time_column: table already has implicit time column")]
       /\ length (time_descriptors (RelationGetRelid orders) (implicit_rel s2)) = 1%nat
       /\ (time_descriptors (RelationGetRelid orders) (implicit_rel fresh_backend) <> [] ->
           implicit_rel s1 = implicit_rel fresh_backend
           /\ relcache_inval s1 = relcache_inval fresh_backend).
Proof.
  split; [reflexivity|]. split; [unfold unique_time_descriptor; simpl; lia|].
  apply (C2_add_is_idempotent orders fresh_backend).
  - reflexivity.
  - unfold unique_time_descriptor. simpl. lia.
Defined.

(** C3, as stated, fails: the descriptor that is inserted for [orders]
    does not carry the time-with-zone type. *)
Lemma C3_counterexample :
  exists s' form,
    add_implicit_time_column (Some orders) fresh_backend = Done tt s'
    /\ implicit_rel s' = implicit_rel fresh_backend ++ [form]
    /\ ic_atttypid form <> TIMESTAMPTZOID.
Proof.
  eexists. eexists. split; [vm_compute; reflexivity|].
  split; [reflexivity|]. vm_compute. discriminate.
Qed.

(** C3, amended.  When [add_implicit_time_column] inserts a descriptor,
    which it does for every table that has none yet, the descriptor's
    type is [TIMESTAMPOID], the timestamp type without time zone, which is
    not the time-with-zone type, and its visible flag is false. *)
Theorem C3_inserted_descriptor_is_timestamp_and_hidden (rd : RelationData) (s : Backend) :
  time_descriptors (RelationGetRelid rd) (implicit_rel s) = [] ->
  exists s' form,
    add_implicit_time_column (Some rd) s = Done tt s'
    /\ implicit_rel s' = implicit_rel s ++ [form]
    /\ ic_atttypid form = TIMESTAMPOID
    /\ TIMESTAMPOID <> TIMESTAMPTZOID
    /\ ic_visible form = false.
Proof.
  intros Hnone.
  destruct (add_implicit_time_column_inserts rd s Hnone) as [tag Hins].
  eexists. eexists. split; [exact Hins|]. cbn [implicit_rel ic_atttypid ic_visible].
  repeat split. discriminate.
Qed.

Lemma C3_witness :
  time_descriptors (RelationGetRelid orders) (implicit_rel fresh_backend) = []
  /\ exists s' form,
       add_implicit_time_column (Some orders) fresh_backend = Done tt s'
       /\ implicit_rel s' = implicit_rel fresh_backend ++ [form]
       /\ ic_atttypid form = TIMESTAMPOID
       /\ TIMESTAMPOID <> TIMESTAMPTZOID
       /\ ic_visible form = false.
Proof.
  split; [reflexivity|].
  apply (C3_inserted_descriptor_is_timestamp_and_hidden orders fresh_backend).
  reflexivity.
Defined.

(** ** Claims about [remove_implicit_time_column] *)

(** C4.  For a table with a valid identity the call returns normally and
    leaves the catalog without any implicit-time descriptor of the table,
    every other descriptor being kept.  When the table has none to begin
    with, the catalog and the invalidation queue are unchanged and the
    call ends on a [WARNING] line.  A second call therefore returns
    normally as well, changes nothing, logs that warning and no error. *)
Theorem C4_remove_deletes_all_and_tolerates_none (rd : RelationData) (s : Backend) :
  OidIsValid (RelationGetRelid rd) = true ->
  exists s1 s2 tag,
    remove_implicit_time_column (Some rd) s = Done tt s1
    /\ implicit_rel s1 = other_descriptors (RelationGetRelid rd) (implicit_rel s)
    /\ time_descriptors (RelationGetRelid rd) (implicit_rel s1) = []
    /\ (time_descriptors (RelationGetRelid rd) (implicit_rel s) = [] ->
        implicit_rel s1 = implicit_rel s
        /\ relcache_inval s1 = relcache_inval s
        /\ exists tag0,
             server_log s1
             = server_log s
               ++ [(DEBUG1, tag0);
                   (WARNING, "remove_implicit_time_column: table has no implicit time column")])
    /\ remove_implicit_time_column (Some rd) s1 = Done tt s2
    /\ implicit_rel s2 = implicit_rel s1
    /\ relcache_inval s2 = relcache_inval s1
    /\ time_descriptors (RelationGetRelid rd) (implicit_rel s2) = []
    /\ server_log s2
       = server_log s1
         ++ [(DEBUG1, tag);
             (WARNING, "remove_implicit_time_column: table has no implicit time column")].
Proof.
  intros Hv.
  assert (Hfirst : exists s1,
    remove_implicit_time_column (Some rd) s = Done tt s1
    /\ implicit_rel s1 = other_descriptors (RelationGetRelid rd) (implicit_rel s)
    /\ (time_descriptors (RelationGetRelid rd) (implicit_rel s) = [] ->
        implicit_rel s1 = implicit_rel s
        /\ relcache_inval s1 = relcache_inval s
        /\ exists tag0,
             server_log s1
             = server_log s
               ++ [(DEBUG1, tag0);
                   (WARNING, "remove_implicit_time_column: table has no implicit time column")])).
  { destruct (time_descriptors (RelationGetRelid rd) (implicit_rel s)) as [|d ds] eqn:Hd.
    - destruct (remove_implicit_time_column_absent rd s Hd) as [tag0 Hrun].
      eexists. split; [exact Hrun|]. cbn [implicit_rel server_log relcache_inval].
      split; [symmetry; apply other_descriptors_id, Hd|].
      intros _. repeat split. exists tag0. reflexivity.
    - eexists. split.
      + apply remove_implicit_time_column_present; [exact Hv|].
        rewrite Hd. discriminate.
      + split; [reflexivity|]. intros Habs. discriminate. }
  destruct Hfirst as (s1 & Hrun1 & Hheap1 & Hnoop1).
  assert (Hgone : time_descriptors (RelationGetRelid rd) (implicit_rel s1) = [])
    by (rewrite Hheap1; apply time_descriptors_other).
  destruct (remove_implicit_time_column_absent rd s1 Hgone) as [tag Hrun2].
  exists s1. eexists. exists tag.
  split; [exact Hrun1|]. split; [exact Hheap1|]. split; [exact Hgone|].
  split; [exact Hnoop1|]. split; [exact Hrun2|].
  cbn [implicit_rel server_log relcache_inval].
  repeat split. exact Hgone.
Qed.

Lemma C4_witness :
  OidIsValid (RelationGetRelid orders) = true
  /\ exists s1 s2 tag,
       remove_implicit_time_column (Some orders) backend_with_orders = Done tt s1
       /\ implicit_rel s1
          = other_descriptors (RelationGetRelid orders) (implicit_rel backend_with_orders)
       /\ time_descriptors (RelationGetRelid orders) (implicit_rel s1) = []
       /\ (time_descriptors (RelationGetRelid orders) (implicit_rel backend_with_orders) = [] ->
           implicit_rel s1 = implicit_rel backend_with_orders
           /\ relcache_inval s1 = relcache_inval backend_with_orders
           /\ exists tag0,
                server_log s1
                = server_log backend_with_orders
                  ++ [(DEBUG1, tag0);
                      (WARNING, "remove_implicit_time_column: table has no implicit time column")])
       /\ remove_implicit_time_column (Some orders) s1 = Done tt s2
       /\ implicit_rel s2 = implicit_rel s1
       /\ relcache_inval s2 = relcache_inval s1
       /\ time_descriptors (RelationGetRelid orders) (implicit_rel s2) = []
       /\ server_log s2
          = server_log s1
            ++ [(DEBUG1, tag);
                (WARNING, "remove_implicit_time_column: table has no implicit time column")].
Proof.
  split; [reflexivity|].
  apply (C4_remove_deletes_all_and_tolerates_none orders backend_with_orders).
  reflexivity.
Defined.

(** ** Claims about the compatibility guard *)

(** The guard answers [false] exactly when the table identity is invalid
    or names no table; it never touches the catalog. *)
Lemma check_backward_compatibility_refuses (sys : SysCache) (table_oid : Oid) (s : Backend) :
  OidIsValid table_oid = false \/ SearchSysCache1_RELOID sys table_oid = None ->
  exists tag,
    check_backward_compatibility sys table_oid s
    = Done false (write_log (WARNING, tag) s).
Proof.
  intros H. unfold check_backward_compatibility.
  destruct (OidIsValid table_oid) eqn:Hv; simpl.
  - destruct H as [H|H]; [discriminate|]. rewrite H. eexists. reflexivity.
  - eexists. reflexivity.
Qed.

(** [is_system_table] answers [true] below [FirstUnpinnedObjectId] and
    ends the process everywhere else. *)
Lemma is_system_table_run (sys : SysCache) (table_oid : Oid) (s : Backend) :
  is_system_table sys table_oid s
  = if IsCatalogRelationOid table_oid then Done true s else Crashed s.
Proof.
  unfold is_system_table, IsSystemClass.
  destruct (IsCatalogRelationOid table_oid); reflexivity.
Qed.

(** The guard on an ordinary relation: the name check of line 100 is
    behind the call of line 85, which either answers [true] or does not
    return. *)
Lemma check_backward_compatibility_ordinary (sys : SysCache) (table_oid : Oid)
    (classForm : FormData_pg_class) (s : Backend) :
  OidIsValid table_oid = true ->
  SearchSysCache1_RELOID sys table_oid = Some classForm ->
  relkind classForm = RELKIND_RELATION ->
  check_backward_compatibility sys table_oid s
  = if IsCatalogRelationOid table_oid
    then Done true (write_log (DEBUG1, "check_backward_compatibility: system table") s)
    else Crashed s.
Proof.
  intros Hv Hclass Hkind.
  unfold check_backward_compatibility. rewrite Hv, Hclass, Hkind. simpl.
  unfold bind. rewrite is_system_table_run.
  destruct (IsCatalogRelationOid table_oid); reflexivity.
Qed.

Lemma check_backward_compatibility_other_kind (sys : SysCache) (table_oid : Oid)
    (classForm : FormData_pg_class) (s : Backend) :
  OidIsValid table_oid = true ->
  SearchSysCache1_RELOID sys table_oid = Some classForm ->
  relkind classForm <> RELKIND_RELATION ->
  check_backward_compatibility sys table_oid s
  = Done true (write_log (DEBUG1, "check_backward_compatibility: not an ordinary table") s).
Proof.
  intros Hv Hclass Hkind. apply Ascii.eqb_neq in Hkind.
  unfold check_backward_compatibility. rewrite Hv, Hclass, Hkind. reflexivity.
Qed.

Lemma check_backward_compatibility_crashes (sys : SysCache) (table_oid : Oid) (s : Backend) :
  reaches_IsToastClass sys table_oid = true ->
  check_backward_compatibility sys table_oid s = Crashed s.
Proof.
  unfold reaches_IsToastClass. intros H.
  apply andb_true_iff in H. destruct H as [Hv H].
  destruct (SearchSysCache1_RELOID sys table_oid) as [classForm|] eqn:Hclass;
    [|discriminate].
  apply andb_true_iff in H. destruct H as [Hkind Hoid].
  apply Ascii.eqb_eq in Hkind. apply negb_true_iff in Hoid.
  rewrite (check_backward_compatibility_ordinary _ _ _ _ Hv Hclass Hkind), Hoid.
  reflexivity.
Qed.

(** Everywhere else the guard returns after writing one line, which is
    not the warning of the name check. *)
Lemma check_backward_compatibility_returns (sys : SysCache) (table_oid : Oid) (s : Backend) :
  reaches_IsToastClass sys table_oid = false ->
  exists line,
    check_backward_compatibility sys table_oid s
    = Done (OidIsValid table_oid && relation_exists sys table_oid) (logged [line] s)
    /\ line <> name_conflict_warning.
Proof.
  unfold reaches_IsToastClass, relation_exists. intros H.
  destruct (OidIsValid table_oid) eqn:Hv.
  2:{ unfold check_backward_compatibility. rewrite Hv. simpl.
      eexists. split; [reflexivity|discriminate]. }
  destruct (SearchSysCache1_RELOID sys table_oid) as [classForm|] eqn:Hclass.
  2:{ unfold check_backward_compatibility. rewrite Hv, Hclass. simpl.
      eexists. split; [reflexivity|discriminate]. }
  simpl in H. destruct (Ascii.eqb (relkind classForm) RELKIND_RELATION) eqn:Hkind.
  - apply Ascii.eqb_eq in Hkind. simpl in H. apply negb_false_iff in H.
    rewrite (check_backward_compatibility_ordinary _ _ _ _ Hv Hclass Hkind), H.
    eexists. split; [reflexivity|discriminate].
  - apply Ascii.eqb_neq in Hkind.
    rewrite (check_backward_compatibility_other_kind _ _ _ _ Hv Hclass Hkind).
    eexists. split; [reflexivity|discriminate].
Qed.

(** The two ways a call of the guard can go. *)
Lemma check_backward_compatibility_logged (sys : SysCache) (table_oid : Oid) (s : Backend) :
  check_backward_compatibility sys table_oid s = Crashed s
  \/ exists lines,
       check_backward_compatibility sys table_oid s
       = Done (OidIsValid table_oid && relation_exists sys table_oid) (logged lines s).
Proof.
  destruct (reaches_IsToastClass sys table_oid) eqn:H.
  - left. apply check_backward_compatibility_crashes, H.
  - right. destruct (check_backward_compatibility_returns sys table_oid s H) as (line & -> & _).
    eexists. reflexivity.
Qed.

Lemma check_backward_compatibility_false_inv (sys : SysCache) (table_oid : Oid)
    (s s' : Backend) :
  check_backward_compatibility sys table_oid s = Done false s' ->
  OidIsValid table_oid = false \/ SearchSysCache1_RELOID sys table_oid = None.
Proof.
  destruct (check_backward_compatibility_logged sys table_oid s) as [->|[lines ->]];
    [discriminate|].
  unfold relation_exists.
  destruct (OidIsValid table_oid); [|left; reflexivity].
  destruct (SearchSysCache1_RELOID sys table_oid); [discriminate|right; reflexivity].
Qed.

(** C5.  When the table identity is invalid or names no table, the
    compatibility check answers [false] and [migrate_existing_table]
    then leaves through [elog(ERROR)]: at that point the catalog and the
    invalidation queue are what they were on entry, for the add direction
    and for the remove direction alike. *)
Theorem C5_migrate_aborts_without_catalog_change (table_open : Oid -> Exec Relation)
    (sys : SysCache) (table_oid : Oid) (add_implicit_time : bool) (s : Backend) :
  OidIsValid table_oid = false \/ SearchSysCache1_RELOID sys table_oid = None ->
  exists s0 s',
    check_backward_compatibility sys table_oid s = Done false s0
    /\ migrate_existing_table table_open sys table_oid add_implicit_time s = Aborted s'
    /\ implicit_rel s' = implicit_rel s
    /\ relcache_inval s' = relcache_inval s
    /\ server_log s'
       = server_log s0 ++ [(ERROR, "migrate_existing_table: table is incompatible")].
Proof.
  intros Hfail.
  destruct (check_backward_compatibility_refuses sys table_oid s Hfail) as [tag Hchk].
  eexists. eexists. split; [exact Hchk|].
  unfold migrate_existing_table, bind. rewrite Hchk. simpl.
  repeat split.
Qed.

Lemma C5_witness :
  (OidIsValid 16384 = false \/ SearchSysCache1_RELOID empty_syscache 16384 = None)
  /\ exists s0 s',
       check_backward_compatibility empty_syscache 16384 backend_with_orders = Done false s0
       /\ migrate_existing_table (table_open_syscache empty_syscache) empty_syscache
            16384 false backend_with_orders = Aborted s'
       /\ implicit_rel s' = implicit_rel backend_with_orders
       /\ relcache_inval s' = relcache_inval backend_with_orders
       /\ server_log s'
          = server_log s0 ++ [(ERROR, "migrate_existing_table: table is incompatible")].
Proof.
  split; [right; reflexivity|].
  apply (C5_migrate_aborts_without_catalog_change (table_open_syscache empty_syscache)
           empty_syscache 16384 false backend_with_orders).
  right. reflexivity.
Defined.




(** ** Claim about [get_current_timestamp] *)

(** C's quotient goes toward zero: the multiple of [b] it yields lies
    between zero and [a], less than [b] away from [a]. *)
Lemma quot_toward_zero (a b : Z) :
  0 < b ->
  (0 <= a -> 0 <= b * (a ÷ b) <= a /\ a < b * (a ÷ b) + b)
  /\ (a <= 0 -> a <= b * (a ÷ b) <= 0 /\ b * (a ÷ b) - b < a).
Proof.
  intros Hb. pose proof (Z.quot_rem' a b) as Hqr. split; intros Ha.
  - pose proof (Z.rem_bound_pos_pos a b Hb Ha).
    pose proof (Z.quot_pos a b Ha Hb). nia.
  - pose proof (Z.rem_bound_pos_neg a b Hb Ha).
    assert (a ÷ b <= 0).
    { rewrite <- (Z.opp_involutive a), Z.quot_opp_l by lia.
      pose proof (Z.quot_pos (- a) b ltac:(lia) Hb). lia. }
    nia.
Qed.

(** C7.  Whatever the clock reads and whatever the session's time zone
    conversion yields (an [int64]), the result is an exact multiple of
    [USECS_PER_SEC]: it is the converted time minus C's remainder of it by
    [USECS_PER_SEC], the sub-second component, so its magnitude never
    grows and it is less than one second away from the converted time.
    For a time at or after the epoch it is the last whole second at or
    before it, never the next one. *)
Theorem C7_timestamp_truncated_to_whole_seconds (GetCurrentTimestamp : TimestampTz)
    (timestamptz_timestamp : TimestampTz -> Timestamp) :
  INT64_MIN <= timestamptz_timestamp GetCurrentTimestamp <= INT64_MAX ->
  get_current_timestamp GetCurrentTimestamp timestamptz_timestamp
  = (timestamptz_timestamp GetCurrentTimestamp ÷ USECS_PER_SEC) * USECS_PER_SEC
  /\ get_current_timestamp GetCurrentTimestamp timestamptz_timestamp mod USECS_PER_SEC = 0
  /\ get_current_timestamp GetCurrentTimestamp timestamptz_timestamp
     = timestamptz_timestamp GetCurrentTimestamp
       - Z.rem (timestamptz_timestamp GetCurrentTimestamp) USECS_PER_SEC
  /\ Z.abs (get_current_timestamp GetCurrentTimestamp timestamptz_timestamp)
     <= Z.abs (timestamptz_timestamp GetCurrentTimestamp)
  /\ Z.abs (timestamptz_timestamp GetCurrentTimestamp
            - get_current_timestamp GetCurrentTimestamp timestamptz_timestamp)
     < USECS_PER_SEC
  /\ (0 <= timestamptz_timestamp GetCurrentTimestamp ->
      get_current_timestamp GetCurrentTimestamp timestamptz_timestamp
      <= timestamptz_timestamp GetCurrentTimestamp
      < get_current_timestamp GetCurrentTimestamp timestamptz_timestamp + USECS_PER_SEC).
Proof.
  unfold get_current_timestamp.
  generalize (timestamptz_timestamp GetCurrentTimestamp). clear.
  intros now Hrange. unfold INT64_MIN, INT64_MAX, USECS_PER_SEC in *.
  pose proof (Z.quot_rem' now 1000000) as Hqr.
  destruct (quot_toward_zero now 1000000 ltac:(lia)) as [Hpos Hneg].
  assert (Hq : int64 (now ÷ 1000000) = now ÷ 1000000).
  { apply int64_small. unfold INT64_MIN, INT64_MAX.
    destruct (Z_le_gt_dec 0 now) as [H0|H0]; [specialize (Hpos H0)|specialize (Hneg ltac:(lia))]; lia. }
  rewrite Hq.
  assert (Hr : int64 (now ÷ 1000000 * 1000000) = now ÷ 1000000 * 1000000).
  { apply int64_small. unfold INT64_MIN, INT64_MAX.
    destruct (Z_le_gt_dec 0 now) as [H0|H0]; [specialize (Hpos H0)|specialize (Hneg ltac:(lia))]; lia. }
  rewrite Hr.
  split; [reflexivity|]. split; [apply Z_mod_mult|]. split; [lia|].
  destruct (Z_le_gt_dec 0 now) as [H0|H0];
    [specialize (Hpos H0)|specialize (Hneg ltac:(lia))]; lia.
Qed.

Lemma C7_witness :
  INT64_MIN <= clock_reading <= INT64_MAX
  /\ get_current_timestamp clock_reading (fun t => t) = 846929856000000.
Proof.
  split; [vm_compute; split; discriminate|].
  pose proof (C7_timestamp_truncated_to_whole_seconds clock_reading (fun t => t))
    as Hspec.
  cbv beta in Hspec.
  destruct Hspec as [Hval _]; [vm_compute; split; discriminate|].
  rewrite Hval. reflexivity.
Defined.

(** Before the epoch the sub-second component is negative, and discarding
    it moves the value toward the epoch. *)
Example get_current_timestamp_before_epoch :
  get_current_timestamp (-1500000) (fun t => t) = -1000000.
Proof. reflexivity. Qed.

(** ** Claims about [get_table_implicit_info] *)

Lemma collected_empty (table_oid : Oid) : collected [] (empty_info table_oid).
Proof.
  unfold collected, empty_info. simpl.
  repeat split; try reflexivity; try (intros ? []); discriminate.
Qed.

Lemma collected_step (now : TimestampTz) (done : list FormData_pg_implicit_columns)
    (info : TableImplicitInfo) (form : FormData_pg_implicit_columns) :
  collected done info ->
  Z.of_nat (length done) < INT32_MAX ->
  collected (done ++ [form]) (collect_implicit_column now info form).
Proof.
  intros (Hnum & Hlen & Hcols & Hforms & Hhas & Htrue & Hfalse) Hbound.
  unfold INT32_MAX in Hbound.
  assert (Hcommon :
    forall has att,
      let info' := mkTableImplicitInfo (table_oid info) has att
                     (implicit_columns info
                      ++ [create_implicit_column now (NameStr (ic_attname form))
                            (ic_atttypid form) (ic_attnum form)])
                     (int32 (num_implicit_cols info + 1)) in
      num_implicit_cols info' = Z.of_nat (length (implicit_columns info'))
      /\ length (implicit_columns info') = length (done ++ [form])
      /\ (forall col, In (Some col) (implicit_columns info') ->
            exists f, In f (done ++ [form])
                      /\ column_name col = ic_attname f /\ attnum col = ic_attnum f)
      /\ (forall f, In f (done ++ [form]) ->
            exists col, In (Some col) (implicit_columns info')
                        /\ column_name col = ic_attname f /\ attnum col = ic_attnum f)).
  { intros has att. cbn [num_implicit_cols implicit_columns]. simpl.
    rewrite !length_app. simpl. rewrite Hnum, Hlen.
    split; [rewrite int32_small by lia; lia|]. split; [reflexivity|]. split.
    - intros col Hin. apply in_app_or in Hin. destruct Hin as [Hin|[Heq|[]]].
      + destruct (Hcols col Hin) as (f & Hf & Hn & Ha).
        exists f. split; [apply in_or_app; left; exact Hf|]. split; assumption.
      + injection Heq as <-. exists form.
        split; [apply in_or_app; right; left; reflexivity|]. split; reflexivity.
    - intros f Hin. apply in_app_or in Hin. destruct Hin as [Hin|[Heq|[]]].
      + destruct (Hforms f Hin) as (col & Hc & Hn & Ha).
        exists col. split; [apply in_or_app; left; exact Hc|]. split; assumption.
      + subst f. eexists. split; [apply in_or_app; right; left; reflexivity|].
        split; reflexivity. }
  unfold collect_implicit_column, collected.
  destruct (is_time_form form) eqn:Htime.
  - destruct (Hcommon true (ic_attnum form)) as (H1 & H2 & H3 & H4).
    split; [exact H1|]. split; [exact H2|]. split; [exact H3|]. split; [exact H4|].
    cbn [has_implicit_time time_attnum]. rewrite existsb_app. simpl. rewrite Htime.
    split; [rewrite orb_true_r; reflexivity|]. split; [|discriminate].
    intros _. exists form. split; [apply in_or_app; right; left; reflexivity|].
    split; [exact Htime|reflexivity].
  - destruct (Hcommon (has_implicit_time info) (time_attnum info)) as (H1 & H2 & H3 & H4).
    split; [exact H1|]. split; [exact H2|]. split; [exact H3|]. split; [exact H4|].
    cbn [has_implicit_time time_attnum]. rewrite existsb_app. simpl. rewrite Htime.
    split; [rewrite !orb_false_r; exact Hhas|]. split; [|exact Hfalse].
    intros Ht. destruct (Htrue Ht) as (f & Hf & Hft & Hfa).
    exists f. split; [apply in_or_app; left; exact Hf|]. split; assumption.
Qed.

Lemma collected_loop (GetCurrentTimestamp : nat -> TimestampTz)
    (tuples : list FormData_pg_implicit_columns) :
  forall (k : nat) (done : list FormData_pg_implicit_columns) (info : TableImplicitInfo),
    collected done info ->
    Z.of_nat (length (done ++ tuples)) <= INT32_MAX ->
    collected (done ++ tuples) (collect_loop GetCurrentTimestamp k tuples info).
Proof.
  induction tuples as [|form rest IH]; intros k done info Hinv Hbound; simpl.
  - rewrite app_nil_r. exact Hinv.
  - replace (done ++ form :: rest) with ((done ++ [form]) ++ rest) in *
      by (rewrite <- app_assoc; reflexivity).
    apply IH; [|exact Hbound].
    apply collected_step; [exact Hinv|].
    rewrite !length_app in Hbound. simpl in Hbound. lia.
Qed.

Lemma filter_length_le {A} (f : A -> bool) (l : list A) :
  (length (List.filter f l) <= length l)%nat.
Proof.
  induction l as [|x l IH]; simpl; [lia|]. destruct (f x); simpl; lia.
Qed.

(** Under the unique index, two time descriptors that a scan of one table
    returns are the same tuple. *)
Lemma unique_time_descriptor_same (table_oid : Oid)
    (heap : list FormData_pg_implicit_columns) (f1 f2 : FormData_pg_implicit_columns) :
  unique_time_descriptor table_oid heap ->
  In f1 (List.filter (key_relid table_oid) heap) -> is_time_form f1 = true ->
  In f2 (List.filter (key_relid table_oid) heap) -> is_time_form f2 = true ->
  f1 = f2.
Proof.
  unfold unique_time_descriptor. intros Huniq Hin1 Ht1 Hin2 Ht2.
  assert (Hmem : forall f, In f (List.filter (key_relid table_oid) heap) ->
                           is_time_form f = true ->
                           In f (time_descriptors table_oid heap)).
  { intros f Hin Ht. apply filter_In in Hin. destruct Hin as [Hin Hrel].
    unfold time_descriptors. apply filter_In. split; [exact Hin|].
    unfold key_relid in Hrel. unfold key_relid_attname. rewrite Hrel. exact Ht. }
  apply Hmem in Hin1; [|exact Ht1]. apply Hmem in Hin2; [|exact Ht2].
  destruct (time_descriptors table_oid heap) as [|d [|d' ds]]; simpl in *.
  - contradiction.
  - destruct Hin1 as [<-|[]], Hin2 as [<-|[]]. reflexivity.
  - lia.
Qed.

Lemma collect_loop_length (GetCurrentTimestamp : nat -> TimestampTz)
    (tuples : list FormData_pg_implicit_columns) :
  forall (k : nat) (info : TableImplicitInfo),
    length (implicit_columns (collect_loop GetCurrentTimestamp k tuples info))
    = (length (implicit_columns info) + length tuples)%nat.
Proof.
  induction tuples as [|form rest IH]; intros k info; simpl; [lia|].
  rewrite IH. unfold collect_implicit_column.
  destruct (is_time_form form); cbn [implicit_columns]; rewrite length_app; simpl; lia.
Qed.

Lemma get_table_implicit_info_valid (GetCurrentTimestamp : nat -> TimestampTz)
    (table_oid : Oid) (s : Backend) :
  OidIsValid table_oid = true ->
  get_table_implicit_info GetCurrentTimestamp table_oid s
  = Done (Some (collect_loop GetCurrentTimestamp 0
                  (index_order (List.filter (key_relid table_oid) (implicit_rel s)))
                  (empty_info table_oid))) s.
Proof.
  intros Hv. unfold get_table_implicit_info. rewrite Hv. reflexivity.
Qed.

(** C9.  For the invalid table identity the result is the null pointer,
    and the null pointer is returned for no other identity.  The empty
    snapshot (no column, count 0, no time column, invalid attribute
    number) is returned exactly for a valid identity for which the catalog
    holds no descriptor.  The backend is left as it was. *)
Theorem C9_invalid_oid_yields_null (GetCurrentTimestamp : nat -> TimestampTz)
    (table_oid : Oid) (s : Backend) :
  get_table_implicit_info GetCurrentTimestamp InvalidOid s = Done None s
  /\ (OidIsValid table_oid = false
      <-> get_table_implicit_info GetCurrentTimestamp table_oid s = Done None s)
  /\ (OidIsValid table_oid = true /\ List.filter (key_relid table_oid) (implicit_rel s) = []
      <-> get_table_implicit_info GetCurrentTimestamp table_oid s
          = Done (Some (empty_info table_oid)) s).
Proof.
  split; [reflexivity|]. split.
  - split.
    + intros Hv. unfold get_table_implicit_info. rewrite Hv. reflexivity.
    + destruct (OidIsValid table_oid) eqn:Hv; [|reflexivity].
      rewrite (get_table_implicit_info_valid _ _ _ Hv). discriminate.
  - split.
    + intros [Hv Hnone]. rewrite (get_table_implicit_info_valid _ _ _ Hv), Hnone.
      reflexivity.
    + destruct (OidIsValid table_oid) eqn:Hv.
      * rewrite (get_table_implicit_info_valid _ _ _ Hv). intros Heq.
        split; [reflexivity|]. injection Heq as Heq.
        apply (f_equal (fun i => length (implicit_columns i))) in Heq.
        rewrite collect_loop_length, index_order_length in Heq. simpl in Heq.
        destruct (List.filter (key_relid table_oid) (implicit_rel s));
          [reflexivity|discriminate].
      * unfold get_table_implicit_info. rewrite Hv. discriminate.
Qed.

(** C10.  For a valid table identity the snapshot exists and is
    consistent: the count is the length of the column list; the time flag
    is set exactly when the list has a column named [time]; when it is
    set, [time_attnum] is the attribute number of a column of that name in
    the list, and of every such column when the unique index holds; when
    it is not set, [time_attnum] is [InvalidAttrNumber].  The catalog is
    assumed to hold at most [INT32_MAX] tuples, the range of the [int]
    counter. *)
Theorem C10_snapshot_is_consistent (GetCurrentTimestamp : nat -> TimestampTz)
    (table_oid : Oid) (s : Backend) :
  OidIsValid table_oid = true ->
  Z.of_nat (length (implicit_rel s)) <= INT32_MAX ->
  exists info,
    get_table_implicit_info GetCurrentTimestamp table_oid s = Done (Some info) s
    /\ num_implicit_cols info = Z.of_nat (length (implicit_columns info))
    /\ (has_implicit_time info = true
        <-> exists col, In (Some col) (implicit_columns info)
                        /\ column_name col = IMPLICIT_TIME_COLUMN_NAME)
    /\ (has_implicit_time info = true ->
        exists col, In (Some col) (implicit_columns info)
                    /\ column_name col = IMPLICIT_TIME_COLUMN_NAME
                    /\ time_attnum info = attnum col)
    /\ (unique_time_descriptor table_oid (implicit_rel s) ->
        forall col, In (Some col) (implicit_columns info) ->
                    column_name col = IMPLICIT_TIME_COLUMN_NAME ->
                    has_implicit_time info = true /\ time_attnum info = attnum col)
    /\ (has_implicit_time info = false -> time_attnum info = InvalidAttrNumber).
Proof.
  intros Hv Hbound.
  eexists. split; [apply get_table_implicit_info_valid, Hv|].
  set (tuples := index_order (List.filter (key_relid table_oid) (implicit_rel s))).
  assert (Hinv : collected tuples
                   (collect_loop GetCurrentTimestamp 0 tuples (empty_info table_oid))).
  { apply (collected_loop GetCurrentTimestamp tuples 0 [] (empty_info table_oid)).
    - apply collected_empty.
    - simpl. pose proof (filter_length_le (key_relid table_oid) (implicit_rel s)).
      unfold tuples. rewrite index_order_length. lia. }
  destruct Hinv as (Hnum & Hlen & Hcols & Hforms & Hhas & Htrue & Hfalse).
  assert (Hnamed : forall col,
            In (Some col)
               (implicit_columns
                  (collect_loop GetCurrentTimestamp 0 tuples (empty_info table_oid))) ->
            column_name col = IMPLICIT_TIME_COLUMN_NAME ->
            exists form, In form tuples /\ is_time_form form = true
                         /\ attnum col = ic_attnum form).
  { intros col Hin Hname. destruct (Hcols col Hin) as (form & Hf & Hn & Ha).
    exists form. split; [exact Hf|]. split; [|exact Ha].
    unfold is_time_form. rewrite <- Hn, Hname. apply String.eqb_refl. }
  assert (Hflag : forall form, In form tuples -> is_time_form form = true ->
            has_implicit_time
              (collect_loop GetCurrentTimestamp 0 tuples (empty_info table_oid)) = true).
  { intros form Hf Ht. rewrite Hhas. apply existsb_exists. exists form. split; assumption. }
  split; [exact Hnum|]. split; [|split; [|split; [|exact Hfalse]]].
  - split.
    + intros Ht. destruct (Htrue Ht) as (form & Hf & Hft & _).
      destruct (Hforms form Hf) as (col & Hc & Hn & _).
      exists col. split; [exact Hc|]. rewrite Hn.
      apply String.eqb_eq. exact Hft.
    + intros (col & Hin & Hname).
      destruct (Hnamed col Hin Hname) as (form & Hf & Ht & _).
      apply (Hflag form Hf Ht).
  - intros Ht. destruct (Htrue Ht) as (form & Hf & Hft & Hatt).
    destruct (Hforms form Hf) as (col & Hc & Hn & Ha).
    exists col. split; [exact Hc|]. split.
    + rewrite Hn. apply String.eqb_eq. exact Hft.
    + rewrite Hatt, Ha. reflexivity.
  - intros Huniq col Hin Hname.
    destruct (Hnamed col Hin Hname) as (form & Hf & Ht & Ha).
    pose proof (Hflag form Hf Ht) as Hset. split; [exact Hset|].
    destruct (Htrue Hset) as (form0 & Hf0 & Ht0 & Hatt).
    rewrite Hatt, Ha. f_equal.
    apply (proj1 (index_order_In _ _)) in Hf.
    apply (proj1 (index_order_In _ _)) in Hf0.
    apply (unique_time_descriptor_same table_oid (implicit_rel s)); assumption.
Qed.

Lemma C10_witness :
  OidIsValid 16384 = true
  /\ Z.of_nat (length (implicit_rel backend_with_orders)) <= INT32_MAX
  /\ exists info,
       get_table_implicit_info (fun _ => clock_reading) 16384 backend_with_orders
       = Done (Some info) backend_with_orders
       /\ num_implicit_cols info = Z.of_nat (length (implicit_columns info))
       /\ (has_implicit_time info = true
           <-> exists col, In (Some col) (implicit_columns info)
                           /\ column_name col = IMPLICIT_TIME_COLUMN_NAME)
       /\ (has_implicit_time info = true ->
           exists col, In (Some col) (implicit_columns info)
                       /\ column_name col = IMPLICIT_TIME_COLUMN_NAME
                       /\ time_attnum info = attnum col)
       /\ (unique_time_descriptor 16384 (implicit_rel backend_with_orders) ->
           forall col, In (Some col) (implicit_columns info) ->
                       column_name col = IMPLICIT_TIME_COLUMN_NAME ->
                       has_implicit_time info = true /\ time_attnum info = attnum col)
       /\ (has_implicit_time info = false -> time_attnum info = InvalidAttrNumber).
Proof.
  split; [reflexivity|]. split; [vm_compute; discriminate|].
  apply (C10_snapshot_is_consistent (fun _ => clock_reading) 16384 backend_with_orders).
  - reflexivity.
  - vm_compute. discriminate.
Defined.

(** The snapshot of [orders] in that backend. *)
Example get_table_implicit_info_orders :
  get_table_implicit_info (fun _ => clock_reading) 16384 backend_with_orders
  = Done (Some (mkTableImplicitInfo 16384 true 3
                  [Some (mkImplicitColumn "time" TIMESTAMPOID 3 true clock_reading)] 1))
         backend_with_orders.
Proof. reflexivity. Qed.

(** ** Claim about the scan hook *)

Lemma get_implicit_time_attnum_valid (table_oid : Oid) (s : Backend) :
  OidIsValid table_oid = true ->
  get_implicit_time_attnum table_oid s
  = Done (match time_descriptors table_oid (implicit_rel s) with
          | form :: _ => ic_attnum form
          | [] => InvalidAttrNumber
          end)
         (write_log (DEBUG1, "get_implicit_time_attnum: attribute number") s).
Proof.
  intros Hv. unfold get_implicit_time_attnum. rewrite Hv. simpl.
  unfold bind, systable_scan. rewrite index_order_time_descriptors. reflexivity.
Qed.

(** For a table with an implicit time column, the hook takes the row
    [ExecScan] produced, fetches from it the attribute at the implicit
    column's number and, unless that fetch fails, returns the very same
    row: nothing is removed from it, the visible flag is not consulted,
    and the catalog is left alone. *)
Lemma ExecScanWithImplicitColumns_fetches_then_returns_row
    (slot_getattr : TupleTableSlot -> AttrNumber -> Exec (Datum * bool))
    (node node' : ScanState) (rd : RelationData)
    (form : FormData_pg_implicit_columns) (rest : list FormData_pg_implicit_columns)
    (tuple : TupleTableSlot) (s : Backend) :
  ss_currentRelation node = Some rd ->
  OidIsValid (RelationGetRelid rd) = true ->
  time_descriptors (RelationGetRelid rd) (implicit_rel s) = form :: rest ->
  AttributeNumberIsValid (ic_attnum form) = true ->
  ExecScan node = (Some tuple, node') ->
  implicit_rel (after_lookups s) = implicit_rel s
  /\ relcache_inval (after_lookups s) = relcache_inval s
  /\ ExecScanWithImplicitColumns slot_getattr node s
     = match slot_getattr tuple (ic_attnum form) (after_lookups s) with
       | Done _ s' => Done (Some tuple, node') s'
       | Aborted s' => Aborted s'
       | Crashed s' => Crashed s'
       end.
Proof.
  intros Hrel Hv Hdesc Hatt Hscan.
  split; [reflexivity|]. split; [reflexivity|].
  unfold ExecScanWithImplicitColumns. rewrite Hscan, Hrel. unfold bind.
  rewrite (table_has_implicit_time_valid _ _ Hv). simpl.
  assert (Hex : existsb (key_relid_attname (RelationGetRelid rd) IMPLICIT_TIME_COLUMN_NAME)
                        (implicit_rel s) = true).
  { apply existsb_time_descriptors_true. rewrite Hdesc. discriminate. }
  rewrite Hex.
  rewrite (get_implicit_time_attnum_valid _ _ Hv). cbn [implicit_rel write_log].
  rewrite Hdesc, Hatt. unfold after_lookups, ret.
  destruct (slot_getattr tuple (ic_attnum form) _); reflexivity.
Qed.

(** ** Claim about the visibility filter *)








Lemma numbered_without_last (time_value : option Datum) (cells : list (option Datum)) :
  forall first : AttrNumber,
    List.filter
      (fun attribute =>
         negb (existsb (Z.eqb (fst attribute)) [first + Z.of_nat (length cells)]))
      (numbered first (cells ++ [time_value]))
    = numbered first cells.
Proof.
  induction cells as [|c rest IH]; intros first.
  - simpl. rewrite Z.add_0_r, Z.eqb_refl. reflexivity.
  - cbn [app numbered List.filter fst existsb length].
    rewrite (proj2 (Z.eqb_neq _ _)) by lia. cbn [orb negb]. f_equal.
    replace (first + Z.of_nat (S (length rest)))
      with (first + 1 + Z.of_nat (length rest)) by lia.
    apply IH.
Qed.

(** The descriptor [add_implicit_time_column] writes is hidden: once a
    table of [N] declared columns that had no descriptor has acquired its
    implicit time column, the wildcard projection of a stored row of
    [N + 1] cells is the row of its [N] declared cells, and the value in
    the last cell is still there for an explicit reference. *)
Lemma wildcard_projection_after_add (rd : RelationData) (s s' : Backend)
    (declared : list (option Datum)) (time_value : option Datum) :
  List.filter (key_relid (RelationGetRelid rd)) (implicit_rel s) = [] ->
  RelationGetNumberOfAttributes rd = Z.of_nat (length declared) ->
  RelationGetNumberOfAttributes rd < INT16_MAX ->
  add_implicit_time_column (Some rd) s = Done tt s' ->
  wildcard_projection (implicit_rel s') (RelationGetRelid rd)
    (mkSlot (declared ++ [time_value]))
  = numbered 1 declared
  /\ explicit_reference (mkSlot (declared ++ [time_value]))
       (RelationGetNumberOfAttributes rd + 1)
     = Some time_value.
Proof.
  intros Hnone Hcount Hbound Hrun.
  assert (Hd : time_descriptors (RelationGetRelid rd) (implicit_rel s) = []).
  { unfold time_descriptors.
    destruct (List.filter (key_relid_attname _ _) (implicit_rel s)) as [|d ds] eqn:Hf;
      [reflexivity|].
    assert (Hin : In d (List.filter (key_relid (RelationGetRelid rd)) (implicit_rel s))).
    { assert (Hd : In d (d :: ds)) by (left; reflexivity).
      rewrite <- Hf in Hd. apply filter_In in Hd. destruct Hd as [Hd Hkey].
      apply filter_In. split; [exact Hd|].
      unfold key_relid_attname in Hkey. apply andb_true_iff in Hkey. apply Hkey. }
    rewrite Hnone in Hin. destruct Hin. }
  destruct (add_implicit_time_column_inserts rd s Hd) as [tag Hins].
  rewrite Hins in Hrun. injection Hrun as <-. cbn [implicit_rel].
  assert (Hhidden : hidden_attnums
                      (implicit_rel s
                       ++ [mkImplicitForm (RelationGetRelid rd) IMPLICIT_TIME_COLUMN_NAME
                             (int16 (RelationGetNumberOfAttributes rd + 1))
                             TIMESTAMPOID false])
                      (RelationGetRelid rd)
                    = [Z.of_nat (length declared) + 1]).
  { unfold hidden_attnums. rewrite List.filter_app.
    assert (Hempty : List.filter
                       (fun form => key_relid (RelationGetRelid rd) form
                                    && negb (ic_visible form)) (implicit_rel s) = []).
    { clear - Hnone. induction (implicit_rel s) as [|f heap IH]; [reflexivity|].
      simpl in *. destruct (key_relid (RelationGetRelid rd) f); [discriminate|].
      simpl. apply IH, Hnone. }
    rewrite Hempty. simpl. unfold key_relid. simpl. rewrite Z.eqb_refl. simpl.
    rewrite int16_small by (unfold INT16_MAX in Hbound; lia).
    rewrite Hcount. reflexivity. }
  split.
  - unfold wildcard_projection. rewrite Hhidden. cbn [tts_values].
    rewrite Z.add_comm. apply numbered_without_last.
  - unfold explicit_reference. cbn [tts_values]. rewrite Hcount.
    destruct (Z.of_nat (length declared) + 1 <=? 0) eqn:Hle; [apply Z.leb_le in Hle; lia|].
    replace (Z.to_nat (Z.of_nat (length declared) + 1 - 1)) with (length declared) by lia.
    rewrite nth_error_app2 by lia. rewrite Nat.sub_diag. reflexivity.
Qed.

(** ** Concrete runs of the migration entry point *)

(** On [orders], an ordinary table of a user, [migrate_existing_table]
    does not get past its compatibility check: [is_system_table] hands
    NULL to [IsSystemClass], and the catalog is as it was when the
    process ends. *)
Example migrate_orders_ends_in_IsToastClass :
  migrate_existing_table (table_open_syscache syscache_orders) syscache_orders
    16384 true fresh_backend = Crashed fresh_backend.
Proof. reflexivity. Qed.

(** A view passes the check on its relation kind: adding through
    [migrate_existing_table] records one descriptor at attribute number
    2, and removing it again empties the catalog; both calls answer
    [true]. *)
Example migrate_view_add_then_remove :
  exists s1 s2,
    migrate_existing_table (table_open_syscache syscache_view) syscache_view
      16400 true fresh_backend = Done true s1
    /\ implicit_rel s1 = [mkImplicitForm 16400 "time" 2 TIMESTAMPOID false]
    /\ relcache_inval s1 = [16400]
    /\ migrate_existing_table (table_open_syscache syscache_view) syscache_view
         16400 false s1 = Done true s2
    /\ implicit_rel s2 = []
    /\ relcache_inval s2 = [16400; 16400].
Proof.
  eexists. eexists. split; [vm_compute; reflexivity|].
  split; [reflexivity|]. split; [reflexivity|].
  split; [vm_compute; reflexivity|]. split; reflexivity.
Qed.

(** * Further properties of the catalog routines *)

(** ** Runs that only write to the log *)

Lemma only_logged_refl (s : Backend) : only_logged s s.
Proof. repeat split. exists []. rewrite app_nil_r. reflexivity. Qed.

Lemma only_logged_trans (s1 s2 s3 : Backend) :
  only_logged s1 s2 -> only_logged s2 s3 -> only_logged s1 s3.
Proof.
  intros (Hh1 & Hi1 & l1 & Hl1) (Hh2 & Hi2 & l2 & Hl2).
  split; [congruence|]. split; [congruence|].
  exists (l1 ++ l2). rewrite Hl2, Hl1, app_assoc. reflexivity.
Qed.

Lemma only_logged_write_log (l : LogLine) (s : Backend) : only_logged s (write_log l s).
Proof. repeat split. exists [l]. reflexivity. Qed.

Lemma table_has_implicit_time_run (table_oid : Oid) (s : Backend) :
  exists tag,
    table_has_implicit_time table_oid s
    = Done (OidIsValid table_oid
            && existsb (key_relid_attname table_oid IMPLICIT_TIME_COLUMN_NAME)
                       (implicit_rel s))
           (write_log (DEBUG1, tag) s).
Proof.
  destruct (OidIsValid table_oid) eqn:Hv.
  - eexists. rewrite (table_has_implicit_time_valid _ _ Hv). simpl. reflexivity.
  - eexists. rewrite (table_has_implicit_time_invalid _ _ Hv). reflexivity.
Qed.

Lemma get_implicit_time_attnum_run (table_oid : Oid) (s : Backend) :
  exists tag,
    get_implicit_time_attnum table_oid s
    = Done (if OidIsValid table_oid
            then match time_descriptors table_oid (implicit_rel s) with
                 | form :: _ => ic_attnum form
                 | [] => InvalidAttrNumber
                 end
            else InvalidAttrNumber)
           (write_log (DEBUG1, tag) s).
Proof.
  destruct (OidIsValid table_oid) eqn:Hv.
  - eexists. apply (get_implicit_time_attnum_valid _ _ Hv).
  - eexists. unfold get_implicit_time_attnum. rewrite Hv. reflexivity.
Qed.

Lemma time_descriptors_In (table_oid : Oid) (heap : list FormData_pg_implicit_columns)
    (form : FormData_pg_implicit_columns) :
  In form (time_descriptors table_oid heap)
  <-> In form heap /\ ic_relid form = table_oid
      /\ ic_attname form = IMPLICIT_TIME_COLUMN_NAME.
Proof.
  unfold time_descriptors, key_relid_attname.
  rewrite filter_In, andb_true_iff, Z.eqb_eq, String.eqb_eq. tauto.
Qed.

(** X1.  The two lookups never change the catalog or the invalidation
    queue and agree with each other: [table_has_implicit_time] answers
    [true] exactly for a valid identity with a recorded time descriptor;
    whenever it answers [false], [get_implicit_time_attnum] yields
    [InvalidAttrNumber]; whenever it answers [true], the number yielded is
    the attribute number of a time descriptor recorded for that table. *)
Theorem X1_lookups_agree_and_only_read (table_oid : Oid) (s : Backend) :
  exists has att s1 s2,
    table_has_implicit_time table_oid s = Done has s1
    /\ get_implicit_time_attnum table_oid s = Done att s2
    /\ only_logged s s1 /\ only_logged s s2
    /\ (has = true <-> OidIsValid table_oid = true
                       /\ time_descriptors table_oid (implicit_rel s) <> [])
    /\ (has = false -> att = InvalidAttrNumber)
    /\ (has = true ->
        exists form, In form (implicit_rel s)
                     /\ ic_relid form = table_oid
                     /\ ic_attname form = IMPLICIT_TIME_COLUMN_NAME
                     /\ ic_attnum form = att).
Proof.
  destruct (table_has_implicit_time_run table_oid s) as [tag1 Hhas].
  destruct (get_implicit_time_attnum_run table_oid s) as [tag2 Hatt].
  eexists. eexists. eexists. eexists.
  split; [exact Hhas|]. split; [exact Hatt|].
  split; [apply only_logged_write_log|]. split; [apply only_logged_write_log|].
  rewrite andb_true_iff, existsb_time_descriptors_true.
  split; [tauto|]. split.
  - intros Hfalse. apply andb_false_iff in Hfalse.
    destruct (OidIsValid table_oid); [|reflexivity].
    destruct Hfalse as [Hf|Hf]; [discriminate|].
    apply existsb_time_descriptors in Hf. rewrite Hf. reflexivity.
  - intros [Hv Hex]. rewrite Hv.
    destruct (time_descriptors table_oid (implicit_rel s)) as [|form rest] eqn:Hd;
      [congruence|].
    assert (Hin : In form (time_descriptors table_oid (implicit_rel s)))
      by (rewrite Hd; left; reflexivity).
    apply time_descriptors_In in Hin. destruct Hin as (Hin & Hrel & Hname).
    exists form. repeat split; assumption.
Qed.

(** ** What [add] and [remove] leave in the heap *)

Lemma add_implicit_time_column_final_heap (rel : Relation) (s : Backend) :
  implicit_rel (final_backend (add_implicit_time_column rel s)) = implicit_rel s
  \/ exists rd, rel = Some rd
                /\ time_descriptors (RelationGetRelid rd) (implicit_rel s) = []
                /\ implicit_rel (final_backend (add_implicit_time_column rel s))
                   = implicit_rel s ++ [time_descriptor_of rd].
Proof.
  destruct rel as [rd|]; [|left; reflexivity].
  destruct (time_descriptors (RelationGetRelid rd) (implicit_rel s)) as [|d ds] eqn:Hd.
  - right. exists rd. split; [reflexivity|]. split; [exact Hd|].
    destruct (add_implicit_time_column_inserts rd s Hd) as [tag ->]. reflexivity.
  - left. unfold add_implicit_time_column, bind.
    destruct (table_has_implicit_time_run (RelationGetRelid rd) s) as [tag ->].
    destruct (OidIsValid (RelationGetRelid rd)); simpl.
    + assert (Hex : existsb (key_relid_attname (RelationGetRelid rd) IMPLICIT_TIME_COLUMN_NAME)
                            (implicit_rel s) = true)
        by (apply existsb_time_descriptors_true; rewrite Hd; discriminate).
      rewrite Hex. reflexivity.
    + unfold CatalogTupleInsert. cbn [implicit_rel write_log ic_relid ic_attname].
      assert (Hex : existsb (key_relid_attname (RelationGetRelid rd) IMPLICIT_TIME_COLUMN_NAME)
                            (implicit_rel s) = true)
        by (apply existsb_time_descriptors_true; rewrite Hd; discriminate).
      rewrite Hex. reflexivity.
Qed.

Lemma remove_implicit_time_column_final_heap (rel : Relation) (s : Backend) :
  implicit_rel (final_backend (remove_implicit_time_column rel s)) = implicit_rel s
  \/ exists rd, rel = Some rd
                /\ implicit_rel (final_backend (remove_implicit_time_column rel s))
                   = other_descriptors (RelationGetRelid rd) (implicit_rel s).
Proof.
  destruct rel as [rd|]; [|left; reflexivity].
  unfold remove_implicit_time_column, bind.
  destruct (table_has_implicit_time_run (RelationGetRelid rd) s) as [tag ->].
  destruct (OidIsValid (RelationGetRelid rd)
            && existsb (key_relid_attname (RelationGetRelid rd) IMPLICIT_TIME_COLUMN_NAME)
                       (implicit_rel s)) eqn:Hhas; simpl.
  - right. exists rd. split; [reflexivity|].
    unfold CatalogTupleDelete_loop. cbn [implicit_rel write_log].
    rewrite delete_scanned_spec.
    destruct (existsb _ (implicit_rel s)); reflexivity.
  - left. reflexivity.
Qed.

Lemma other_descriptors_app (table_oid : Oid) (h1 h2 : list FormData_pg_implicit_columns) :
  other_descriptors table_oid (h1 ++ h2)
  = other_descriptors table_oid h1 ++ other_descriptors table_oid h2.
Proof. unfold other_descriptors. apply List.filter_app. Qed.

Lemma other_descriptors_time_descriptor_of (rd : RelationData) :
  other_descriptors (RelationGetRelid rd) [time_descriptor_of rd] = [].
Proof.
  unfold other_descriptors, time_descriptor_of, key_relid_attname. simpl.
  rewrite Z.eqb_refl. reflexivity.
Qed.

Lemma time_descriptors_time_descriptor_of (rd : RelationData)
    (heap : list FormData_pg_implicit_columns) :
  time_descriptors (RelationGetRelid rd) (heap ++ [time_descriptor_of rd])
  = time_descriptors (RelationGetRelid rd) heap ++ [time_descriptor_of rd].
Proof. apply time_descriptors_snoc_time. Qed.

Lemma filter_relid_other_descriptors (table_oid other : Oid)
    (heap : list FormData_pg_implicit_columns) :
  table_oid <> other ->
  List.filter (key_relid other) (other_descriptors table_oid heap)
  = List.filter (key_relid other) heap.
Proof.
  intros Hne. unfold other_descriptors.
  induction heap as [|form heap IH]; simpl; [reflexivity|].
  destruct (key_relid_attname table_oid IMPLICIT_TIME_COLUMN_NAME form) eqn:Hkey; simpl.
  - unfold key_relid_attname in Hkey. apply andb_true_iff in Hkey.
    destruct Hkey as [Hrel _]. apply Z.eqb_eq in Hrel.
    unfold key_relid at 2. replace (ic_relid form =? other) with false
      by (symmetry; apply Z.eqb_neq; congruence).
    exact IH.
  - rewrite IH. reflexivity.
Qed.

(** With a valid identity both routines return normally, and the states
    they return are these. *)
Lemma add_implicit_time_column_valid_run (rd : RelationData) (s : Backend) :
  OidIsValid (RelationGetRelid rd) = true ->
  exists s1,
    add_implicit_time_column (Some rd) s = Done tt s1
    /\ implicit_rel s1
       = match time_descriptors (RelationGetRelid rd) (implicit_rel s) with
         | [] => implicit_rel s ++ [time_descriptor_of rd]
         | _ :: _ => implicit_rel s
         end
    /\ relcache_inval s1
       = match time_descriptors (RelationGetRelid rd) (implicit_rel s) with
         | [] => relcache_inval s ++ [RelationGetRelid rd]
         | _ :: _ => relcache_inval s
         end.
Proof.
  intros Hv.
  destruct (time_descriptors (RelationGetRelid rd) (implicit_rel s)) as [|d ds] eqn:Hd.
  - destruct (add_implicit_time_column_inserts rd s Hd) as [tag Hrun].
    eexists. split; [exact Hrun|]. split; reflexivity.
  - eexists. split.
    + apply add_implicit_time_column_present; [exact Hv|rewrite Hd; discriminate].
    + split; reflexivity.
Qed.

Lemma remove_implicit_time_column_valid_run (rd : RelationData) (s : Backend) :
  OidIsValid (RelationGetRelid rd) = true ->
  exists s1,
    remove_implicit_time_column (Some rd) s = Done tt s1
    /\ implicit_rel s1 = other_descriptors (RelationGetRelid rd) (implicit_rel s)
    /\ relcache_inval s1
       = match time_descriptors (RelationGetRelid rd) (implicit_rel s) with
         | [] => relcache_inval s
         | _ :: _ => relcache_inval s ++ [RelationGetRelid rd]
         end.
Proof.
  intros Hv.
  destruct (time_descriptors (RelationGetRelid rd) (implicit_rel s)) as [|d ds] eqn:Hd.
  - destruct (remove_implicit_time_column_absent rd s Hd) as [tag Hrun].
    eexists. split; [exact Hrun|]. cbn [implicit_rel relcache_inval].
    split; [symmetry; apply other_descriptors_id, Hd|reflexivity].
  - eexists. split.
    + apply remove_implicit_time_column_present; [exact Hv|rewrite Hd; discriminate].
    + split; reflexivity.
Qed.

(** ** Lookups after a change *)

(** X2.  After [add_implicit_time_column] on a table with a valid
    identity, [table_has_implicit_time] answers [true]; and
    [get_implicit_time_attnum] yields the declared attribute count plus 1
    when the descriptor was just created, the recorded number when one
    was already there. *)
Theorem X2_add_then_lookups (rd : RelationData) (s : Backend) :
  OidIsValid (RelationGetRelid rd) = true ->
  0 <= RelationGetNumberOfAttributes rd < INT16_MAX ->
  exists s1 s2 s3 att,
    add_implicit_time_column (Some rd) s = Done tt s1
    /\ table_has_implicit_time (RelationGetRelid rd) s1 = Done true s2
    /\ get_implicit_time_attnum (RelationGetRelid rd) s1 = Done att s3
    /\ (time_descriptors (RelationGetRelid rd) (implicit_rel s) = [] ->
        att = RelationGetNumberOfAttributes rd + 1)
    /\ (forall form rest,
          time_descriptors (RelationGetRelid rd) (implicit_rel s) = form :: rest ->
          att = ic_attnum form).
Proof.
  intros Hv Hrange. unfold INT16_MAX in Hrange.
  destruct (add_implicit_time_column_valid_run rd s Hv) as (s1 & Hrun & Hheap & _).
  destruct (time_descriptors (RelationGetRelid rd) (implicit_rel s)) as [|d ds] eqn:Hd.
  - exists s1. eexists. eexists. eexists. split; [exact Hrun|].
    rewrite (table_has_implicit_time_valid _ _ Hv), (get_implicit_time_attnum_valid _ _ Hv).
    cbn zeta. rewrite Hheap.
    assert (Hex : existsb (key_relid_attname (RelationGetRelid rd) IMPLICIT_TIME_COLUMN_NAME)
                          (implicit_rel s ++ [time_descriptor_of rd]) = true).
    { apply existsb_time_descriptors_true.
      rewrite time_descriptors_time_descriptor_of, Hd. discriminate. }
    rewrite Hex, time_descriptors_time_descriptor_of, Hd. simpl.
    split; [reflexivity|]. split; [reflexivity|]. split.
    + intros _. apply int16_small. lia.
    + intros form rest Habs. discriminate.
  - exists s1. eexists. eexists. eexists. split; [exact Hrun|].
    rewrite (table_has_implicit_time_valid _ _ Hv), (get_implicit_time_attnum_valid _ _ Hv).
    cbn zeta. rewrite Hheap.
    assert (Hex : existsb (key_relid_attname (RelationGetRelid rd) IMPLICIT_TIME_COLUMN_NAME)
                          (implicit_rel s) = true).
    { apply existsb_time_descriptors_true. rewrite Hd. discriminate. }
    rewrite Hex, Hd.
    split; [reflexivity|]. split; [reflexivity|]. split.
    + intros Habs. discriminate.
    + intros form rest [= <- _]. reflexivity.
Qed.

Lemma X2_witness :
  exists s1 s2 s3,
    add_implicit_time_column (Some orders) fresh_backend = Done tt s1
    /\ table_has_implicit_time 16384 s1 = Done true s2
    /\ get_implicit_time_attnum 16384 s1 = Done 3 s3.
Proof.
  destruct (X2_add_then_lookups orders fresh_backend)
    as (s1 & s2 & s3 & att & Hadd & Hhas & Hget & Hnew & _).
  - reflexivity.
  - vm_compute. split; [discriminate|reflexivity].
  - exists s1, s2, s3. split; [exact Hadd|]. split; [exact Hhas|].
    rewrite (Hnew eq_refl) in Hget. exact Hget.
Defined.

(** X3.  After [remove_implicit_time_column] on a table with a valid
    identity, [table_has_implicit_time] answers [false] and
    [get_implicit_time_attnum] yields [InvalidAttrNumber], however many
    descriptors the table had. *)
Theorem X3_remove_then_lookups (rd : RelationData) (s : Backend) :
  OidIsValid (RelationGetRelid rd) = true ->
  exists s1 s2 s3,
    remove_implicit_time_column (Some rd) s = Done tt s1
    /\ table_has_implicit_time (RelationGetRelid rd) s1 = Done false s2
    /\ get_implicit_time_attnum (RelationGetRelid rd) s1 = Done InvalidAttrNumber s3.
Proof.
  intros Hv.
  destruct (remove_implicit_time_column_valid_run rd s Hv) as (s1 & Hrun & Hheap & _).
  exists s1. eexists. eexists. split; [exact Hrun|].
  rewrite (table_has_implicit_time_valid _ _ Hv), (get_implicit_time_attnum_valid _ _ Hv).
  cbn zeta. rewrite Hheap, time_descriptors_other.
  assert (Hex : existsb (key_relid_attname (RelationGetRelid rd) IMPLICIT_TIME_COLUMN_NAME)
                        (other_descriptors (RelationGetRelid rd) (implicit_rel s)) = false)
    by (apply existsb_time_descriptors, time_descriptors_other).
  rewrite Hex. split; reflexivity.
Qed.

Lemma X3_witness :
  exists s1 s2 s3,
    remove_implicit_time_column (Some orders) backend_with_orders = Done tt s1
    /\ table_has_implicit_time 16384 s1 = Done false s2
    /\ get_implicit_time_attnum 16384 s1 = Done InvalidAttrNumber s3.
Proof.
  apply (X3_remove_then_lookups orders backend_with_orders). reflexivity.
Defined.

(** ** How [add] and [remove] compose *)

(** X4.  On a table with a valid identity and no descriptor, adding and
    then removing the implicit time column gives back the catalog heap as
    it was, tuple for tuple; each of the two calls sends one invalidation
    for the table. *)
Theorem X4_add_then_remove_restores_catalog (rd : RelationData) (s : Backend) :
  OidIsValid (RelationGetRelid rd) = true ->
  time_descriptors (RelationGetRelid rd) (implicit_rel s) = [] ->
  exists s1 s2,
    add_implicit_time_column (Some rd) s = Done tt s1
    /\ remove_implicit_time_column (Some rd) s1 = Done tt s2
    /\ implicit_rel s2 = implicit_rel s
    /\ relcache_inval s2 = relcache_inval s ++ [RelationGetRelid rd; RelationGetRelid rd].
Proof.
  intros Hv Hnone.
  destruct (add_implicit_time_column_valid_run rd s Hv) as (s1 & Hadd & Hheap1 & Hinv1).
  destruct (remove_implicit_time_column_valid_run rd s1 Hv) as (s2 & Hrem & Hheap2 & Hinv2).
  exists s1, s2. split; [exact Hadd|]. split; [exact Hrem|].
  rewrite Hnone in Hheap1, Hinv1.
  rewrite Hheap2, Hinv2, Hheap1, Hinv1.
  rewrite time_descriptors_time_descriptor_of, Hnone. simpl.
  rewrite other_descriptors_app, other_descriptors_time_descriptor_of, app_nil_r.
  split; [apply other_descriptors_id, Hnone|].
  rewrite <- app_assoc. reflexivity.
Qed.

Lemma X4_witness :
  exists s1 s2,
    add_implicit_time_column (Some orders) fresh_backend = Done tt s1
    /\ remove_implicit_time_column (Some orders) s1 = Done tt s2
    /\ implicit_rel s2 = implicit_rel fresh_backend
    /\ relcache_inval s2 = relcache_inval fresh_backend ++ [16384; 16384].
Proof.
  apply (X4_add_then_remove_restores_catalog orders fresh_backend); reflexivity.
Defined.

(** X5.  Removing and then adding again leaves the table with exactly one
    descriptor, created afresh: its attribute number is the declared
    attribute count at the time of the second call plus 1, whatever number
    was recorded before, and the descriptors of every other (table, name)
    pair are kept in their order. *)
Theorem X5_remove_then_add_recreates_descriptor (rd : RelationData) (s : Backend) :
  OidIsValid (RelationGetRelid rd) = true ->
  0 <= RelationGetNumberOfAttributes rd < INT16_MAX ->
  exists s1 s2,
    remove_implicit_time_column (Some rd) s = Done tt s1
    /\ add_implicit_time_column (Some rd) s1 = Done tt s2
    /\ implicit_rel s2
       = other_descriptors (RelationGetRelid rd) (implicit_rel s) ++ [time_descriptor_of rd]
    /\ time_descriptors (RelationGetRelid rd) (implicit_rel s2) = [time_descriptor_of rd]
    /\ ic_attnum (time_descriptor_of rd) = RelationGetNumberOfAttributes rd + 1.
Proof.
  intros Hv Hrange. unfold INT16_MAX in Hrange.
  destruct (remove_implicit_time_column_valid_run rd s Hv) as (s1 & Hrem & Hheap1 & _).
  destruct (add_implicit_time_column_valid_run rd s1 Hv) as (s2 & Hadd & Hheap2 & _).
  exists s1, s2. split; [exact Hrem|]. split; [exact Hadd|].
  rewrite Hheap1, time_descriptors_other in Hheap2. rewrite Hheap2.
  split; [reflexivity|]. split.
  - rewrite time_descriptors_time_descriptor_of, time_descriptors_other. reflexivity.
  - apply int16_small. lia.
Qed.

(** A backend in which [orders] is recorded with a stale attribute number. *)
Lemma X5_witness :
  exists s1 s2,
    remove_implicit_time_column (Some orders)
      (mkBackend [mkImplicitForm 16384 "time" 7 TIMESTAMPOID false] [] []) = Done tt s1
    /\ add_implicit_time_column (Some orders) s1 = Done tt s2
    /\ implicit_rel s2 = [mkImplicitForm 16384 "time" 3 TIMESTAMPOID false].
Proof.
  destruct (X5_remove_then_add_recreates_descriptor orders
              (mkBackend [mkImplicitForm 16384 "time" 7 TIMESTAMPOID false] [] []))
    as (s1 & s2 & Hrem & Hadd & Hheap & _).
  - reflexivity.
  - vm_compute. split; [discriminate|reflexivity].
  - exists s1, s2. split; [exact Hrem|]. split; [exact Hadd|]. rewrite Hheap. reflexivity.
Defined.

(** ** What [add] and [remove] never touch *)

Lemma filter_relid_snoc_other (other : Oid) (form : FormData_pg_implicit_columns)
    (heap : list FormData_pg_implicit_columns) :
  ic_relid form <> other ->
  List.filter (key_relid other) (heap ++ [form]) = List.filter (key_relid other) heap.
Proof.
  intros Hne. rewrite List.filter_app. simpl. unfold key_relid at 2.
  replace (ic_relid form =? other) with false by (symmetry; apply Z.eqb_neq; exact Hne).
  apply app_nil_r.
Qed.

(** X6.  However they end, [add_implicit_time_column] and
    [remove_implicit_time_column] on one relation leave the descriptors
    of every other table as they were, so that both lookups and the
    snapshot of another table read the same tuples before and after. *)
Theorem X6_other_tables_are_untouched (rd : RelationData) (other : Oid) (s : Backend) :
  RelationGetRelid rd <> other ->
  List.filter (key_relid other)
    (implicit_rel (final_backend (add_implicit_time_column (Some rd) s)))
  = List.filter (key_relid other) (implicit_rel s)
  /\ List.filter (key_relid other)
       (implicit_rel (final_backend (remove_implicit_time_column (Some rd) s)))
     = List.filter (key_relid other) (implicit_rel s).
Proof.
  intros Hne. split.
  - destruct (add_implicit_time_column_final_heap (Some rd) s)
      as [->|(rd' & [= <-] & _ & ->)]; [reflexivity|].
    apply filter_relid_snoc_other. exact Hne.
  - destruct (remove_implicit_time_column_final_heap (Some rd) s)
      as [->|(rd' & [= <-] & ->)]; [reflexivity|].
    apply filter_relid_other_descriptors. exact Hne.
Qed.

Lemma X6_witness :
  List.filter (key_relid 16390)
    (implicit_rel (final_backend (add_implicit_time_column (Some orders) backend_with_orders)))
  = [mkImplicitForm 16390 "time" 5 TIMESTAMPOID false]
  /\ List.filter (key_relid 16390)
       (implicit_rel (final_backend
                        (remove_implicit_time_column (Some orders) backend_with_orders)))
     = [mkImplicitForm 16390 "time" 5 TIMESTAMPOID false].
Proof.
  apply (X6_other_tables_are_untouched orders 16390 backend_with_orders).
  vm_compute. discriminate.
Defined.

(** X7.  The unique index over (table, name) is an invariant of the
    catalog: if no two tuples share a key before a call of
    [add_implicit_time_column] or [remove_implicit_time_column], none do
    after it, whether the call returns or aborts and whatever relation it
    is given; hence no table ever has two implicit-time descriptors. *)
Theorem X7_unique_index_is_preserved (rel : Relation) (s : Backend) :
  unique_index (implicit_rel s) ->
  unique_index (implicit_rel (final_backend (add_implicit_time_column rel s)))
  /\ unique_index (implicit_rel (final_backend (remove_implicit_time_column rel s)))
  /\ forall table_oid,
       unique_time_descriptor table_oid
         (implicit_rel (final_backend (add_implicit_time_column rel s)))
       /\ unique_time_descriptor table_oid
            (implicit_rel (final_backend (remove_implicit_time_column rel s))).
Proof.
  intros Hnd.
  pose proof (add_implicit_time_column_keeps_unique_index rel s Hnd) as Hadd.
  pose proof (remove_implicit_time_column_keeps_unique_index rel s Hnd) as Hrem.
  split; [exact Hadd|]. split; [exact Hrem|].
  intros table_oid. split; apply unique_index_time_descriptor; assumption.
Qed.

Lemma X7_witness :
  unique_index (implicit_rel backend_with_orders)
  /\ unique_index
       (implicit_rel (final_backend (add_implicit_time_column (Some orders) backend_with_orders))).
Proof.
  assert (Hnd : unique_index (implicit_rel backend_with_orders)).
  { unfold unique_index. simpl. constructor.
    - intros [H|[]]. discriminate H.
    - constructor; [intros []|constructor]. }
  split; [exact Hnd|].
  apply (X7_unique_index_is_preserved (Some orders) backend_with_orders Hnd).
Defined.

(** ** When [add] and [remove] abort *)

Lemma remove_implicit_time_column_some_returns (rd : RelationData) (s : Backend) :
  exists s1, remove_implicit_time_column (Some rd) s = Done tt s1.
Proof.
  unfold remove_implicit_time_column, bind.
  destruct (table_has_implicit_time_run (RelationGetRelid rd) s) as [tag ->].
  destruct (OidIsValid (RelationGetRelid rd) && _); simpl.
  - unfold CatalogTupleDelete_loop. cbn [implicit_rel write_log].
    rewrite delete_scanned_spec.
    destruct (existsb _ (implicit_rel s)); eexists; reflexivity.
  - eexists. reflexivity.
Qed.

Lemma add_implicit_time_column_invalid_duplicate (rd : RelationData) (s : Backend) :
  OidIsValid (RelationGetRelid rd) = false ->
  time_descriptors (RelationGetRelid rd) (implicit_rel s) <> [] ->
  add_implicit_time_column (Some rd) s
  = Aborted
      (write_log
         (ERROR, "CatalogTupleInsert: duplicate key in pg_implicit_columns_relid_attname_index")
         (write_log (DEBUG1, "table_has_implicit_time: invalid table_oid") s)).
Proof.
  intros Hv Hne. apply existsb_time_descriptors_true in Hne.
  unfold add_implicit_time_column, bind.
  rewrite (table_has_implicit_time_invalid _ _ Hv).
  unfold CatalogTupleInsert. cbn [implicit_rel write_log ic_relid ic_attname].
  rewrite Hne. reflexivity.
Qed.

(** X8.  [add_implicit_time_column] aborts in two cases only: a NULL
    relation, or a relation whose identity is invalid while the catalog
    already holds a time descriptor under that identity (the existence
    check answers [false] for an invalid identity and the insert then
    meets the unique index).  [remove_implicit_time_column] aborts for a
    NULL relation only.  An aborted call has changed neither the catalog
    nor the invalidation queue. *)
Theorem X8_when_add_and_remove_abort (rel : Relation) (s : Backend) :
  ((exists s', add_implicit_time_column rel s = Aborted s')
   <-> rel = None
       \/ exists rd, rel = Some rd
                     /\ OidIsValid (RelationGetRelid rd) = false
                     /\ time_descriptors (RelationGetRelid rd) (implicit_rel s) <> [])
  /\ ((exists s', remove_implicit_time_column rel s = Aborted s') <-> rel = None)
  /\ (forall s', add_implicit_time_column rel s = Aborted s' -> only_logged s s')
  /\ (forall s', remove_implicit_time_column rel s = Aborted s' -> only_logged s s').
Proof.
  destruct rel as [rd|].
  - destruct (remove_implicit_time_column_some_returns rd s) as [s1 Hrem].
    rewrite Hrem.
    assert (Hremove : ((exists s', Done tt s1 = Aborted s') <-> Some rd = None)
                      /\ (forall s', Done tt s1 = Aborted s' -> only_logged s s')).
    { split; [split|]; [intros [s' Habs]|intros Habs|intros s' Habs]; discriminate. }
    destruct Hremove as [Hrem1 Hrem2].
    destruct (time_descriptors (RelationGetRelid rd) (implicit_rel s)) as [|d ds] eqn:Hd.
    + destruct (add_implicit_time_column_inserts rd s Hd) as [tag Hadd].
      rewrite Hadd. split; [|split; [exact Hrem1|split; [|exact Hrem2]]].
      * split; [intros [s' Habs]; discriminate|].
        intros [Habs|(rd' & [= <-] & _ & Habs)]; [discriminate|congruence].
      * intros s' Habs. discriminate.
    + assert (Hne : time_descriptors (RelationGetRelid rd) (implicit_rel s) <> [])
        by (rewrite Hd; discriminate).
      destruct (OidIsValid (RelationGetRelid rd)) eqn:Hv.
      * rewrite (add_implicit_time_column_present rd s Hv Hne).
        split; [|split; [exact Hrem1|split; [|exact Hrem2]]].
        -- split; [intros [s' Habs]; discriminate|].
           intros [Habs|(rd' & [= <-] & Habs & _)]; [discriminate|congruence].
        -- intros s' Habs. discriminate.
      * rewrite (add_implicit_time_column_invalid_duplicate rd s Hv Hne).
        split; [|split; [exact Hrem1|split; [|exact Hrem2]]].
        -- split.
           ++ intros _. right. exists rd. split; [reflexivity|]. split; [exact Hv|exact Hne].
           ++ intros _. eexists. reflexivity.
        -- intros s' [= <-].
           eapply only_logged_trans; apply only_logged_write_log.
  - unfold add_implicit_time_column, remove_implicit_time_column, elog. simpl.
    split; [|split; [|split]].
    + split; [intros _; left; reflexivity|intros _; eexists; reflexivity].
    + split; [intros _; reflexivity|intros _; eexists; reflexivity].
    + intros s' [= <-]. apply only_logged_write_log.
    + intros s' [= <-]. apply only_logged_write_log.
Qed.

(** The aborting case with a relation: an invalid identity under which a
    descriptor is recorded. *)
Example add_implicit_time_column_invalid_oid_duplicate :
  exists s',
    add_implicit_time_column
      (Some (mkRelation InvalidOid (mkClassForm "nothing" RELKIND_RELATION "p"%char 1)))
      (mkBackend [mkImplicitForm InvalidOid "time" 2 TIMESTAMPOID false] [] [])
    = Aborted s'.
Proof. eexists. vm_compute. reflexivity. Qed.

(** ** [is_implicit_column] *)

(** X9.  [is_implicit_column] answers [true] exactly when the name is
    [time], the table identity is valid and the catalog records a time
    descriptor for the table.  For a NULL name or any other name it
    answers [false] without consulting the catalog or writing to the
    log; in every case the catalog is left as it was. *)
Theorem X9_is_implicit_column_answer (table_oid : Oid) (name : option string) (s : Backend) :
  exists answer s',
    is_implicit_column table_oid name s = Done answer s'
    /\ only_logged s s'
    /\ (answer = true
        <-> name = Some IMPLICIT_TIME_COLUMN_NAME
            /\ OidIsValid table_oid = true
            /\ time_descriptors table_oid (implicit_rel s) <> [])
    /\ (name <> Some IMPLICIT_TIME_COLUMN_NAME -> answer = false /\ s' = s).
Proof.
  destruct name as [n|]; simpl.
  - destruct (String.eqb n IMPLICIT_TIME_COLUMN_NAME) eqn:Hn.
    + apply String.eqb_eq in Hn. subst n.
      destruct (table_has_implicit_time_run table_oid s) as [tag Hrun].
      eexists. eexists. split; [exact Hrun|].
      split; [apply only_logged_write_log|].
      rewrite andb_true_iff, existsb_time_descriptors_true.
      split; [tauto|]. intros Habs. congruence.
    + apply String.eqb_neq in Hn.
      exists false, s. split; [reflexivity|]. split; [apply only_logged_refl|].
      split; [|intros _; split; reflexivity].
      split; [discriminate|]. intros ([= Habs] & _). congruence.
  - exists false, s. split; [reflexivity|]. split; [apply only_logged_refl|].
    split; [|intros _; split; reflexivity].
    split; [discriminate|]. intros (Habs & _). discriminate.
Qed.

(** ** The snapshot and the catalog *)

Lemma collect_loop_columns (GetCurrentTimestamp : nat -> TimestampTz)
    (tuples : list FormData_pg_implicit_columns) :
  forall (k : nat) (info : TableImplicitInfo),
    implicit_columns (collect_loop GetCurrentTimestamp k tuples info)
    = implicit_columns info ++ columns_of GetCurrentTimestamp k tuples
    /\ table_oid (collect_loop GetCurrentTimestamp k tuples info) = table_oid info.
Proof.
  induction tuples as [|form rest IH]; intros k info; simpl.
  - rewrite app_nil_r. split; reflexivity.
  - destruct (IH (S k) (collect_implicit_column (GetCurrentTimestamp k) info form))
      as [Hcols Hoid].
    rewrite Hcols, Hoid. unfold collect_implicit_column.
    destruct (is_time_form form); cbn [implicit_columns table_oid];
      rewrite <- app_assoc; split; reflexivity.
Qed.

Lemma collect_loop_flag (GetCurrentTimestamp : nat -> TimestampTz)
    (tuples : list FormData_pg_implicit_columns) :
  forall (k : nat) (info : TableImplicitInfo),
    has_implicit_time (collect_loop GetCurrentTimestamp k tuples info)
    = has_implicit_time info || existsb is_time_form tuples.
Proof.
  induction tuples as [|form rest IH]; intros k info; simpl.
  - rewrite orb_false_r. reflexivity.
  - rewrite IH. unfold collect_implicit_column.
    destruct (is_time_form form); cbn [has_implicit_time]; simpl.
    + rewrite orb_true_r. reflexivity.
    + reflexivity.
Qed.

Lemma collect_loop_attnum (GetCurrentTimestamp : nat -> TimestampTz)
    (tuples : list FormData_pg_implicit_columns) :
  forall (k : nat) (info : TableImplicitInfo),
    time_attnum (collect_loop GetCurrentTimestamp k tuples info)
    = List.last (map ic_attnum (List.filter is_time_form tuples)) (time_attnum info).
Proof.
  induction tuples as [|form rest IH]; intros k info; simpl; [reflexivity|].
  rewrite IH. unfold collect_implicit_column.
  destruct (is_time_form form); cbn [time_attnum]; [|reflexivity].
  simpl. destruct (map ic_attnum (List.filter is_time_form rest)) as [|a l] eqn:Hm;
    [reflexivity|].
  clear. revert a. induction l as [|b l IHl]; intros a; [reflexivity|].
  simpl in *. destruct l; [reflexivity|]. apply (IHl b).
Qed.

Lemma filter_time_of_relid (table_oid : Oid) (heap : list FormData_pg_implicit_columns) :
  List.filter is_time_form (List.filter (key_relid table_oid) heap)
  = time_descriptors table_oid heap.
Proof.
  unfold time_descriptors, key_relid_attname, key_relid, is_time_form.
  induction heap as [|form heap IH]; simpl; [reflexivity|].
  destruct (ic_relid form =? table_oid); simpl; [|exact IH].
  destruct (String.eqb (ic_attname form) IMPLICIT_TIME_COLUMN_NAME); rewrite IH; reflexivity.
Qed.

(** Under the unique index the scan in index order meets the one time
    descriptor the heap has for the table, if any. *)
Lemma filter_time_index_order (table_oid : Oid) (heap : list FormData_pg_implicit_columns) :
  unique_time_descriptor table_oid heap ->
  List.filter is_time_form (index_order (List.filter (key_relid table_oid) heap))
  = time_descriptors table_oid heap.
Proof.
  unfold unique_time_descriptor. intros Huniq.
  pose proof (filter_Permutation is_time_form _ _
                (index_order_Permutation (List.filter (key_relid table_oid) heap)))
    as Hperm.
  rewrite filter_time_of_relid in Hperm.
  destruct (time_descriptors table_oid heap) as [|d [|d' ds]]; simpl in Huniq.
  - apply Permutation_nil in Hperm. exact Hperm.
  - apply Permutation_length_1_inv in Hperm. exact Hperm.
  - lia.
Qed.

(** X10.  Under the unique index, the snapshot of a table with a valid
    identity agrees with the two lookups made in the same catalog state:
    its [has_implicit_time] is the answer of [table_has_implicit_time],
    and its [time_attnum] is the number [get_implicit_time_attnum]
    yields. *)
Theorem X10_snapshot_agrees_with_lookups (GetCurrentTimestamp : nat -> TimestampTz)
    (table_oid : Oid) (s : Backend) :
  OidIsValid table_oid = true ->
  unique_time_descriptor table_oid (implicit_rel s) ->
  exists info has att s1 s2,
    get_table_implicit_info GetCurrentTimestamp table_oid s = Done (Some info) s
    /\ table_has_implicit_time table_oid s = Done has s1
    /\ get_implicit_time_attnum table_oid s = Done att s2
    /\ has_implicit_time info = has
    /\ time_attnum info = att.
Proof.
  intros Hv Huniq. unfold unique_time_descriptor in Huniq.
  eexists. eexists. eexists. eexists. eexists.
  split; [apply (get_table_implicit_info_valid _ _ _ Hv)|].
  split; [apply (table_has_implicit_time_valid _ _ Hv)|].
  split; [apply (get_implicit_time_attnum_valid _ _ Hv)|].
  rewrite collect_loop_flag, collect_loop_attnum.
  rewrite (filter_time_index_order _ _ Huniq).
  rewrite existsb_index_order, scan_relid_then_name.
  cbn [empty_info has_implicit_time time_attnum orb].
  split; [reflexivity|].
  destruct (time_descriptors table_oid (implicit_rel s)) as [|form [|form' rest]];
    simpl in *; [reflexivity|reflexivity|lia].
Qed.

Lemma X10_witness :
  exists info s1 s2,
    get_table_implicit_info (fun _ => clock_reading) 16384 backend_with_orders
    = Done (Some info) backend_with_orders
    /\ table_has_implicit_time 16384 backend_with_orders = Done true s1
    /\ get_implicit_time_attnum 16384 backend_with_orders = Done 3 s2
    /\ has_implicit_time info = true
    /\ time_attnum info = 3.
Proof.
  destruct (X10_snapshot_agrees_with_lookups (fun _ => clock_reading) 16384
              backend_with_orders)
    as (info & has & att & s1 & s2 & Hinfo & Hhas & Hatt & Hflag & Hnum).
  - reflexivity.
  - unfold unique_time_descriptor. simpl. lia.
  - assert (Hh : has = true).
    { pose proof Hhas as Hc. vm_compute in Hc. congruence. }
    assert (Ha : att = 3).
    { pose proof Hatt as Hc. vm_compute in Hc. congruence. }
    rewrite Hh in Hhas, Hflag. rewrite Ha in Hatt, Hnum. exists info, s1, s2.
    split; [exact Hinfo|]. split; [exact Hhas|]. split; [exact Hatt|].
    split; [exact Hflag|exact Hnum].
Defined.

(** X11.  The column list of a snapshot mirrors the scan of the catalog
    index: it has one entry per tuple recorded for the table and no
    other, in the order of the index (by name, whatever the order in
    which the tuples were inserted), each with the tuple's name, type and
    attribute number, the active flag set and the clock reading taken
    for it; the snapshot carries the identity it was asked for. *)
Theorem X11_snapshot_columns_mirror_index_scan (GetCurrentTimestamp : nat -> TimestampTz)
    (table_oid0 : Oid) (s : Backend) :
  OidIsValid table_oid0 = true ->
  exists info,
    get_table_implicit_info GetCurrentTimestamp table_oid0 s = Done (Some info) s
    /\ table_oid info = table_oid0
    /\ implicit_columns info
       = columns_of GetCurrentTimestamp 0
           (index_order (List.filter (key_relid table_oid0) (implicit_rel s)))
    /\ Permutation (List.filter (key_relid table_oid0) (implicit_rel s))
         (index_order (List.filter (key_relid table_oid0) (implicit_rel s)))
    /\ Sorted (fun a b => index_le a b = true)
         (index_order (List.filter (key_relid table_oid0) (implicit_rel s)))
    /\ length (implicit_columns info)
       = length (List.filter (key_relid table_oid0) (implicit_rel s)).
Proof.
  intros Hv. eexists. split; [apply (get_table_implicit_info_valid _ _ _ Hv)|].
  destruct (collect_loop_columns GetCurrentTimestamp
              (index_order (List.filter (key_relid table_oid0) (implicit_rel s))) 0
              (empty_info table_oid0)) as [Hcols Hoid].
  split; [exact Hoid|]. split; [exact Hcols|].
  split; [apply index_order_Permutation|]. split; [apply index_order_Sorted|].
  rewrite collect_loop_length, index_order_length. reflexivity.
Qed.

Lemma X11_witness :
  exists info,
    get_table_implicit_info (fun k => clock_reading + Z.of_nat k) 16384
      backend_time_then_created
    = Done (Some info) backend_time_then_created
    /\ table_oid info = 16384
    /\ implicit_columns info
       = [Some (mkImplicitColumn "created" TIMESTAMPOID 4 true clock_reading);
          Some (mkImplicitColumn "time" TIMESTAMPOID 3 true (clock_reading + 1))]
    /\ length (implicit_columns info) = 2%nat.
Proof.
  destruct (X11_snapshot_columns_mirror_index_scan (fun k => clock_reading + Z.of_nat k)
              16384 backend_time_then_created)
    as (info & Hrun & Hoid & Hcols & _ & _ & Hlen).
  - reflexivity.
  - exists info. split; [exact Hrun|]. split; [exact Hoid|].
    split; [rewrite Hcols; reflexivity|exact Hlen].
Defined.

(** * Further properties of the compatibility guard *)

Lemma logged_logged (l1 l2 : list LogLine) (s : Backend) :
  logged l2 (logged l1 s) = logged (l1 ++ l2) s.
Proof. unfold logged. simpl. rewrite app_assoc. reflexivity. Qed.

Lemma logged_nil (s : Backend) : logged [] s = s.
Proof. destruct s. unfold logged. simpl. rewrite app_nil_r. reflexivity. Qed.

Lemma only_logged_logged (lines : list LogLine) (s : Backend) : only_logged s (logged lines s).
Proof. repeat split. exists lines. reflexivity. Qed.

Lemma check_column_name_conflicts_run (sys : SysCache) (table_oid : Oid) (s : Backend) :
  check_column_name_conflicts sys table_oid s
  = Done tt (logged (if has_name_conflict sys table_oid then [name_conflict_warning] else []) s).
Proof.
  unfold check_column_name_conflicts, has_name_conflict.
  change "time" with IMPLICIT_TIME_COLUMN_NAME.
  destruct (SearchSysCache2_ATTNAME sys table_oid IMPLICIT_TIME_COLUMN_NAME) as [attrForm|].
  - destruct (negb (attisdropped attrForm) && negb (atttypid attrForm =? TIMESTAMPOID)).
    + reflexivity.
    + rewrite logged_nil. reflexivity.
  - rewrite logged_nil. reflexivity.
Qed.

(** X12.  [check_backward_compatibility] raises no error and changes
    neither the catalog nor the invalidation queue.  For an ordinary
    relation registered under a valid identity that is not below
    [FirstUnpinnedObjectId], which is every ordinary table of a user, it
    does not return: [is_system_table] hands NULL to [IsSystemClass],
    which reads through it, and the process ends with nothing written.
    For every other identity it returns after writing one line, and its
    verdict is [true] exactly when the identity is valid and registered.
    The name check of line 100 is never reached: the line written is not
    the name-collision warning, whatever columns the table has. *)
Theorem X12_compatibility_verdict (sys : SysCache) (table_oid : Oid) (s : Backend) :
  (reaches_IsToastClass sys table_oid = true
   <-> OidIsValid table_oid = true
       /\ exists classForm,
            SearchSysCache1_RELOID sys table_oid = Some classForm
            /\ relkind classForm = RELKIND_RELATION
            /\ FirstUnpinnedObjectId <= table_oid)
  /\ (if reaches_IsToastClass sys table_oid
      then check_backward_compatibility sys table_oid s = Crashed s
      else exists line,
             check_backward_compatibility sys table_oid s
             = Done (OidIsValid table_oid && relation_exists sys table_oid)
                    (logged [line] s)
             /\ line <> name_conflict_warning).
Proof.
  split.
  - unfold reaches_IsToastClass, IsCatalogRelationOid.
    rewrite andb_true_iff.
    destruct (SearchSysCache1_RELOID sys table_oid) as [classForm|].
    + rewrite andb_true_iff, negb_true_iff, Z.ltb_ge, Ascii.eqb_eq.
      split.
      * intros (Hv & Hkind & Hoid). split; [exact Hv|].
        exists classForm. split; [reflexivity|]. split; assumption.
      * intros (Hv & c & [= <-] & Hkind & Hoid). split; [exact Hv|]. split; assumption.
    + split; [intros [_ H]; discriminate H|intros (_ & c & H & _); discriminate H].
  - destruct (reaches_IsToastClass sys table_oid) eqn:H.
    + apply check_backward_compatibility_crashes, H.
    + apply check_backward_compatibility_returns, H.
Qed.

(** The three ways through the guard for a registered relation: a table
    of a user, a system catalog and a view. *)
Example check_backward_compatibility_orders :
  check_backward_compatibility syscache_orders 16384 backend_with_orders
  = Crashed backend_with_orders.
Proof. reflexivity. Qed.

Example check_backward_compatibility_pg_class :
  check_backward_compatibility syscache_pg_class 1259 fresh_backend
  = Done true (logged [(DEBUG1, "check_backward_compatibility: system table")] fresh_backend).
Proof. reflexivity. Qed.

Example check_backward_compatibility_view :
  check_backward_compatibility syscache_view 16400 fresh_backend
  = Done true
      (logged [(DEBUG1, "check_backward_compatibility: not an ordinary table")] fresh_backend).
Proof. reflexivity. Qed.

Lemma table_has_implicit_time_logged (table_oid : Oid) (s : Backend) :
  exists tag,
    table_has_implicit_time table_oid s
    = Done (OidIsValid table_oid
            && existsb (key_relid_attname table_oid IMPLICIT_TIME_COLUMN_NAME)
                       (implicit_rel s))
           (logged [(DEBUG1, tag)] s).
Proof. apply table_has_implicit_time_run. Qed.

(** X13.  [ensure_legacy_behavior] always returns and changes neither the
    catalog nor the invalidation queue.  It looks for a name collision
    only when [table_has_implicit_time] answers [false]: the collision
    warning is written exactly for such a table with the conflicting
    column, and never for a table that has its implicit time column. *)
Theorem X13_ensure_legacy_behavior_only_warns (sys : SysCache) (table_oid : Oid)
    (s : Backend) :
  exists lines,
    ensure_legacy_behavior sys table_oid s = Done tt (logged lines s)
    /\ (In name_conflict_warning lines
        <-> (OidIsValid table_oid = false
             \/ time_descriptors table_oid (implicit_rel s) = [])
            /\ has_name_conflict sys table_oid = true).
Proof.
  unfold ensure_legacy_behavior, bind.
  destruct (table_has_implicit_time_logged table_oid s) as [tag ->].
  destruct (OidIsValid table_oid) eqn:Hv; simpl.
  - destruct (existsb _ (implicit_rel s)) eqn:Hex; simpl.
    + exists [(DEBUG1, tag)]. split; [reflexivity|].
      apply existsb_time_descriptors_true in Hex.
      split; [intros [H|[]]; discriminate H|].
      intros ([H|H] & _); [discriminate H|contradiction].
    + apply existsb_time_descriptors in Hex.
      rewrite check_column_name_conflicts_run.
      change (write_log ?l ?s0) with (logged [l] s0). rewrite !logged_logged.
      eexists. split; [reflexivity|].
      destruct (has_name_conflict sys table_oid); simpl.
      * split; [intros _; split; [right; exact Hex|reflexivity]|].
        intros _. right. right. left. reflexivity.
      * split; [intros [H|[H|[]]]; discriminate H|intros (_ & H); discriminate H].
  - rewrite check_column_name_conflicts_run.
    change (write_log ?l ?s0) with (logged [l] s0). rewrite !logged_logged.
    eexists. split; [reflexivity|].
    destruct (has_name_conflict sys table_oid); simpl.
    + split; [intros _; split; [left; reflexivity|reflexivity]|].
      intros _. right. right. left. reflexivity.
    + split; [intros [H|[H|[]]]; discriminate H|intros (_ & H); discriminate H].
Qed.

Lemma ensure_legacy_behavior_logged (sys : SysCache) (table_oid : Oid) (s : Backend) :
  exists lines, ensure_legacy_behavior sys table_oid s = Done tt (logged lines s).
Proof.
  unfold ensure_legacy_behavior, bind.
  destruct (table_has_implicit_time_logged table_oid s) as [tag ->].
  destruct (OidIsValid table_oid && _); simpl.
  - eexists. reflexivity.
  - rewrite check_column_name_conflicts_run.
    change (write_log ?l ?s0) with (logged [l] s0). rewrite !logged_logged.
    eexists. reflexivity.
Qed.

(** Each of the per-operation checks answers [true] after writing to the
    log at most. *)
Lemma validate_by_lookup_logged (tag : string) (table_oid : Oid) (s : Backend) :
  exists lines,
    (do has <- table_has_implicit_time table_oid ;
     if negb has then ret true else do _ <- elog DEBUG2 tag ; ret true) s
    = Done true (logged lines s).
Proof.
  unfold bind.
  destruct (table_has_implicit_time_logged table_oid s) as [tag0 ->].
  destruct (OidIsValid table_oid && _); simpl.
  - change (write_log ?l ?s0) with (logged [l] s0). rewrite !logged_logged.
    eexists. reflexivity.
  - eexists. reflexivity.
Qed.

(** X14.  [validate_operation_compatibility] answers [false] for a NULL
    operation name, without any effect, and [true] for every other
    operation name, be it one of the four it knows or not, for every
    table; it always returns and changes neither the catalog nor the
    invalidation queue. *)
Theorem X14_validate_operation_is_permissive (sys : SysCache) (table_oid : Oid)
    (operation : option string) (s : Backend) :
  exists lines,
    validate_operation_compatibility sys table_oid operation s
    = Done (match operation with Some _ => true | None => false end) (logged lines s)
    /\ (operation = None -> lines = []).
Proof.
  destruct operation as [op|]; simpl.
  2:{ exists []. rewrite logged_nil. split; reflexivity. }
  unfold bind.
  destruct (ensure_legacy_behavior_logged sys table_oid s) as [l0 ->].
  assert (Hdone : forall (m : Exec bool),
            (exists l1, m (logged l0 s) = Done true (logged l1 (logged l0 s))) ->
            exists lines, m (logged l0 s) = Done true (logged lines s) /\ (Some op = None -> lines = [])).
  { intros m [l1 Hm]. exists (l0 ++ l1). rewrite Hm, logged_logged.
    split; [reflexivity|discriminate]. }
  destruct (String.eqb op "INSERT");
    [apply Hdone; apply validate_by_lookup_logged|].
  destruct (String.eqb op "UPDATE");
    [apply Hdone; apply validate_by_lookup_logged|].
  destruct (String.eqb op "DELETE").
  { apply Hdone. eexists.
    unfold validate_delete_compatibility, bind, elog, ret; simpl.
    change (write_log ?l ?s0) with (logged [l] s0). reflexivity. }
  destruct (String.eqb op "SELECT");
    [apply Hdone; apply validate_by_lookup_logged|].
  apply Hdone. exists []. rewrite logged_nil. reflexivity.
Qed.

(** ** [migrate_existing_table] beyond its precondition *)

(** The heap [migrate_existing_table] leaves when it goes through. *)
Lemma migrated_heap_add (rd : RelationData) (s s1 : Backend) :
  OidIsValid (RelationGetRelid rd) = true ->
  implicit_rel s1 = implicit_rel s ->
  exists s2 lines,
    add_implicit_time_column (Some rd) s1 = Done tt s2
    /\ implicit_rel s2
       = match time_descriptors (RelationGetRelid rd) (implicit_rel s) with
         | [] => implicit_rel s ++ [time_descriptor_of rd]
         | _ :: _ => implicit_rel s
         end
    /\ server_log s2 = server_log s1 ++ lines.
Proof.
  intros Hv Hheap.
  destruct (time_descriptors (RelationGetRelid rd) (implicit_rel s)) as [|d ds] eqn:Hd.
  - rewrite <- Hheap in Hd.
    destruct (add_implicit_time_column_inserts rd s1 Hd) as [tag Hrun].
    eexists. eexists. split; [exact Hrun|]. cbn [implicit_rel server_log].
    rewrite Hheap. split; reflexivity.
  - eexists. eexists. split.
    + apply add_implicit_time_column_present; [exact Hv|].
      rewrite Hheap, Hd. discriminate.
    + cbn [implicit_rel server_log]. rewrite Hheap. split; reflexivity.
Qed.

(** The relations on which the guard returns: those that are not
    ordinary tables, and the system catalogs. *)
Lemma reaches_IsToastClass_false (sys : SysCache) (table_oid : Oid)
    (classForm : FormData_pg_class) :
  SearchSysCache1_RELOID sys table_oid = Some classForm ->
  relkind classForm <> RELKIND_RELATION \/ table_oid < FirstUnpinnedObjectId ->
  reaches_IsToastClass sys table_oid = false.
Proof.
  intros Hclass Hsafe. unfold reaches_IsToastClass, IsCatalogRelationOid.
  rewrite Hclass. apply andb_false_iff. right. apply andb_false_iff.
  destruct Hsafe as [Hkind|Hoid].
  - left. apply Ascii.eqb_neq, Hkind.
  - right. apply negb_false_iff, Z.ltb_lt, Hoid.
Qed.

Section MigrateGoesThrough.

Variable table_open : Oid -> Exec Relation.
Variable sys : SysCache.
Variable table_oid0 : Oid.
Variable classForm : FormData_pg_class.

Hypothesis Hvalid : OidIsValid table_oid0 = true.
Hypothesis Hclass : SearchSysCache1_RELOID sys table_oid0 = Some classForm.
Hypothesis Hreturns :
  relkind classForm <> RELKIND_RELATION \/ table_oid0 < FirstUnpinnedObjectId.
Hypothesis Hopen :
  forall s, table_open table_oid0 s = Done (Some (mkRelation table_oid0 classForm)) s.

Lemma migrate_existing_table_goes_through (add_implicit_time : bool) (s : Backend) :
  exists s',
    migrate_existing_table table_open sys table_oid0 add_implicit_time s = Done true s'
    /\ implicit_rel s'
       = (if add_implicit_time
          then match time_descriptors table_oid0 (implicit_rel s) with
               | [] => implicit_rel s
                       ++ [time_descriptor_of (mkRelation table_oid0 classForm)]
               | _ :: _ => implicit_rel s
               end
          else other_descriptors table_oid0 (implicit_rel s))
    /\ relcache_inval s'
       = (if add_implicit_time
          then match time_descriptors table_oid0 (implicit_rel s) with
               | [] => relcache_inval s ++ [table_oid0]
               | _ :: _ => relcache_inval s
               end
          else match time_descriptors table_oid0 (implicit_rel s) with
               | [] => relcache_inval s
               | _ :: _ => relcache_inval s ++ [table_oid0]
               end).
Proof.
  unfold migrate_existing_table, bind.
  destruct (check_backward_compatibility_returns sys table_oid0 s
              (reaches_IsToastClass_false _ _ _ Hclass Hreturns)) as (line & -> & _).
  unfold relation_exists. rewrite Hvalid, Hclass. simpl.
  rewrite Hopen. unfold PG_TRY.
  set (rd := mkRelation table_oid0 classForm).
  assert (Hrd : OidIsValid (RelationGetRelid rd) = true) by exact Hvalid.
  destruct add_implicit_time; unfold bind;
    rewrite (table_has_implicit_time_valid _ _ Hvalid); cbn zeta;
    cbn [implicit_rel logged];
    destruct (time_descriptors table_oid0 (implicit_rel s)) as [|d ds] eqn:Hd.
  - assert (Hex : existsb (key_relid_attname table_oid0 IMPLICIT_TIME_COLUMN_NAME)
                          (implicit_rel s) = false)
      by (apply existsb_time_descriptors, Hd).
    rewrite Hex. cbn [negb].
    match goal with
    | |- context [add_implicit_time_column (Some rd) ?s1] =>
        destruct (add_implicit_time_column_inserts rd s1 Hd) as [tag ->]
    end.
    simpl. eexists. split; [reflexivity|]. split; reflexivity.
  - assert (Hex : existsb (key_relid_attname table_oid0 IMPLICIT_TIME_COLUMN_NAME)
                          (implicit_rel s) = true)
      by (apply existsb_time_descriptors_true; rewrite Hd; discriminate).
    rewrite Hex. simpl. eexists. split; [reflexivity|]. split; reflexivity.
  - assert (Hex : existsb (key_relid_attname table_oid0 IMPLICIT_TIME_COLUMN_NAME)
                          (implicit_rel s) = false)
      by (apply existsb_time_descriptors, Hd).
    rewrite Hex. simpl. eexists. split; [reflexivity|]. simpl.
    split; [symmetry; apply other_descriptors_id, Hd|reflexivity].
  - assert (Hne : time_descriptors (RelationGetRelid rd) (implicit_rel s) <> [])
      by (unfold rd; cbn; rewrite Hd; discriminate).
    assert (Hex : existsb (key_relid_attname table_oid0 IMPLICIT_TIME_COLUMN_NAME)
                          (implicit_rel s) = true)
      by (apply existsb_time_descriptors_true; rewrite Hd; discriminate).
    rewrite Hex. cbn [negb].
    match goal with
    | |- context [remove_implicit_time_column (Some rd) ?s1] =>
        rewrite (remove_implicit_time_column_present rd s1 Hrd Hne)
    end.
    simpl. eexists. split; [reflexivity|]. split; reflexivity.
Qed.

End MigrateGoesThrough.

(** X15.  For a relation the compatibility check returns on, one that is
    not an ordinary table (a view, say) or one whose identity is below
    [FirstUnpinnedObjectId] (a system catalog), once the identity is
    valid and registered and [table_open] hands out the relation,
    [migrate_existing_table] goes through and answers [true] whatever
    the relation's kind or persistence: in the add direction the table
    ends with the descriptor it had or, if it had none, with a new one at
    declared count plus 1; in the remove direction it ends with none. *)
Theorem X15_migrate_goes_through_where_check_returns (table_open : Oid -> Exec Relation)
    (sys : SysCache) (table_oid0 : Oid) (classForm : FormData_pg_class)
    (add_implicit_time : bool) (s : Backend) :
  OidIsValid table_oid0 = true ->
  SearchSysCache1_RELOID sys table_oid0 = Some classForm ->
  relkind classForm <> RELKIND_RELATION \/ table_oid0 < FirstUnpinnedObjectId ->
  (forall s0, table_open table_oid0 s0 = Done (Some (mkRelation table_oid0 classForm)) s0) ->
  exists s',
    migrate_existing_table table_open sys table_oid0 add_implicit_time s = Done true s'
    /\ implicit_rel s'
       = (if add_implicit_time
          then match time_descriptors table_oid0 (implicit_rel s) with
               | [] => implicit_rel s
                       ++ [mkImplicitForm table_oid0 IMPLICIT_TIME_COLUMN_NAME
                             (int16 (relnatts classForm + 1)) TIMESTAMPOID false]
               | _ :: _ => implicit_rel s
               end
          else other_descriptors table_oid0 (implicit_rel s)).
Proof.
  intros Hv Hclass Hreturns Hopen.
  destruct (migrate_existing_table_goes_through table_open sys table_oid0 classForm
              Hv Hclass Hreturns Hopen add_implicit_time s) as (s' & Hrun & Hheap & _).
  exists s'. split; [exact Hrun|exact Hheap].
Qed.

Lemma X15_witness :
  exists s',
    migrate_existing_table (table_open_syscache syscache_view) syscache_view 16400 true
      fresh_backend = Done true s'
    /\ implicit_rel s' = [mkImplicitForm 16400 "time" 2 TIMESTAMPOID false].
Proof.
  destruct (X15_migrate_goes_through_where_check_returns (table_open_syscache syscache_view)
              syscache_view 16400 recent_orders true fresh_backend)
    as (s' & Hrun & Hheap).
  - reflexivity.
  - vm_compute. reflexivity.
  - left. discriminate.
  - intros s0. vm_compute. reflexivity.
  - exists s'. split; [exact Hrun|]. rewrite Hheap. reflexivity.
Defined.

(** X16.  Under the same conditions [migrate_existing_table] is
    idempotent in either direction: a second call with the same direction
    answers [true] again and leaves the catalog and the invalidation
    queue as the first call left them. *)
Theorem X16_migrate_is_idempotent (table_open : Oid -> Exec Relation)
    (sys : SysCache) (table_oid0 : Oid) (classForm : FormData_pg_class)
    (add_implicit_time : bool) (s : Backend) :
  OidIsValid table_oid0 = true ->
  SearchSysCache1_RELOID sys table_oid0 = Some classForm ->
  relkind classForm <> RELKIND_RELATION \/ table_oid0 < FirstUnpinnedObjectId ->
  (forall s0, table_open table_oid0 s0 = Done (Some (mkRelation table_oid0 classForm)) s0) ->
  exists s1 s2,
    migrate_existing_table table_open sys table_oid0 add_implicit_time s = Done true s1
    /\ migrate_existing_table table_open sys table_oid0 add_implicit_time s1 = Done true s2
    /\ implicit_rel s2 = implicit_rel s1
    /\ relcache_inval s2 = relcache_inval s1.
Proof.
  intros Hv Hclass Hreturns Hopen.
  destruct (migrate_existing_table_goes_through table_open sys table_oid0 classForm
              Hv Hclass Hreturns Hopen add_implicit_time s) as (s1 & Hrun1 & Hheap1 & _).
  destruct (migrate_existing_table_goes_through table_open sys table_oid0 classForm
              Hv Hclass Hreturns Hopen add_implicit_time s1)
    as (s2 & Hrun2 & Hheap2 & Hinv2).
  exists s1, s2. split; [exact Hrun1|]. split; [exact Hrun2|].
  destruct add_implicit_time.
  - assert (Hsome : time_descriptors table_oid0 (implicit_rel s1) <> []).
    { rewrite Hheap1.
      destruct (time_descriptors table_oid0 (implicit_rel s)) as [|d ds] eqn:Hd.
      - change table_oid0 with (RelationGetRelid (mkRelation table_oid0 classForm)) at 1.
        rewrite time_descriptors_time_descriptor_of. cbn [RelationGetRelid rd_id].
        rewrite Hd. discriminate.
      - rewrite Hd. discriminate. }
    destruct (time_descriptors table_oid0 (implicit_rel s1)); [congruence|].
    split; assumption.
  - assert (Hnone : time_descriptors table_oid0 (implicit_rel s1) = [])
      by (rewrite Hheap1; apply time_descriptors_other).
    rewrite Hnone in Hinv2. split; [|exact Hinv2].
    rewrite Hheap2. apply other_descriptors_id, Hnone.
Qed.

Lemma X16_witness :
  exists s1 s2,
    migrate_existing_table (table_open_syscache syscache_view) syscache_view 16400 true
      fresh_backend = Done true s1
    /\ migrate_existing_table (table_open_syscache syscache_view) syscache_view 16400 true
         s1 = Done true s2
    /\ implicit_rel s2 = implicit_rel s1
    /\ relcache_inval s2 = relcache_inval s1.
Proof.
  apply (X16_migrate_is_idempotent (table_open_syscache syscache_view) syscache_view
           16400 recent_orders true fresh_backend).
  - reflexivity.
  - vm_compute. reflexivity.
  - left. discriminate.
  - intros s0. vm_compute. reflexivity.
Defined.

(** X17.  Under the same conditions, for a table without a descriptor,
    migrating in the add direction and then in the remove direction gives
    back the catalog heap as it was; both calls answer [true]. *)
Theorem X17_migrate_add_then_remove_restores_catalog (table_open : Oid -> Exec Relation)
    (sys : SysCache) (table_oid0 : Oid) (classForm : FormData_pg_class) (s : Backend) :
  OidIsValid table_oid0 = true ->
  SearchSysCache1_RELOID sys table_oid0 = Some classForm ->
  relkind classForm <> RELKIND_RELATION \/ table_oid0 < FirstUnpinnedObjectId ->
  (forall s0, table_open table_oid0 s0 = Done (Some (mkRelation table_oid0 classForm)) s0) ->
  time_descriptors table_oid0 (implicit_rel s) = [] ->
  exists s1 s2,
    migrate_existing_table table_open sys table_oid0 true s = Done true s1
    /\ migrate_existing_table table_open sys table_oid0 false s1 = Done true s2
    /\ implicit_rel s2 = implicit_rel s.
Proof.
  intros Hv Hclass Hreturns Hopen Hnone.
  destruct (migrate_existing_table_goes_through table_open sys table_oid0 classForm
              Hv Hclass Hreturns Hopen true s) as (s1 & Hrun1 & Hheap1 & _).
  destruct (migrate_existing_table_goes_through table_open sys table_oid0 classForm
              Hv Hclass Hreturns Hopen false s1) as (s2 & Hrun2 & Hheap2 & _).
  exists s1, s2. split; [exact Hrun1|]. split; [exact Hrun2|].
  rewrite Hheap2, Hheap1, Hnone, other_descriptors_app.
  change table_oid0 with (RelationGetRelid (mkRelation table_oid0 classForm)) at 2.
  rewrite other_descriptors_time_descriptor_of, app_nil_r.
  apply other_descriptors_id, Hnone.
Qed.

Lemma X17_witness :
  exists s1 s2,
    migrate_existing_table (table_open_syscache syscache_pg_class) syscache_pg_class 1259 true
      backend_with_orders = Done true s1
    /\ migrate_existing_table (table_open_syscache syscache_pg_class) syscache_pg_class 1259
         false s1 = Done true s2
    /\ implicit_rel s2 = implicit_rel backend_with_orders.
Proof.
  apply (X17_migrate_add_then_remove_restores_catalog (table_open_syscache syscache_pg_class)
           syscache_pg_class 1259 (mkClassForm "pg_class" RELKIND_RELATION "p"%char 33)
           backend_with_orders).
  - reflexivity.
  - vm_compute. reflexivity.
  - right. reflexivity.
  - intros s0. vm_compute. reflexivity.
  - reflexivity.
Defined.

(** X18.  The answer of [migrate_existing_table] carries no information:
    whenever the call returns at all, for any table, direction, catalog
    state and behaviour of [table_open], it returns [true].  The call
    does return for some tables: a view, say. *)
Theorem X18_migrate_never_answers_false (table_open : Oid -> Exec Relation)
    (sys : SysCache) (table_oid0 : Oid) (add_implicit_time : bool)
    (s s' : Backend) (answer : bool) :
  migrate_existing_table table_open sys table_oid0 add_implicit_time s = Done answer s' ->
  answer = true.
Proof.
  unfold migrate_existing_table, bind.
  destruct (check_backward_compatibility_logged sys table_oid0 s) as [->|[lines ->]];
    [discriminate|].
  destruct (OidIsValid table_oid0 && relation_exists sys table_oid0);
    [|unfold elog; simpl; discriminate].
  cbn [negb]. destruct (table_open table_oid0 _) as [rel s1|s1|s1]; try discriminate.
  unfold PG_TRY.
  destruct add_implicit_time; unfold bind;
    destruct (table_has_implicit_time_logged table_oid0 s1) as [tag ->];
    destruct (OidIsValid table_oid0 && _); cbn [negb].
  - unfold elog, ret; simpl. intros [= <- _]. reflexivity.
  - destruct (add_implicit_time_column rel _) as [[] s2|s2|s2];
      unfold elog, ret; simpl; [intros [= <- _]; reflexivity|discriminate|discriminate].
  - destruct (remove_implicit_time_column rel _) as [[] s2|s2|s2];
      unfold elog, ret; simpl; [intros [= <- _]; reflexivity|discriminate|discriminate].
  - unfold elog, ret; simpl. intros [= <- _]. reflexivity.
Qed.

Lemma X18_witness :
  exists s',
    migrate_existing_table (table_open_syscache syscache_view) syscache_view 16400 false
      backend_with_orders = Done true s'.
Proof.
  assert (Hrun : exists answer s',
            migrate_existing_table (table_open_syscache syscache_view) syscache_view
              16400 false backend_with_orders = Done answer s')
    by (eexists; eexists; vm_compute; reflexivity).
  destruct Hrun as (answer & s' & Hrun).
  exists s'. rewrite Hrun. f_equal.
  exact (X18_migrate_never_answers_false _ _ _ _ _ _ _ Hrun).
Defined.



(** * Further properties of the scan *)

Lemma set_am_tuples_same (node : ScanState) :
  set_am_tuples node (am_tuples node) = node.
Proof. destruct node. reflexivity. Qed.

Lemma ExecScan_loop_skips (node : ScanState) (skipped : list TupleTableSlot) :
  forall (tuples : list TupleTableSlot),
    List.filter (passes_qual node) skipped = [] ->
    ExecScan_loop (ps_qual node) (ps_ProjInfo node) (skipped ++ tuples)
    = ExecScan_loop (ps_qual node) (ps_ProjInfo node) tuples.
Proof.
  induction skipped as [|t skipped IH]; intros tuples Hnone; [reflexivity|].
  simpl in *. unfold passes_qual in Hnone at 1.
  destruct (match ps_qual node with None => true | Some ExecQual => ExecQual t end);
    [discriminate|].
  apply IH, Hnone.
Qed.

Lemma ExecScan_by_loop (node : ScanState) :
  ExecScan node
  = let (slot, rest) := ExecScan_loop (ps_qual node) (ps_ProjInfo node) (am_tuples node) in
    (slot, set_am_tuples node rest).
Proof.
  unfold ExecScan, ExecScanFetch.
  destruct (ps_qual node) eqn:Hq; [reflexivity|].
  destruct (ps_ProjInfo node) eqn:Hp; [reflexivity|].
  destruct (am_tuples node) as [|t rest] eqn:Ht; simpl.
  - rewrite <- Ht. rewrite set_am_tuples_same. reflexivity.
  - reflexivity.
Qed.

(** The two ways a call of [ExecScan] can go. *)
Lemma ExecScan_cases (node : ScanState) :
  (List.filter (passes_qual node) (am_tuples node) = []
   /\ ExecScan node = (None, set_am_tuples node []))
  \/ exists skipped tuple rest,
       am_tuples node = skipped ++ tuple :: rest
       /\ List.filter (passes_qual node) skipped = []
       /\ passes_qual node tuple = true
       /\ ExecScan node = (Some (projected node tuple), set_am_tuples node rest).
Proof.
  rewrite ExecScan_by_loop.
  induction (am_tuples node) as [|t tuples IH].
  - left. split; reflexivity.
  - simpl. unfold passes_qual at 1 3.
    destruct (match ps_qual node with None => true | Some ExecQual => ExecQual t end) eqn:Hq.
    + right. exists [], t, tuples. split; [reflexivity|]. split; [reflexivity|].
      split; [exact Hq|reflexivity].
    + destruct IH as [[Hnone Hrun]|(skipped & tuple & rest & Hsplit & Hskip & Hpass & Hrun)].
      * left. split; [exact Hnone|exact Hrun].
      * right. exists (t :: skipped), tuple, rest.
        split; [rewrite Hsplit; reflexivity|]. split; [|split; [exact Hpass|exact Hrun]].
        simpl. unfold passes_qual at 1. rewrite Hq. exact Hskip.
Qed.

(** X20.  [ExecScan] returns the first tuple of the access method that
    satisfies the qualification, projected when the node projects; the
    tuples before it, which all fail the qualification, are consumed, and
    the scan is left positioned right after the tuple returned. *)
Theorem X20_ExecScan_returns_first_qualifying_tuple (node : ScanState)
    (skipped rest : list TupleTableSlot) (tuple : TupleTableSlot) :
  am_tuples node = skipped ++ tuple :: rest ->
  List.filter (passes_qual node) skipped = [] ->
  passes_qual node tuple = true ->
  ExecScan node = (Some (projected node tuple), set_am_tuples node rest).
Proof.
  intros Hsplit Hskip Hpass. rewrite ExecScan_by_loop, Hsplit.
  rewrite (ExecScan_loop_skips node skipped _ Hskip). simpl.
  unfold passes_qual in Hpass. rewrite Hpass. reflexivity.
Qed.

(** X21.  [ExecScan] returns no tuple exactly when none of the tuples
    the access method still has satisfies the qualification; it has then
    consumed them all. *)
Theorem X21_ExecScan_returns_nothing_iff_none_qualifies (node : ScanState) :
  (fst (ExecScan node) = None
   <-> List.filter (passes_qual node) (am_tuples node) = [])
  /\ (fst (ExecScan node) = None -> am_tuples (snd (ExecScan node)) = []).
Proof.
  destruct (ExecScan_cases node)
    as [[Hnone ->]|(skipped & tuple & rest & Hsplit & Hskip & Hpass & ->)]; simpl.
  - split; [split; intros _; [exact Hnone|reflexivity]|reflexivity].
  - split; [split; [discriminate|]|discriminate].
    rewrite Hsplit, List.filter_app, Hskip. simpl. rewrite Hpass. discriminate.
Qed.

(** X22.  Calling [ExecScan] on a node again and again, until it returns
    no tuple, yields exactly the tuples of the access method that satisfy
    the qualification, in their order, each projected; one call more than
    there are tuples is always enough. *)
Theorem X22_scan_yields_the_qualifying_tuples (calls : nat) :
  forall (node : ScanState),
    (length (am_tuples node) < calls)%nat ->
    scan_rows calls node
    = map (projected node) (List.filter (passes_qual node) (am_tuples node)).
Proof.
  induction calls as [|calls IH]; intros node Hcalls; [lia|].
  simpl.
  destruct (ExecScan_cases node)
    as [[Hnone ->]|(skipped & tuple & rest & Hsplit & Hskip & Hpass & ->)].
  - rewrite Hnone. reflexivity.
  - rewrite Hsplit, List.filter_app, Hskip. simpl. rewrite Hpass. simpl.
    f_equal. rewrite Hsplit, length_app in Hcalls. simpl in Hcalls.
    rewrite (IH (set_am_tuples node rest)) by (simpl; lia).
    reflexivity.
Qed.

(** A scan of four rows that keeps those whose first cell is set and
    projects them on that cell. *)
Lemma X22_witness :
  scan_rows 5
    (mkScanState
       (Some (fun t => match tts_values t with Some _ :: _ => true | _ => false end))
       (Some (fun t => mkSlot (firstn 1 (tts_values t))))
       None
       [mkSlot [Some 1; Some 10]; mkSlot [None; Some 20];
        mkSlot [Some 3; None]; mkSlot []])
  = [mkSlot [Some 1]; mkSlot [Some 3]].
Proof.
  rewrite X22_scan_yields_the_qualifying_tuples by (simpl; lia).
  reflexivity.
Defined.

Lemma X20_witness :
  ExecScan
    (mkScanState
       (Some (fun t => match tts_values t with Some _ :: _ => true | _ => false end))
       None None [mkSlot [None; Some 20]; mkSlot [Some 3; None]; mkSlot []])
  = (Some (mkSlot [Some 3; None]),
     mkScanState
       (Some (fun t => match tts_values t with Some _ :: _ => true | _ => false end))
       None None [mkSlot []]).
Proof.
  apply (X20_ExecScan_returns_first_qualifying_tuple
           (mkScanState
              (Some (fun t => match tts_values t with Some _ :: _ => true | _ => false end))
              None None [mkSlot [None; Some 20]; mkSlot [Some 3; None]; mkSlot []])
           [mkSlot [None; Some 20]] [mkSlot []] (mkSlot [Some 3; None]));
    reflexivity.
Defined.

(** X23.  For a node whose relation is NULL or has no implicit time
    column, the scan hook is [ExecScan]: it returns the same row and the
    same scan position, never fetches an attribute from the row (whatever
    [slot_getattr] would do), and changes neither the catalog nor the
    invalidation queue. *)
Theorem X23_hook_is_ExecScan_for_legacy_tables
    (slot_getattr : TupleTableSlot -> AttrNumber -> Exec (Datum * bool))
    (node : ScanState) (s : Backend) :
  match ss_currentRelation node with
  | Some rd => time_descriptors (RelationGetRelid rd) (implicit_rel s) = []
  | None => True
  end ->
  exists lines,
    ExecScanWithImplicitColumns slot_getattr node s = Done (ExecScan node) (logged lines s).
Proof.
  intros Hlegacy. unfold ExecScanWithImplicitColumns.
  destruct (ExecScan node) as [[tuple|] node'].
  - destruct (ss_currentRelation node) as [rd|].
    + unfold bind.
      destruct (table_has_implicit_time_absent _ _ Hlegacy) as [tag ->].
      exists [(DEBUG1, tag)]. reflexivity.
    + exists []. rewrite logged_nil. reflexivity.
  - exists []. rewrite logged_nil. reflexivity.
Qed.

Lemma X23_witness :
  exists lines,
    ExecScanWithImplicitColumns
      (fun _ _ => do _ <- elog ERROR "slot_getattr: not to be called" ; ret (0, true))
      orders_scan fresh_backend
    = Done (ExecScan orders_scan) (logged lines fresh_backend).
Proof.
  apply (X23_hook_is_ExecScan_for_legacy_tables _ orders_scan fresh_backend).
  reflexivity.
Defined.

(** * Properties of the error-context stack *)

Lemma stack_ok_initial : stack_ok implicit_error_context_stack.
Proof.
  unfold stack_ok, implicit_error_context_stack, MAX_ERROR_CONTEXT_DEPTH. simpl.
  split; [reflexivity|]. split; [lia|].
  intros i _ Hi. apply (lookup_replicate_2 10 None i). exact Hi.
Qed.

Lemma push_run (context : option string) (stack : ErrorContextStack) (s : Backend) :
  stack_ok stack ->
  implicit_time_error_context_push context stack s
  = if depth stack =? MAX_ERROR_CONTEXT_DEPTH
    then Done stack
           (logged [(WARNING, "implicit_time_error_context_push: context stack overflow")] s)
    else match context with
         | Some c =>
             Done (mkErrorContextStack
                     (<[Z.to_nat (depth stack) := Some c]> (contexts stack))
                     (depth stack + 1)) s
         | None => Done stack s
         end.
Proof.
  intros (_ & Hdepth & _). unfold implicit_time_error_context_push.
  unfold MAX_ERROR_CONTEXT_DEPTH in *.
  destruct (depth stack =? 10) eqn:Hfull.
  - apply Z.eqb_eq in Hfull. rewrite Hfull. reflexivity.
  - apply Z.eqb_neq in Hfull.
    replace (10 <=? depth stack) with false by (symmetry; apply Z.leb_gt; lia).
    destruct context as [c|]; [|reflexivity].
    rewrite int32_small by lia. reflexivity.
Qed.

Lemma pop_run (stack : ErrorContextStack) :
  stack_ok stack ->
  implicit_time_error_context_pop stack
  = if depth stack =? 0 then stack
    else mkErrorContextStack
           (<[Z.to_nat (depth stack - 1) := None]> (contexts stack)) (depth stack - 1).
Proof.
  intros (Hlen & Hdepth & _). unfold implicit_time_error_context_pop.
  unfold MAX_ERROR_CONTEXT_DEPTH in *.
  destruct (depth stack =? 0) eqn:Hempty.
  - apply Z.eqb_eq in Hempty. rewrite Hempty. reflexivity.
  - apply Z.eqb_neq in Hempty.
    replace (0 <? depth stack) with true by (symmetry; apply Z.ltb_lt; lia).
    cbn zeta. rewrite int32_small by lia.
    destruct (contexts stack !! Z.to_nat (depth stack - 1)) as [[c|]|] eqn:Hcell.
    + reflexivity.
    + rewrite (list_insert_id _ _ _ Hcell). reflexivity.
    + apply lookup_ge_None in Hcell. lia.
Qed.

(** X24.  The error-context stack keeps its shape: starting from a stack
    whose array has its ten cells, whose depth lies between 0 and 10 and
    whose cells at and above the depth are NULL (as the initial stack
    is), a push of any context, NULL included, and a pop both lead to
    such a stack again; a push always returns, after writing to the log
    at most, and a pop lowers the depth by one unless it is 0. *)
Theorem X24_context_stack_keeps_its_shape (context : option string)
    (stack : ErrorContextStack) (s : Backend) :
  stack_ok stack ->
  (exists stack' lines,
     implicit_time_error_context_push context stack s = Done stack' (logged lines s)
     /\ stack_ok stack'
     /\ (depth stack' = depth stack \/ depth stack' = depth stack + 1))
  /\ stack_ok (implicit_time_error_context_pop stack)
  /\ (depth (implicit_time_error_context_pop stack) = Z.max 0 (depth stack - 1)).
Proof.
  intros Hok. pose proof Hok as (Hlen & Hdepth & Hnull).
  unfold MAX_ERROR_CONTEXT_DEPTH in *.
  split; [|split].
  - rewrite (push_run context stack s Hok). unfold MAX_ERROR_CONTEXT_DEPTH.
    destruct (depth stack =? 10) eqn:Hfull.
    + eexists. eexists. split; [reflexivity|]. split; [exact Hok|left; reflexivity].
    + apply Z.eqb_neq in Hfull. destruct context as [c|].
      * eexists. exists []. rewrite logged_nil. split; [reflexivity|].
        split; [|right; reflexivity].
        unfold stack_ok, MAX_ERROR_CONTEXT_DEPTH. cbn [contexts depth].
        rewrite length_insert. split; [exact Hlen|]. split; [lia|].
        intros i Hlo Hhi. rewrite list_lookup_insert_ne by lia.
        apply Hnull; lia.
      * exists stack, []. rewrite logged_nil. split; [reflexivity|].
        split; [exact Hok|left; reflexivity].
  - rewrite (pop_run stack Hok).
    destruct (depth stack =? 0) eqn:Hempty; [exact Hok|].
    apply Z.eqb_neq in Hempty.
    unfold stack_ok, MAX_ERROR_CONTEXT_DEPTH. cbn [contexts depth].
    rewrite length_insert. split; [exact Hlen|]. split; [lia|].
    intros i Hlo Hhi.
    destruct (Nat.eq_dec i (Z.to_nat (depth stack - 1))) as [->|Hne].
    + apply list_lookup_insert_eq. lia.
    + rewrite list_lookup_insert_ne by lia. apply Hnull; lia.
  - rewrite (pop_run stack Hok).
    destruct (depth stack =? 0) eqn:Hempty.
    + apply Z.eqb_eq in Hempty. rewrite Hempty. reflexivity.
    + apply Z.eqb_neq in Hempty. cbn [depth]. lia.
Qed.

Lemma X24_witness :
  stack_ok implicit_error_context_stack
  /\ (exists stack' lines,
        implicit_time_error_context_push (Some "ALTER TABLE") implicit_error_context_stack
          fresh_backend = Done stack' (logged lines fresh_backend)
        /\ stack_ok stack'
        /\ (depth stack' = depth implicit_error_context_stack
            \/ depth stack' = depth implicit_error_context_stack + 1))
  /\ stack_ok (implicit_time_error_context_pop implicit_error_context_stack)
  /\ depth (implicit_time_error_context_pop implicit_error_context_stack)
     = Z.max 0 (depth implicit_error_context_stack - 1).
Proof.
  split; [exact stack_ok_initial|].
  apply (X24_context_stack_keeps_its_shape (Some "ALTER TABLE")
           implicit_error_context_stack fresh_backend stack_ok_initial).
Defined.

(** X25.  On a stack that is not full, pushing a context stores it in
    the cell at the old depth, leaves every other cell alone, writes
    nothing to the log, and a pop right after gives back the stack as it
    was before the push. *)
Theorem X25_push_then_pop_restores_the_stack (c : string) (stack : ErrorContextStack)
    (s : Backend) :
  stack_ok stack ->
  depth stack < MAX_ERROR_CONTEXT_DEPTH ->
  exists stack',
    implicit_time_error_context_push (Some c) stack s = Done stack' s
    /\ depth stack' = depth stack + 1
    /\ contexts stack' !! Z.to_nat (depth stack) = Some (Some c)
    /\ (forall i, i <> Z.to_nat (depth stack) -> contexts stack' !! i = contexts stack !! i)
    /\ implicit_time_error_context_pop stack' = stack.
Proof.
  intros Hok Hroom. pose proof Hok as (Hlen & Hdepth & Hnull).
  unfold MAX_ERROR_CONTEXT_DEPTH in *.
  rewrite (push_run (Some c) stack s Hok). unfold MAX_ERROR_CONTEXT_DEPTH.
  replace (depth stack =? 10) with false by (symmetry; apply Z.eqb_neq; lia).
  eexists. split; [reflexivity|]. cbn [depth contexts].
  split; [reflexivity|]. split; [apply list_lookup_insert_eq; lia|].
  split; [intros i Hi; apply list_lookup_insert_ne; congruence|].
  unfold implicit_time_error_context_pop. cbn [depth contexts].
  replace (0 <? depth stack + 1) with true by (symmetry; apply Z.ltb_lt; lia).
  cbn zeta. rewrite int32_small by lia.
  replace (depth stack + 1 - 1) with (depth stack) by lia.
  rewrite list_lookup_insert_eq by lia.
  rewrite list_insert_insert_eq, list_insert_id by (apply Hnull; lia).
  destruct stack. reflexivity.
Qed.

Lemma X25_witness :
  exists stack',
    implicit_time_error_context_push (Some "ALTER TABLE") implicit_error_context_stack
      fresh_backend = Done stack' fresh_backend
    /\ depth stack' = 1
    /\ implicit_time_error_context_pop stack' = implicit_error_context_stack.
Proof.
  destruct (X25_push_then_pop_restores_the_stack "ALTER TABLE"
              implicit_error_context_stack fresh_backend stack_ok_initial)
    as (stack' & Hpush & Hdepth & _ & _ & Hpop).
  - vm_compute. reflexivity.
  - exists stack'. split; [exact Hpush|]. split; [exact Hdepth|exact Hpop].
Defined.

(** X26.  On a full stack a push is dropped: the stack is unchanged, a
    warning is logged (also when the context is NULL, the overflow test
    coming first) and the call returns; a pop that follows therefore
    removes the context pushed tenth, not the one that was dropped.  On
    an empty stack a pop changes nothing, and on a stack that is not full
    a push of NULL changes nothing and logs nothing. *)
Theorem X26_context_stack_at_its_bounds (context : option string)
    (stack : ErrorContextStack) (s : Backend) :
  stack_ok stack ->
  (depth stack = MAX_ERROR_CONTEXT_DEPTH ->
   implicit_time_error_context_push context stack s
   = Done stack
       (logged [(WARNING, "implicit_time_error_context_push: context stack overflow")] s)
   /\ depth (implicit_time_error_context_pop stack) = MAX_ERROR_CONTEXT_DEPTH - 1
   /\ contexts (implicit_time_error_context_pop stack)
        !! Z.to_nat (MAX_ERROR_CONTEXT_DEPTH - 1) = Some None)
  /\ (depth stack = 0 -> implicit_time_error_context_pop stack = stack)
  /\ (depth stack < MAX_ERROR_CONTEXT_DEPTH ->
      implicit_time_error_context_push None stack s = Done stack s).
Proof.
  intros Hok. pose proof Hok as (Hlen & Hdepth & Hnull).
  unfold MAX_ERROR_CONTEXT_DEPTH in *.
  split; [|split].
  - intros Hfull. rewrite (push_run context stack s Hok), (pop_run stack Hok).
    unfold MAX_ERROR_CONTEXT_DEPTH. rewrite Hfull. simpl.
    split; [reflexivity|]. split; [reflexivity|].
    apply list_lookup_insert_eq. lia.
  - intros Hempty. rewrite (pop_run stack Hok), Hempty. reflexivity.
  - intros Hroom. rewrite (push_run None stack s Hok). unfold MAX_ERROR_CONTEXT_DEPTH.
    replace (depth stack =? 10) with false by (symmetry; apply Z.eqb_neq; lia).
    reflexivity.
Qed.

(** A stack filled with ten contexts. *)
Lemma X26_witness :
  let full := mkErrorContextStack (replicate 10 (Some "ctx")) 10 in
  stack_ok full
  /\ implicit_time_error_context_push (Some "eleventh") full fresh_backend
     = Done full
         (logged [(WARNING, "implicit_time_error_context_push: context stack overflow")]
                 fresh_backend)
  /\ depth (implicit_time_error_context_pop full) = 9.
Proof.
  assert (Hok : stack_ok (mkErrorContextStack (replicate 10 (Some "ctx")) 10)).
  { unfold stack_ok, MAX_ERROR_CONTEXT_DEPTH. simpl.
    split; [reflexivity|]. split; [lia|]. intros i Hlo Hhi. lia. }
  destruct (X26_context_stack_at_its_bounds (Some "eleventh") _ fresh_backend Hok)
    as (Hfull & _ & _).
  destruct (Hfull eq_refl) as (Hpush & Hdepth & _).
  split; [exact Hok|]. split; [exact Hpush|exact Hdepth].
Defined.

(** * Two more invariants *)

Lemma forallb_filter_keeps {A} (p keep : A -> bool) (l : list A) :
  forallb p l = true -> forallb p (List.filter keep l) = true.
Proof.
  induction l as [|x l IH]; simpl; [reflexivity|].
  intros H. apply andb_true_iff in H. destruct H as [Hx Hl].
  destruct (keep x); simpl; [rewrite Hx|]; apply IH, Hl.
Qed.

(** X27.  Every descriptor [add_implicit_time_column] writes passes the
    type allow-list [validate_implicit_column_type] and is hidden; so a
    catalog in which all descriptors are of an allowed type and hidden
    stays such a catalog under [add_implicit_time_column] and
    [remove_implicit_time_column], however the calls end. *)
Theorem X27_descriptors_stay_allowed_and_hidden (rel : Relation) (s : Backend) :
  forallb allowed_and_hidden (implicit_rel s) = true ->
  forallb allowed_and_hidden
    (implicit_rel (final_backend (add_implicit_time_column rel s))) = true
  /\ forallb allowed_and_hidden
       (implicit_rel (final_backend (remove_implicit_time_column rel s))) = true.
Proof.
  intros Hall. split.
  - destruct (add_implicit_time_column_final_heap rel s) as [->|(rd & _ & _ & ->)];
      [exact Hall|].
    rewrite forallb_app, Hall. reflexivity.
  - destruct (remove_implicit_time_column_final_heap rel s) as [->|(rd & _ & ->)];
      [exact Hall|].
    apply forallb_filter_keeps, Hall.
Qed.

Lemma X27_witness :
  forallb allowed_and_hidden (implicit_rel backend_with_orders) = true
  /\ forallb allowed_and_hidden
       (implicit_rel
          (final_backend
             (add_implicit_time_column
                (Some (mkRelation 16401 (mkClassForm "items" RELKIND_RELATION "p"%char 4)))
                backend_with_orders))) = true.
Proof.
  split; [reflexivity|].
  apply (X27_descriptors_stay_allowed_and_hidden _ backend_with_orders). reflexivity.
Defined.

Lemma get_current_timestamp_value (GetCurrentTimestamp : TimestampTz)
    (timestamptz_timestamp : TimestampTz -> Timestamp) :
  INT64_MIN <= timestamptz_timestamp GetCurrentTimestamp <= INT64_MAX ->
  get_current_timestamp GetCurrentTimestamp timestamptz_timestamp
  = 1000000 * (timestamptz_timestamp GetCurrentTimestamp ÷ 1000000).
Proof.
  unfold get_current_timestamp, USECS_PER_SEC.
  generalize (timestamptz_timestamp GetCurrentTimestamp). clear.
  intros now Hrange. unfold INT64_MIN, INT64_MAX in Hrange.
  destruct (quot_toward_zero now 1000000 ltac:(lia)) as [Hpos Hneg].
  assert (Hbounds : -9223372036854775808 <= 1000000 * (now ÷ 1000000) <= 9223372036854775807
                    /\ -9223372036854775808 <= now ÷ 1000000 <= 9223372036854775807).
  { destruct (Z_le_gt_dec 0 now) as [H0|H0];
      [specialize (Hpos H0)|specialize (Hneg ltac:(lia))]; lia. }
  rewrite (int64_small (now ÷ 1000000)) by (unfold INT64_MIN, INT64_MAX; lia).
  rewrite int64_small by (unfold INT64_MIN, INT64_MAX; lia). lia.
Qed.

(** X28.  The truncated timestamp is monotone in the time it is taken
    from: a later time never yields an earlier stamp.  From the epoch on,
    two times at least one second apart yield stamps at least one second
    apart.  Truncating is idempotent: a stamp taken as the time yields
    itself. *)
Theorem X28_truncation_is_monotone_and_idempotent (clock1 clock2 : TimestampTz)
    (timestamptz_timestamp : TimestampTz -> Timestamp) :
  INT64_MIN <= timestamptz_timestamp clock1 <= INT64_MAX ->
  INT64_MIN <= timestamptz_timestamp clock2 <= INT64_MAX ->
  timestamptz_timestamp clock1 <= timestamptz_timestamp clock2 ->
  get_current_timestamp clock1 timestamptz_timestamp
  <= get_current_timestamp clock2 timestamptz_timestamp
  /\ (0 <= timestamptz_timestamp clock1 ->
      timestamptz_timestamp clock1 + USECS_PER_SEC <= timestamptz_timestamp clock2 ->
      get_current_timestamp clock1 timestamptz_timestamp + USECS_PER_SEC
      <= get_current_timestamp clock2 timestamptz_timestamp)
  /\ get_current_timestamp (get_current_timestamp clock1 timestamptz_timestamp) (fun t => t)
     = get_current_timestamp clock1 timestamptz_timestamp.
Proof.
  intros Hr1 Hr2 Hle.
  pose proof (get_current_timestamp_value clock1 timestamptz_timestamp Hr1) as Hv1.
  pose proof (get_current_timestamp_value clock2 timestamptz_timestamp Hr2) as Hv2.
  rewrite Hv1, Hv2. unfold USECS_PER_SEC.
  set (a := timestamptz_timestamp clock1) in *.
  set (b := timestamptz_timestamp clock2) in *.
  pose proof (Z.quot_le_mono a b 1000000 ltac:(lia) Hle) as Hmono.
  split; [lia|]. split.
  - intros Ha Hsec.
    destruct (quot_toward_zero a 1000000 ltac:(lia)) as [Hpa _]. specialize (Hpa Ha).
    destruct (quot_toward_zero b 1000000 ltac:(lia)) as [Hpb _]. specialize (Hpb ltac:(lia)).
    lia.
  - assert (Hr : INT64_MIN <= 1000000 * (a ÷ 1000000) <= INT64_MAX).
    { unfold INT64_MIN, INT64_MAX in *.
      destruct (quot_toward_zero a 1000000 ltac:(lia)) as [Hpa Hna].
      destruct (Z_le_gt_dec 0 a) as [H0|H0];
        [specialize (Hpa H0)|specialize (Hna ltac:(lia))]; lia. }
    rewrite (get_current_timestamp_value _ (fun t => t) Hr).
    rewrite (Z.mul_comm 1000000 (a ÷ 1000000)), Z.quot_mul by lia. lia.
Qed.

Lemma X28_witness :
  get_current_timestamp clock_reading (fun t => t)
  <= get_current_timestamp (clock_reading + 1000000) (fun t => t)
  /\ get_current_timestamp clock_reading (fun t => t) + USECS_PER_SEC
     <= get_current_timestamp (clock_reading + 1000000) (fun t => t).
Proof.
  destruct (X28_truncation_is_monotone_and_idempotent clock_reading
              (clock_reading + 1000000) (fun t => t)) as (Hmono & Hstrict & _).
  - vm_compute. split; discriminate.
  - vm_compute. split; discriminate.
  - vm_compute. discriminate.
  - split; [exact Hmono|]. apply Hstrict; vm_compute; discriminate.
Defined.

(** Across the epoch two times one second apart can yield the same stamp. *)
Example get_current_timestamp_across_epoch :
  get_current_timestamp (-500000) (fun t => t) = 0
  /\ get_current_timestamp 500000 (fun t => t) = 0.
Proof. split; reflexivity. Qed.
